(** * CPC sketch core (cpc_sketch_impl.hpp): a shallow embedding

    The C++ member functions of [cpc_sketch_alloc] are rendered as functions
    on an explicit sketch record.  Fixed-width integers are [Z] values with the
    wrap-around of each C++ type written out; exceptions and undefined
    behaviour are results of a small error monad. *)

From Stdlib Require Import ZArith Lia String QArith.
From Stdlib Require Import SpecFloat.
From stdpp Require Import base tactics option list pretty.

Local Open Scope Z_scope.

(** ** Results of a C++ call *)

(** The two exception classes the file throws, with the static part of the
    message (the numbers appended with [std::to_string] are left out). *)
Inductive exn :=
| invalid_argument (msg : string)
| logic_error (msg : string).

(** [Ok a]: normal return.  [Throw e]: an exception leaves the call.
    [Undefined]: the C++ standard gives the execution no meaning (an int
    shift out of range, signed overflow, an access outside an array or a
    read of bytes that are not there). *)
Inductive result (A : Type) :=
| Ok (a : A)
| Throw (e : exn)
| Undefined.
Arguments Ok {A} a.
Arguments Throw {A} e.
Arguments Undefined {A}.

Definition bind {A B} (m : result A) (f : A -> result B) : result B :=
  match m with
  | Ok a => f a
  | Throw e => Throw e
  | Undefined => Undefined
  end.

#[global] Instance result_ret : MRet result := @Ok.
#[global] Instance result_bind : MBind result := fun A B f m => bind m f.
#[global] Instance result_fmap : FMap result :=
  fun A B f m => bind m (fun a => Ok (f a)).

Definition is_Ok {A} (r : result A) : Prop := exists a, r = Ok a.

(** [for (i = 0; i < n; i++) body], threading the loop state. *)
Fixpoint for_loop_from {St} (i : nat) (n : nat) (body : Z -> St -> result St)
    (s : St) : result St :=
  match n with
  | O => Ok s
  | S n' => s' ← body (Z.of_nat i) s; for_loop_from (S i) n' body s'
  end.
Definition for_loop {St} (n : Z) (body : Z -> St -> result St) (s : St)
    : result St :=
  for_loop_from 0 (Z.to_nat n) body s.

(** [for (x : xs) body]. *)
Fixpoint for_each {St X} (xs : list X) (body : X -> St -> result St) (s : St)
    : result St :=
  match xs with
  | [] => Ok s
  | x :: xs' => s' ← body x s; for_each xs' body s'
  end.

(** ** Fixed-width integers *)

Definition wrap (w x : Z) : Z := x mod 2 ^ w.
Definition u8 : Z -> Z := wrap 8.
Definition u16 : Z -> Z := wrap 16.
Definition u32 : Z -> Z := wrap 32.
Definition u64 : Z -> Z := wrap 64.

(** Conversion to a signed type of [w] bits (two's complement). *)
Definition to_signed (w x : Z) : Z :=
  let y := x mod 2 ^ w in if y <? 2 ^ (w - 1) then y else y - 2 ^ w.

Definition UINT32_MAX : Z := 2 ^ 32 - 1.
Definition UINT64_MAX : Z := 2 ^ 64 - 1.

(** [a << n] where both operands have type [int] after promotion (C++11 with
    DR 1457): defined when [a] is non-negative, [0 <= n < 32] and [a * 2^n]
    fits the unsigned type; the result is that value converted to [int]. *)
Definition shl_int (a n : Z) : result Z :=
  if (0 <=? a) && (0 <=? n) && (n <? 32) && (a * 2 ^ n <? 2 ^ 32)
  then Ok (to_signed 32 (a * 2 ^ n))
  else Undefined.

(** [a - b] on [int]: overflow is undefined. *)
Definition sub_int (a b : Z) : result Z :=
  if (- 2 ^ 31 <=? a - b) && (a - b <? 2 ^ 31) then Ok (a - b) else Undefined.

(** [a - b] on [int64_t]. *)
Definition sub_i64 (a b : Z) : result Z :=
  if (- 2 ^ 63 <=? a - b) && (a - b <? 2 ^ 63) then Ok (a - b) else Undefined.

(** [const uint64_t k = 1 << lg_k;] the shift is done on [int], the result
    converted to the 64-bit unsigned type. *)
Definition k_of (lg_k : Z) : result Z := u64 <$> shl_int 1 lg_k.

(** ** Bit utilities *)

(** Modelled from the spec: count_leading_zeros_in_u64, count_trailing_zeros_in_u64
    and count_bits_set_in_matrix (count_zeros.hpp and cpc_util.hpp are not
    part of the sources): leading zeros, trailing zeros and popcount of
    64-bit words; both zero counts are 64 at 0. *)
Definition count_leading_zeros_in_u64 (x : Z) : Z :=
  if x =? 0 then 64 else 63 - Z.log2 x.

Fixpoint ctz_pos (p : positive) : Z :=
  match p with
  | xO p' => 1 + ctz_pos p'
  | _ => 0
  end.
Definition count_trailing_zeros_in_u64 (x : Z) : Z :=
  match x with
  | Zpos p => ctz_pos p
  | _ => 64
  end.

Fixpoint popcount_pos (p : positive) : Z :=
  match p with
  | xH => 1
  | xO p' => popcount_pos p'
  | xI p' => 1 + popcount_pos p'
  end.
Definition popcount (x : Z) : Z :=
  match x with
  | Zpos p => popcount_pos p
  | _ => 0
  end.
Definition count_bits_set_in_matrix (matrix : list Z) (len : Z) : Z :=
  foldr (fun w acc => popcount w + acc) 0 (take (Z.to_nat len) matrix).

(** ** Doubles

    A [double] is its IEEE 754 binary64 bit pattern, so that NaN payloads
    and the sign of zero are visible; arithmetic goes through the Standard
    Library's executable specification of binary64. *)
Definition double := Z.

Definition b64_of_bits (b : double) : spec_float :=
  let s := Z.testbit b 63 in
  let e := Z.land (Z.shiftr b 52) 2047 in
  let m := Z.land b (2 ^ 52 - 1) in
  if e =? 0 then
    match m with
    | Zpos p => S754_finite s p (-1074)
    | _ => S754_zero s
    end
  else if e =? 2047 then
    (if m =? 0 then S754_infinity s else S754_nan)
  else
    match m + 2 ^ 52 with
    | Zpos p => S754_finite s p (e - 1075)
    | _ => S754_nan
    end.

Definition sign_bit (s : bool) : Z := if s then 2 ^ 63 else 0.

Definition bits_of_b64 (f : spec_float) : double :=
  match f with
  | S754_zero s => sign_bit s
  | S754_infinity s => sign_bit s + 2047 * 2 ^ 52
  | S754_nan => 0x7ff8000000000000
  | S754_finite s m e =>
      if Zpos m <? 2 ^ 52 then sign_bit s + Zpos m
      else sign_bit s + (e + 1075) * 2 ^ 52 + (Zpos m - 2 ^ 52)
  end.

Definition lift2 (op : spec_float -> spec_float -> spec_float) (a b : double)
    : double :=
  bits_of_b64 (op (b64_of_bits a) (b64_of_bits b)).

Definition fadd : double -> double -> double := lift2 (SFadd 53 1024).
Definition fsub : double -> double -> double := lift2 (SFsub 53 1024).
Definition fmul : double -> double -> double := lift2 (SFmul 53 1024).
Definition fdiv : double -> double -> double := lift2 (SFdiv 53 1024).

(** [m * 2^e] rounded to the nearest double. *)
Definition double_of_scaled (m e : Z) : double :=
  bits_of_b64 (binary_normalize 53 1024 m e false).
(** Conversion of an integer to double. *)
Definition double_of_Z (z : Z) : double := double_of_scaled z 0.

Definition pos_zero : double := 0.
Definition neg_zero : double := 2 ^ 63.
(** [value == 0.0] *)
Definition double_eq_zero (b : double) : bool :=
  SFeqb (b64_of_bits b) (S754_zero false).
(** [std::isnan(value)] *)
Definition isnan (b : double) : bool :=
  match b64_of_bits b with
  | S754_nan => true
  | _ => false
  end.

(** [static_cast<double>(float)]: a binary32 pattern widened to binary64.
    Every finite value and infinity is converted exactly; a NaN stays a NaN
    (its payload is moved to the top of the wider fraction and quieted). *)
Definition double_of_float (x : Z) : double :=
  let s := Z.testbit x 31 in
  let e := Z.land (Z.shiftr x 23) 255 in
  let m := Z.land x (2 ^ 23 - 1) in
  if e =? 255 then
    (if m =? 0 then sign_bit s + 2047 * 2 ^ 52
     else sign_bit s + 2047 * 2 ^ 52 + Z.lor (2 ^ 51) (m * 2 ^ 29))
  else if e =? 0 then
    (if m =? 0 then sign_bit s
     else sign_bit s + double_of_scaled m (-149))
  else sign_bit s + double_of_scaled (m + 2 ^ 23) (e - 150).

(** Modelled from the spec: INVERSE_POWERS_OF_2 (inv_pow_2_tab.hpp is not
    part of the sources): entry [i] is [2^(-i)]. *)
Definition INVERSE_POWERS_OF_2 (i : Z) : double := double_of_scaled 1 (- i).

(** Modelled from the spec: KXP_BYTE_TABLE (kxp_byte_lookup.hpp is not part of
    the sources): the sum of [2^(-(i+1))] over the bits [i] set in the byte. *)
Definition KXP_BYTE_TABLE (byte : Z) : double :=
  double_of_scaled
    (foldr (fun i acc => (if Z.testbit byte i then 2 ^ (7 - i) else 0) + acc)
       0 [0; 1; 2; 3; 4; 5; 6; 7])
    (-8).

(** ** Vectors indexed by C++ integers *)

(** [v[i]] and [v[i] = x] on a [std::vector] or array: outside the bounds the
    access is undefined. *)
Definition vec_get (v : list Z) (i : Z) : result Z :=
  if (0 <=? i) && (i <? Z.of_nat (length v)) then
    match v !! Z.to_nat i with
    | Some x => Ok x
    | None => Undefined
    end
  else Undefined.

Definition vec_set (v : list Z) (i x : Z) : result (list Z) :=
  if (0 <=? i) && (i <? Z.of_nat (length v)) then Ok (<[Z.to_nat i := x]> v)
  else Undefined.

(** [v.resize(n, x)] *)
Definition vec_resize (v : list Z) (n x : Z) : list Z :=
  take (Z.to_nat n) v ++ replicate (Z.to_nat n - length v)%nat x.

(** ** The surprising-value table *)

(** Modelled from the spec: u32_table (u32_table.hpp is not part of the
    sources): a set of 32-bit codes, here the list of its live slots without
    repetition.  [maybe_insert] answers whether the code was new,
    [maybe_delete] whether it was there; [get_slots] gives the live slots (the
    empty slots of the real array hold [UINT32_MAX] and are skipped by every
    loop of the sketch). *)
Abbreviation u32_table := (list Z) (only parsing).

Definition u32_table_new (lg_size num_valid_bits : Z) : u32_table := [].

Definition maybe_insert (t : u32_table) (item : Z) : u32_table * bool :=
  if bool_decide (item ∈ t) then (t, false) else (t ++ [item], true).

Definition maybe_delete (t : u32_table) (item : Z) : u32_table * bool :=
  if bool_decide (item ∈ t)
  then (filter (fun x => x ≠ item) t, true)
  else (t, false).

Definition clear (t : u32_table) : u32_table := [].
Definition get_slots (t : u32_table) : list Z := t.
Definition get_num_items (t : u32_table) : Z := Z.of_nat (length t).

(** ** The sketch *)

Definition CPC_MIN_LG_K : Z := 4.
Definition CPC_MAX_LG_K : Z := 26.

(** The data members of [cpc_sketch_alloc]; [num_coupons] is the 32-bit
    unsigned member that [get_num_coupons] returns and the serializer writes
    in four bytes. *)
Record cpc_sketch := mk_sketch {
  lg_k : Z;
  seed : Z;
  was_merged : bool;
  num_coupons : Z;
  surprising_value_table : list Z;
  sliding_window : list Z;
  window_offset : Z;
  first_interesting_column : Z;
  kxp : double;
  hip_est_accum : double;
}.

Definition set_num_coupons (s : cpc_sketch) (c : Z) : cpc_sketch :=
  mk_sketch (lg_k s) (seed s) (was_merged s) c (surprising_value_table s)
    (sliding_window s) (window_offset s) (first_interesting_column s) (kxp s)
    (hip_est_accum s).
Definition set_table (s : cpc_sketch) (t : list Z) : cpc_sketch :=
  mk_sketch (lg_k s) (seed s) (was_merged s) (num_coupons s) t
    (sliding_window s) (window_offset s) (first_interesting_column s) (kxp s)
    (hip_est_accum s).
Definition set_window (s : cpc_sketch) (w : list Z) : cpc_sketch :=
  mk_sketch (lg_k s) (seed s) (was_merged s) (num_coupons s)
    (surprising_value_table s) w (window_offset s)
    (first_interesting_column s) (kxp s) (hip_est_accum s).
Definition set_window_offset (s : cpc_sketch) (o : Z) : cpc_sketch :=
  mk_sketch (lg_k s) (seed s) (was_merged s) (num_coupons s)
    (surprising_value_table s) (sliding_window s) o
    (first_interesting_column s) (kxp s) (hip_est_accum s).
Definition set_first_interesting_column (s : cpc_sketch) (c : Z) : cpc_sketch :=
  mk_sketch (lg_k s) (seed s) (was_merged s) (num_coupons s)
    (surprising_value_table s) (sliding_window s) (window_offset s) c (kxp s)
    (hip_est_accum s).
Definition set_hip (s : cpc_sketch) (kxp' hip' : double) : cpc_sketch :=
  mk_sketch (lg_k s) (seed s) (was_merged s) (num_coupons s)
    (surprising_value_table s) (sliding_window s) (window_offset s)
    (first_interesting_column s) kxp' hip'.

(** [cpc_sketch_alloc(uint8_t lg_k, uint64_t seed)].  The member initialisers
    (among them [kxp(1 << lg_k)]) run before the range check of the body. *)
Definition cpc_sketch_alloc (lg_k seed : Z) : result cpc_sketch :=
  k ← shl_int 1 lg_k;
  if (lg_k <? CPC_MIN_LG_K) || (lg_k >? CPC_MAX_LG_K)
  then Throw (invalid_argument "lg_k must be >= 4 and <= 26")
  else Ok (mk_sketch lg_k seed false 0 (u32_table_new 2 (6 + lg_k)) [] 0 0
             (double_of_Z k) pos_zero).

Definition get_lg_k (s : cpc_sketch) : Z := lg_k s.
Definition is_empty (s : cpc_sketch) : bool := num_coupons s =? 0.
Definition get_hip_estimate (s : cpc_sketch) : double := hip_est_accum s.
Definition get_num_coupons (s : cpc_sketch) : Z := num_coupons s.

(** [get_preamble_ints(num_coupons, has_hip, has_table, has_window)] *)
Definition get_preamble_ints (num_coupons : Z)
    (has_hip has_table has_window : bool) : Z :=
  let preamble_ints := 2 in
  if num_coupons >? 0 then
    let preamble_ints := u8 (preamble_ints + 1) in
    let preamble_ints :=
      if has_hip then u8 (preamble_ints + 4) else preamble_ints in
    let preamble_ints :=
      if has_table then
        let preamble_ints := u8 (preamble_ints + 1) in
        if has_window then u8 (preamble_ints + 1) else preamble_ints
      else preamble_ints in
    let preamble_ints :=
      if has_window then u8 (preamble_ints + 1) else preamble_ints in
    preamble_ints
  else preamble_ints.

Inductive flavor := EMPTY | SPARSE | HYBRID | PINNED | SLIDING.

(** [determine_flavor(uint8_t lg_k, uint64_t c)] *)
Definition determine_flavor (lg_k c : Z) : result flavor :=
  k ← k_of lg_k;
  let c2 := u64 (Z.shiftl c 1) in
  let c8 := u64 (Z.shiftl c 3) in
  let c32 := u64 (Z.shiftl c 5) in
  if c =? 0 then Ok EMPTY
  else if c32 <? u64 (3 * k) then Ok SPARSE
  else if c2 <? k then Ok HYBRID
  else if c8 <? u64 (27 * k) then Ok PINNED
  else Ok SLIDING.

(** [determine_correct_offset(uint8_t lg_k, uint64_t c)]; the result is
    narrowed to [uint8_t]. *)
Definition determine_correct_offset (lg_k c : Z) : result Z :=
  k ← k_of lg_k;
  tmp ← sub_i64 (to_signed 64 (u64 (Z.shiftl c 3)))
                (to_signed 64 (u64 (19 * k)));
  if tmp <? 0 then Ok 0
  else if lg_k + 3 <? 64 then Ok (u8 (Z.shiftr tmp (lg_k + 3)))
  else Undefined.

(** [cpc_sketch_alloc(lg_k, num_coupons, first_interesting_column, table,
    window, has_hip, kxp, hip_est_accum, seed)], the private constructor used
    by deserialization: [window_offset] is computed, not passed. *)
Definition cpc_sketch_alloc_private (lg_k num_coupons first_interesting_column : Z)
    (table : list Z) (window : list Z) (has_hip : bool)
    (kxp hip_est_accum : double) (seed : Z) : result cpc_sketch :=
  offset ← determine_correct_offset lg_k num_coupons;
  Ok (mk_sketch lg_k seed (negb has_hip) num_coupons table window offset
        first_interesting_column kxp hip_est_accum).

(** [row_col_from_two_hashes(hash0, hash1, lg_k)] *)
Definition row_col_from_two_hashes (hash0 hash1 lg_k : Z) : result Z :=
  if lg_k >? 26 then Throw (logic_error "lg_k > 26")
  else
    k ← k_of lg_k;
    let col := u8 (count_leading_zeros_in_u64 hash1) in
    let col := if col >? 63 then 63 else col in
    let row := u32 (Z.land hash0 (u64 (k - 1))) in
    let row_col := u32 (Z.lor (u32 (Z.shiftl row 6)) col) in
    let row_col :=
      if row_col =? UINT32_MAX then u32 (Z.lxor row_col (Z.shiftl 1 6))
      else row_col in
    Ok row_col.

(** ** Coupon ingest *)

(** [update_hip(row_col)] *)
Definition update_hip (s : cpc_sketch) (row_col : Z) : result cpc_sketch :=
  k ← k_of (lg_k s);
  let col := u8 (Z.land row_col 63) in
  let one_over_p := fdiv (double_of_Z k) (kxp s) in
  let hip' := fadd (hip_est_accum s) one_over_p in
  let kxp' := fsub (kxp s) (INVERSE_POWERS_OF_2 (col + 1)) in
  Ok (set_hip s kxp' hip').

(** [build_bit_matrix()].  The literals [1] in [(1 << window_offset) - 1] and
    in [1 << col] have type [int]: the shifts are 32-bit, and their result is
    converted to [uint64_t] afterwards. *)
Definition build_bit_matrix (s : cpc_sketch) : result (list Z) :=
  k ← k_of (lg_k s);
  if window_offset s >? 56 then Throw (logic_error "offset > 56")
  else
    one_shifted ← shl_int 1 (window_offset s);
    ones ← sub_int one_shifted 1;
    let default_row := u64 ones in
    let matrix := replicate (Z.to_nat k) default_row in
    if num_coupons s =? 0 then Ok matrix
    else
      matrix ←
        (if Z.of_nat (length (sliding_window s)) >? 0 then
           for_loop k (fun i matrix =>
             w ← vec_get (sliding_window s) i;
             old ← vec_get matrix i;
             vec_set matrix i (Z.lor old (u64 (Z.shiftl w (window_offset s)))))
             matrix
         else Ok matrix);
      for_each (get_slots (surprising_value_table s)) (fun row_col matrix =>
        if row_col =? UINT32_MAX then Ok matrix
        else
          let col := u8 (Z.land row_col 63) in
          let row := Z.shiftr row_col 6 in
          bit ← shl_int 1 col;
          old ← vec_get matrix row;
          vec_set matrix row (Z.lxor old (u64 bit)))
        matrix.

(** [validate()] *)
Definition validate (s : cpc_sketch) : result bool :=
  bit_matrix ← build_bit_matrix s;
  len ← shl_int 1 (lg_k s);
  let num_bits_set := count_bits_set_in_matrix bit_matrix len in
  Ok (num_bits_set =? num_coupons s).

(** [refresh_kxp(bit_matrix)] *)
Definition refresh_kxp (s : cpc_sketch) (bit_matrix : list Z)
    : result cpc_sketch :=
  k ← k_of (lg_k s);
  byte_sums ←
    for_loop k (fun i byte_sums =>
      word ← vec_get bit_matrix i;
      Ok (fst (foldl (fun '(sums, word) j =>
                 let byte := Z.land word 255 in
                 (<[j := fadd (sums !!! j) (KXP_BYTE_TABLE byte)]> sums,
                  Z.shiftr word 8))
               (byte_sums, word) (seq 0 8))))
      (replicate 8 pos_zero);
  let total :=
    foldl (fun total j =>
             let factor := INVERSE_POWERS_OF_2 (8 * Z.of_nat j) in
             fadd total (fmul factor (byte_sums !!! j)))
          pos_zero [7; 6; 5; 4; 3; 2; 1; 0]%nat in
  Ok (set_hip s total (hip_est_accum s)).

(** [promote_sparse_to_windowed()] *)
Definition promote_sparse_to_windowed (s : cpc_sketch) : result cpc_sketch :=
  k ← k_of (lg_k s);
  let c32 := u32 (Z.shiftl (num_coupons s) 5) in
  if negb ((c32 =? u64 (3 * k)) || ((lg_k s =? 4) && (c32 >? u64 (3 * k))))
  then Throw (logic_error "wrong c32")
  else
    let window := vec_resize (sliding_window s) k 0 in
    let new_table := u32_table_new 2 (6 + lg_k s) in
    let old_slots := get_slots (surprising_value_table s) in
    if negb (window_offset s =? 0) then Throw (logic_error "window_offset != 0")
    else
      '(window, new_table) ←
        for_each old_slots (fun row_col '(window, new_table) =>
          if row_col =? UINT32_MAX then Ok (window, new_table)
          else
            let col := u8 (Z.land row_col 63) in
            if col <? 8 then
              let row := Z.shiftr row_col 6 in
              bit ← shl_int 1 col;
              old ← vec_get window row;
              window' ← vec_set window row (u8 (Z.lor old bit));
              Ok (window', new_table)
            else
              let '(new_table', is_novel) := maybe_insert new_table row_col in
              if negb is_novel then Throw (logic_error "is_novel != true")
              else Ok (window, new_table'))
          (window, new_table);
      Ok (set_table (set_window s window) new_table).

(** The inner [while (pattern != 0)] loop of [move_window] for row [i]: the
    lowest set bit is looked up, erased with [pattern ^ (1 << col)] (an [int]
    shift) and entered into the table.  The loop is run for at most [fuel]
    rounds: the answer is [None] when it is still running after them, and
    [Some] of the way it ended otherwise (the table, the [logic_error] for a
    repeated code, or the undefined shift). *)
Fixpoint insert_surprises (fuel : nat) (pattern i : Z) (table : list Z)
    : option (result (list Z)) :=
  if pattern =? 0 then Some (Ok table)
  else
    match fuel with
    | O => None
    | S fuel' =>
        let col := u8 (count_trailing_zeros_in_u64 pattern) in
        match shl_int 1 col with
        | Ok bit =>
            let pattern := Z.lxor pattern (u64 bit) in
            let row_col := u32 (Z.lor (u64 (Z.shiftl i 6)) col) in
            let '(table', is_novel) := maybe_insert table row_col in
            if negb is_novel then Some (Throw (logic_error "is_novel != true"))
            else insert_surprises fuel' pattern i table'
        | Throw e => Some (Throw e)
        | Undefined => Some Undefined
        end
    end.

(** The loop as [move_window] runs it.  Its pattern is a 64-bit word, for
    which 64 rounds are shown below to be enough, so the answer [None] does
    not arise there. *)
Definition insert_surprises_u64 (pattern i : Z) (table : list Z)
    : result (list Z) :=
  match insert_surprises 64 (u64 pattern) i table with
  | Some r => r
  | None => Undefined
  end.

(** [move_window()] *)
Definition move_window (s : cpc_sketch) : result cpc_sketch :=
  let new_offset := u8 (window_offset s + 1) in
  if new_offset >? 56 then Throw (logic_error "new_offset > 56")
  else
    correct ← determine_correct_offset (lg_k s) (num_coupons s);
    if negb (new_offset =? correct) then Throw (logic_error "new_offset is wrong")
    else if Z.of_nat (length (sliding_window s)) =? 0
    then Throw (logic_error "no sliding window")
    else
      k ← k_of (lg_k s);
      bit_matrix ← build_bit_matrix s;
      s ← (if Z.land new_offset 7 =? 0 then refresh_kxp s bit_matrix else Ok s);
      let table := clear (surprising_value_table s) in
      ff_shifted ← shl_int 255 new_offset;
      let mask_for_clearing_window := Z.lxor (u64 ff_shifted) UINT64_MAX in
      one_shifted ← shl_int 1 new_offset;
      ones ← sub_int one_shifted 1;
      let mask_for_flipping_early_zone := u64 ones in
      '(window, table, all_surprises_ored) ←
        for_loop k (fun i '(window, table, all_surprises_ored) =>
          pattern ← vec_get bit_matrix i;
          window' ← vec_set window i (u8 (Z.land (Z.shiftr pattern new_offset) 255));
          let pattern := Z.land pattern mask_for_clearing_window in
          let pattern := Z.lxor pattern mask_for_flipping_early_zone in
          let all_surprises_ored := Z.lor all_surprises_ored pattern in
          table' ← insert_surprises_u64 pattern i table;
          Ok (window', table', all_surprises_ored))
          (sliding_window s, table, 0);
      let fic := u8 (count_trailing_zeros_in_u64 all_surprises_ored) in
      let fic := if fic >? new_offset then new_offset else fic in
      Ok (set_first_interesting_column
            (set_window_offset (set_table (set_window s window) table) new_offset)
            fic).

(** [update_sparse(row_col)] *)
Definition update_sparse (s : cpc_sketch) (row_col : Z) : result cpc_sketch :=
  k ← k_of (lg_k s);
  let c32pre := u32 (Z.shiftl (num_coupons s) 5) in
  if c32pre >=? u64 (3 * k) then Throw (logic_error "c32pre >= 3 * k")
  else
    let '(table, is_novel) := maybe_insert (surprising_value_table s) row_col in
    let s := set_table s table in
    if is_novel then
      let s := set_num_coupons s (u32 (num_coupons s + 1)) in
      s ← update_hip s row_col;
      let c32post := u32 (Z.shiftl (num_coupons s) 5) in
      if c32post >=? u64 (3 * k) then promote_sparse_to_windowed s else Ok s
    else Ok s.

(** [update_windowed(row_col)] *)
Definition update_windowed (s : cpc_sketch) (row_col : Z) : result cpc_sketch :=
  if window_offset s >? 56 then Throw (logic_error "wrong window offset")
  else
    k ← k_of (lg_k s);
    let c32pre := u32 (Z.shiftl (num_coupons s) 5) in
    if c32pre <? u64 (3 * k) then Throw (logic_error "c32pre < 3 * k")
    else
      let c8pre := u32 (Z.shiftl (num_coupons s) 3) in
      w8pre ← shl_int (window_offset s) 3;
      if c8pre >=? u64 ((27 + w8pre) * k) then Throw (logic_error "c8pre is wrong")
      else
        let col := u8 (Z.land row_col 63) in
        '(s, is_novel) ←
          ((if col <? window_offset s then
             let '(table, is_novel) :=
               maybe_delete (surprising_value_table s) row_col in
             Ok (set_table s table, is_novel)
           else if col <? window_offset s + 8 then
             let row := u32 (Z.shiftr row_col 6) in
             old_bits ← vec_get (sliding_window s) row;
             bit ← shl_int 1 (col - window_offset s);
             let new_bits := u8 (Z.lor old_bits bit) in
             if negb (new_bits =? old_bits) then
               window ← vec_set (sliding_window s) row new_bits;
               Ok (set_window s window, true)
             else Ok (s, false)
           else
             let '(table, is_novel) :=
               maybe_insert (surprising_value_table s) row_col in
             Ok (set_table s table, is_novel)) : result (cpc_sketch * bool));
        if (is_novel : bool) then
          let s := set_num_coupons s (u32 (num_coupons s + 1)) in
          s ← update_hip s row_col;
          let c8post := u32 (Z.shiftl (num_coupons s) 3) in
          if c8post >=? u64 ((27 + w8pre) * k) then
            s ← move_window s;
            if (window_offset s <? 1) || (window_offset s >? 56)
            then Throw (logic_error "wrong window offset")
            else
              w8post ← shl_int (window_offset s) 3;
              if c8post >=? u64 ((27 + w8post) * k)
              then Throw (logic_error "c8pre is wrong")
              else Ok s
          else Ok s
        else Ok s.

(** [row_col_update(row_col)] *)
Definition row_col_update (s : cpc_sketch) (row_col : Z) : result cpc_sketch :=
  let col := u8 (Z.land row_col 63) in
  if col <? first_interesting_column s then Ok s
  else if Z.of_nat (length (sliding_window s)) =? 0 then update_sparse s row_col
  else update_windowed s row_col.

(** ** Byte images *)

(** The object representation of an [n]-byte integer, least significant byte
    first (the layout the wire format prescribes). *)
Fixpoint le_bytes (n : nat) (x : Z) : list Z :=
  match n with
  | O => []
  | S n' => x mod 256 :: le_bytes n' (x / 256)
  end.

Fixpoint le_decode (bs : list Z) : Z :=
  match bs with
  | [] => 0
  | b :: bs' => b + 256 * le_decode bs'
  end.

(** [copy_from_mem(ptr, &x, n)]: the next [n] bytes of the buffer as an
    integer, and the buffer that is left.  When fewer bytes remain the C++
    program reads outside its buffer. *)
Definition read_le (n : nat) (input : list Z) : result (Z * list Z) :=
  if (n <=? length input)%nat
  then Ok (le_decode (take n input), drop n input)
  else Undefined.

(** [n] 32-bit words read from, or written to, a [uint32_t] array. *)
Fixpoint read_words (n : nat) (input : list Z) : result (list Z * list Z) :=
  match n with
  | O => Ok ([], input)
  | S n' =>
      '(w, input') ← read_le 4 input;
      '(ws, input'') ← read_words n' input';
      Ok (w :: ws, input'')
  end.

Definition write_words (n : Z) (data : list Z) : result (list Z) :=
  if (0 <=? n) && (n <=? Z.of_nat (length data))
  then Ok (flat_map (le_bytes 4) (take (Z.to_nat n) data))
  else Undefined.

(** ** What the file takes from the rest of the library *)

(** [compressed_state] and [uncompressed_state] of the compressor; a null
    data pointer is [None]. *)
Record compressed_state := mk_compressed {
  table_data_ptr : option (list Z);
  table_data_words : Z;
  table_num_entries : Z;
  window_data_ptr : option (list Z);
  window_data_words : Z;
}.

Record uncompressed_state := mk_uncompressed {
  table : list Z;
  window : list Z;
}.

(** The declarations the file uses and does not define: the 128-bit hash,
    the seed digest, the constants and flag positions of the class
    declaration, and the compressor (reached through [get_compressor]). *)
Class Externals := {
  MurmurHash3_x64_128 : list Z -> Z -> Z * Z;
  compute_seed_hash : Z -> Z;
  SERIAL_VERSION : Z;
  FAMILY : Z;
  IS_COMPRESSED : Z;
  HAS_HIP : Z;
  HAS_TABLE : Z;
  HAS_WINDOW : Z;
  compress : cpc_sketch -> compressed_state -> result compressed_state;
  uncompress : compressed_state -> Z -> Z -> result uncompressed_state;
}.

Section Hosted.
Context {ext : Externals}.

(** *** The [update] overloads *)

(** [update(const void* value, int size)]; [value] lists the [size] bytes. *)
Definition update_bytes (s : cpc_sketch) (value : list Z) : result cpc_sketch :=
  let hashes := MurmurHash3_x64_128 value (seed s) in
  row_col ← row_col_from_two_hashes (u64 (fst hashes)) (u64 (snd hashes)) (lg_k s);
  row_col_update s row_col.

(** [update(const std::string& value)] *)
Definition update_string (s : cpc_sketch) (value : list Z) : result cpc_sketch :=
  if bool_decide (value = []) then Ok s
  else if Z.of_nat (length value) <? 2 ^ 31 then update_bytes s value
  else Undefined.

(** [update(uint64_t)] and [update(int64_t)] hash the eight bytes of the
    object. *)
Definition update_u64 (s : cpc_sketch) (value : Z) : result cpc_sketch :=
  update_bytes s (le_bytes 8 value).
Definition update_i64 (s : cpc_sketch) (value : Z) : result cpc_sketch :=
  update_bytes s (le_bytes 8 (u64 value)).

(** [update(uint32_t)], [update(int32_t)] and the narrower overloads; signed
    values are their mathematical value, so widening to [int64_t] changes
    nothing. *)
Definition update_i32 (s : cpc_sketch) (value : Z) : result cpc_sketch :=
  update_i64 s value.
Definition update_u32 (s : cpc_sketch) (value : Z) : result cpc_sketch :=
  update_i32 s (to_signed 32 value).
Definition update_i16 (s : cpc_sketch) (value : Z) : result cpc_sketch :=
  update_i64 s value.
Definition update_u16 (s : cpc_sketch) (value : Z) : result cpc_sketch :=
  update_i16 s (to_signed 16 value).
Definition update_i8 (s : cpc_sketch) (value : Z) : result cpc_sketch :=
  update_i64 s value.
Definition update_u8 (s : cpc_sketch) (value : Z) : result cpc_sketch :=
  update_i8 s (to_signed 8 value).

(** [update(double)] *)
Definition update_double (s : cpc_sketch) (value : double) : result cpc_sketch :=
  let ldu :=
    if double_eq_zero value then pos_zero
    else if isnan value then 0x7ff8000000000000
    else value in
  update_bytes s (le_bytes 8 ldu).

(** [update(float)] *)
Definition update_float (s : cpc_sketch) (value : Z) : result cpc_sketch :=
  update_double s (double_of_float value).

(** *** Serialization *)

Definition flag_bit (pos : Z) (on : bool) : Z := if on then Z.shiftl 1 pos else 0.
Definition flag_set (flags_byte pos : Z) : bool :=
  negb (Z.land flags_byte (Z.shiftl 1 pos) =? 0).

Definition empty_compressed : compressed_state := mk_compressed None 0 0 None 0.

(** [write_hip(os)] *)
Definition write_hip (s : cpc_sketch) : list Z :=
  le_bytes 8 (kxp s) ++ le_bytes 8 (hip_est_accum s).

(** [serialize(std::ostream& os)]: the bytes written to [os]. *)
Definition serialize (s : cpc_sketch) : result (list Z) :=
  compressed ← compress s empty_compressed;
  let has_hip := negb (was_merged s) in
  let has_table := bool_decide (table_data_ptr compressed ≠ None) in
  let has_window := bool_decide (window_data_ptr compressed ≠ None) in
  let preamble_ints := get_preamble_ints (num_coupons s) has_hip has_table has_window in
  let flags_byte :=
    u8 (Z.lor (Z.lor (Z.lor (Z.shiftl 1 IS_COMPRESSED) (flag_bit HAS_HIP has_hip))
                 (flag_bit HAS_TABLE has_table))
          (flag_bit HAS_WINDOW has_window)) in
  let seed_hash := u16 (compute_seed_hash (seed s)) in
  let head :=
    le_bytes 1 preamble_ints ++ le_bytes 1 (u8 SERIAL_VERSION)
    ++ le_bytes 1 (u8 FAMILY) ++ le_bytes 1 (lg_k s)
    ++ le_bytes 1 (first_interesting_column s) ++ le_bytes 1 flags_byte
    ++ le_bytes 2 seed_hash in
  if negb (is_empty s) then
    let both := has_table && has_window in
    window_bytes ←
      (if has_window
       then write_words (window_data_words compressed)
              (default [] (window_data_ptr compressed))
       else Ok []);
    table_bytes ←
      (if has_table
       then write_words (table_data_words compressed)
              (default [] (table_data_ptr compressed))
       else Ok []);
    Ok (head
        ++ le_bytes 4 (num_coupons s)
        ++ (if both then le_bytes 4 (table_num_entries compressed)
                         ++ (if has_hip then write_hip s else [])
            else [])
        ++ (if has_table then le_bytes 4 (table_data_words compressed) else [])
        ++ (if has_window then le_bytes 4 (window_data_words compressed) else [])
        ++ (if has_hip && negb both then write_hip s else [])
        ++ window_bytes ++ table_bytes)
  else Ok head.

(** The fields both [deserialize] overloads read, in the order they read
    them. *)
Record preamble := mk_preamble {
  p_preamble_ints : Z;
  p_serial_version : Z;
  p_family_id : Z;
  p_lg_k : Z;
  p_first_interesting_column : Z;
  p_flags_byte : Z;
  p_seed_hash : Z;
  p_num_coupons : Z;
  p_kxp : double;
  p_hip_est_accum : double;
  p_compressed : compressed_state;
}.

Definition p_has_hip (p : preamble) : bool := flag_set (p_flags_byte p) HAS_HIP.
Definition p_has_table (p : preamble) : bool := flag_set (p_flags_byte p) HAS_TABLE.
Definition p_has_window (p : preamble) : bool := flag_set (p_flags_byte p) HAS_WINDOW.

Definition read_hip (input : list Z) : result (Z * Z * list Z) :=
  '(kxp, input) ← read_le 8 input;
  '(hip_est_accum, input) ← read_le 8 input;
  Ok (kxp, hip_est_accum, input).

(** The reading part of [deserialize(const void*, size_t, seed)]: the
    preamble and the fields that follow it, and the input left over.  The
    copies are not checked against [size], so a buffer that ends before the
    last field is read past its end. *)
Definition read_fields (input : list Z) : result (preamble * list Z) :=
  '(preamble_ints, input) ← read_le 1 input;
  '(serial_version, input) ← read_le 1 input;
  '(family_id, input) ← read_le 1 input;
  '(lg_k, input) ← read_le 1 input;
  '(first_interesting_column, input) ← read_le 1 input;
  '(flags_byte, input) ← read_le 1 input;
  '(seed_hash, input) ← read_le 2 input;
  let has_hip := flag_set flags_byte HAS_HIP in
  let has_table := flag_set flags_byte HAS_TABLE in
  let has_window := flag_set flags_byte HAS_WINDOW in
  if has_table || has_window then
    '(num_coupons, input) ← read_le 4 input;
    '(table_num_entries, kxp, hip_est_accum, input) ←
      ((if has_table && has_window then
          '(table_num_entries, input) ← read_le 4 input;
          if has_hip then
            '(kxp, hip_est_accum, input) ← read_hip input;
            Ok (table_num_entries, kxp, hip_est_accum, input)
          else Ok (table_num_entries, pos_zero, pos_zero, input)
        else Ok (0, pos_zero, pos_zero, input))
       : result (Z * Z * Z * list Z));
    '(table_data_words, input) ←
      ((if has_table then read_le 4 input else Ok (0, input))
       : result (Z * list Z));
    '(window_data_words, input) ←
      ((if has_window then read_le 4 input else Ok (0, input))
       : result (Z * list Z));
    '(kxp, hip_est_accum, input) ←
      ((if has_hip && negb (has_table && has_window) then read_hip input
        else Ok (kxp, hip_est_accum, input))
       : result (Z * Z * list Z));
    '(window_data_ptr, input) ←
      ((if has_window then
          '(ws, input) ← read_words (Z.to_nat window_data_words) input;
          Ok (Some ws, input)
        else Ok (None, input))
       : result (option (list Z) * list Z));
    '(table_data_ptr, input) ←
      ((if has_table then
          '(ws, input) ← read_words (Z.to_nat table_data_words) input;
          Ok (Some ws, input)
        else Ok (None, input))
       : result (option (list Z) * list Z));
    let table_num_entries :=
      if negb has_window then num_coupons else table_num_entries in
    Ok (mk_preamble preamble_ints serial_version family_id lg_k
          first_interesting_column flags_byte seed_hash num_coupons kxp
          hip_est_accum
          (mk_compressed table_data_ptr table_data_words table_num_entries
             window_data_ptr window_data_words),
        input)
  else
    Ok (mk_preamble preamble_ints serial_version family_id lg_k
          first_interesting_column flags_byte seed_hash 0 pos_zero pos_zero
          empty_compressed,
        input).

(** The four comparisons made before anything is built. *)
Definition preamble_ints_ok (p : preamble) : bool :=
  p_preamble_ints p =?
    get_preamble_ints (p_num_coupons p) (p_has_hip p) (p_has_table p) (p_has_window p).
Definition serial_version_ok (p : preamble) : bool :=
  p_serial_version p =? u8 SERIAL_VERSION.
Definition family_ok (p : preamble) : bool := p_family_id p =? u8 FAMILY.
Definition seed_hash_ok (p : preamble) (seed : Z) : bool :=
  p_seed_hash p =? u16 (compute_seed_hash seed).

(** The part of [deserialize(const void*, size_t, seed)] after the reading
    and the size test: the four checks, [uncompress], and the private
    constructor. *)
Definition check_and_build (p : preamble) (seed : Z) : result cpc_sketch :=
  if negb (preamble_ints_ok p)
  then Throw (invalid_argument "Possible corruption: preamble ints")
  else if negb (serial_version_ok p)
  then Throw (invalid_argument "Possible corruption: serial version")
  else if negb (family_ok p)
  then Throw (invalid_argument "Possible corruption: family")
  else if negb (seed_hash_ok p seed)
  then Throw (invalid_argument "Incompatible seed hashes")
  else
    uncompressed ← uncompress (p_compressed p) (p_lg_k p) (p_num_coupons p);
    cpc_sketch_alloc_private (p_lg_k p) (p_num_coupons p)
      (p_first_interesting_column p) (table uncompressed) (window uncompressed)
      (p_has_hip p) (p_kxp p) (p_hip_est_accum p) seed.

(** *** Reading from a stream *)

(** The state of a [std::istream] (with the default exception mask): the
    bytes not yet extracted, and whether [failbit] is set. *)
Record istream := mk_istream {
  is_bytes : list Z;
  is_fail : bool;
}.

(** [is.read((char* )&x, n)] for an object of [n] bytes that holds the bytes
    [old]: a stream that has failed extracts nothing and leaves the object
    as it is; otherwise [n] bytes are stored, or, when fewer remain, the
    remaining ones are stored in front and [eofbit] and [failbit] are set. *)
Definition is_read (n : nat) (old : list Z) (ins : istream) : list Z * istream :=
  if is_fail ins then (old, ins)
  else if (n <=? length (is_bytes ins))%nat
  then (take n (is_bytes ins), mk_istream (drop n (is_bytes ins)) false)
  else (is_bytes ins ++ drop (length (is_bytes ins)) old, mk_istream [] true).

(** [read] into an initialised integer or [double] that holds [old]. *)
Definition read_into (n : nat) (old : Z) (ins : istream) : Z * istream :=
  let '(bytes, ins) := is_read n (le_bytes n old) ins in
  (le_decode bytes, ins).

(** [read] into an object declared without an initialiser: its value is
    indeterminate ([None]) unless all [n] bytes were extracted. *)
Definition read_fresh (n : nat) (ins : istream) : option Z * istream :=
  if is_fail ins then (None, ins)
  else if (n <=? length (is_bytes ins))%nat
  then (Some (le_decode (take n (is_bytes ins))),
        mk_istream (drop n (is_bytes ins)) false)
  else (None, mk_istream [] true).

(** [read] into a newly allocated array of [n] 32-bit words: its content is
    indeterminate ([None]) unless all [4 n] bytes were extracted. *)
Definition read_array (n : nat) (ins : istream) : option (list Z) * istream :=
  if is_fail ins then ((if (n =? 0)%nat then Some [] else None), ins)
  else
    match read_words n (is_bytes ins) with
    | Ok (ws, rest) => (Some ws, mk_istream rest false)
    | _ => (None, mk_istream [] true)
    end.

Definition read_hip_into (kxp hip_est_accum : Z) (ins : istream)
    : Z * Z * istream :=
  let '(kxp, ins) := read_into 8 kxp ins in
  let '(hip_est_accum, ins) := read_into 8 hip_est_accum ins in
  (kxp, hip_est_accum, ins).

(** What [deserialize(std::istream&, seed)] has read when it reaches the
    checks. *)
Record stream_fields := mk_stream_fields {
  sf_preamble : preamble;
  (** [seed_hash], declared without an initialiser, was read in full *)
  sf_seed_hash_read : bool;
  (** the window and table arrays were read in full *)
  sf_arrays_read : bool;
}.

(** The fields behind the 8-byte header. *)
Record stream_body := mk_stream_body {
  sb_num_coupons : Z;
  sb_kxp : double;
  sb_hip_est_accum : double;
  sb_compressed : compressed_state;
  sb_arrays_read : bool;
}.

(** The reads of [deserialize(std::istream&, seed)] behind the header.
    [num_coupons], the counts of the compressed state, [kxp] and
    [hip_est_accum] start from their initial value 0 and keep it, or the
    bytes of it that were not read, after a failed [read]. *)
Definition read_body_stream (has_hip has_table has_window : bool) (ins : istream)
    : stream_body :=
  if has_table || has_window then
    let '(num_coupons, ins) := read_into 4 0 ins in
    let '(table_num_entries, kxp, hip_est_accum, ins) :=
      (if has_table && has_window then
         let '(table_num_entries, ins) := read_into 4 0 ins in
         if has_hip then
           let '(kxp, hip_est_accum, ins) := read_hip_into pos_zero pos_zero ins in
           (table_num_entries, kxp, hip_est_accum, ins)
         else (table_num_entries, pos_zero, pos_zero, ins)
       else (0, pos_zero, pos_zero, ins)) in
    let '(table_data_words, ins) :=
      (if has_table then read_into 4 0 ins else (0, ins)) in
    let '(window_data_words, ins) :=
      (if has_window then read_into 4 0 ins else (0, ins)) in
    let '(kxp, hip_est_accum, ins) :=
      (if has_hip && negb (has_table && has_window)
       then read_hip_into kxp hip_est_accum ins
       else (kxp, hip_est_accum, ins)) in
    let '(window_data, ins) :=
      (if has_window then read_array (Z.to_nat window_data_words) ins
       else (None, ins)) in
    let '(table_data, ins) :=
      (if has_table then read_array (Z.to_nat table_data_words) ins
       else (None, ins)) in
    let table_num_entries :=
      if negb has_window then num_coupons else table_num_entries in
    mk_stream_body num_coupons kxp hip_est_accum
      (mk_compressed
         (if has_table then Some (default [] table_data) else None)
         table_data_words table_num_entries
         (if has_window then Some (default [] window_data) else None)
         window_data_words)
      ((negb has_window || bool_decide (window_data ≠ None))
       && (negb has_table || bool_decide (table_data ≠ None)))
  else mk_stream_body 0 pos_zero pos_zero empty_compressed true.

(** The reading part of [deserialize(std::istream&, seed)].  The six bytes
    up to [flags_byte] are declared without initialisers and [flags_byte] is
    used at once, so the behaviour is undefined when one of them was not
    read. *)
Definition read_fields_stream (input : list Z) : result stream_fields :=
  let ins := mk_istream input false in
  let '(preamble_ints, ins) := read_fresh 1 ins in
  let '(serial_version, ins) := read_fresh 1 ins in
  let '(family_id, ins) := read_fresh 1 ins in
  let '(lg_k, ins) := read_fresh 1 ins in
  let '(first_interesting_column, ins) := read_fresh 1 ins in
  let '(flags_byte, ins) := read_fresh 1 ins in
  let '(seed_hash, ins) := read_fresh 2 ins in
  match preamble_ints, serial_version, family_id, lg_k,
        first_interesting_column, flags_byte with
  | Some preamble_ints, Some serial_version, Some family_id, Some lg_k,
    Some first_interesting_column, Some flags_byte =>
      let has_hip := flag_set flags_byte HAS_HIP in
      let has_table := flag_set flags_byte HAS_TABLE in
      let has_window := flag_set flags_byte HAS_WINDOW in
      let body := read_body_stream has_hip has_table has_window ins in
      Ok (mk_stream_fields
            (mk_preamble preamble_ints serial_version family_id lg_k
               first_interesting_column flags_byte (default 0 seed_hash)
               (sb_num_coupons body) (sb_kxp body) (sb_hip_est_accum body)
               (sb_compressed body))
            (bool_decide (seed_hash ≠ None)) (sb_arrays_read body))
  | _, _, _, _, _, _ => Undefined
  end.

(** The part of [deserialize(std::istream&, seed)] after the reading: the
    four checks in their order, [uncompress] and the private constructor.
    Comparing a [seed_hash] that was not read, and uncompressing an array
    that was not read, use indeterminate values. *)
Definition check_and_build_stream (f : stream_fields) (seed : Z)
    : result cpc_sketch :=
  let p := sf_preamble f in
  if negb (preamble_ints_ok p)
  then Throw (invalid_argument "Possible corruption: preamble ints")
  else if negb (serial_version_ok p)
  then Throw (invalid_argument "Possible corruption: serial version")
  else if negb (family_ok p)
  then Throw (invalid_argument "Possible corruption: family")
  else if negb (sf_seed_hash_read f) then Undefined
  else if negb (seed_hash_ok p seed)
  then Throw (invalid_argument "Incompatible seed hashes")
  else if negb (sf_arrays_read f) then Undefined
  else
    uncompressed ← uncompress (p_compressed p) (p_lg_k p) (p_num_coupons p);
    cpc_sketch_alloc_private (p_lg_k p) (p_num_coupons p)
      (p_first_interesting_column p) (table uncompressed) (window uncompressed)
      (p_has_hip p) (p_kxp p) (p_hip_est_accum p) seed.

(** [deserialize(std::istream& is, uint64_t seed)]; the stream is in a good
    state at the call, and [input] lists the bytes it delivers before its
    end. *)
Definition deserialize (input : list Z) (seed : Z) : result cpc_sketch :=
  f ← read_fields_stream input;
  check_and_build_stream f seed.

(** [deserialize(const void* bytes, size_t size, uint64_t seed)]; [bytes]
    lists the memory readable at the pointer. *)
Definition deserialize_mem (bytes : list Z) (size seed : Z) : result cpc_sketch :=
  '(p, rest) ← read_fields bytes;
  if negb (Z.of_nat (length bytes) - Z.of_nat (length rest) =? size)
  then Throw (logic_error "deserialized size mismatch")
  else check_and_build p seed.

End Hosted.

(** ** A reference instance of the externals *)

Module Reference.

(** Modelled from the spec: the compressor (cpc_compressor.hpp is not part of
    the sources).  The spec asks that it be deterministic and round-trip
    safe, that [has_table] mean a non-empty table and [has_window] an
    allocated window; the encoding is its own choice.  This one stores one
    word per table code and one word per window byte. *)
Definition plain_compress (s : cpc_sketch) (c : compressed_state)
    : result compressed_state :=
  let t := surprising_value_table s in
  let w := sliding_window s in
  Ok (mk_compressed
        (if bool_decide (t = []) then table_data_ptr c else Some t)
        (if bool_decide (t = []) then table_data_words c else Z.of_nat (length t))
        (if bool_decide (t = []) then table_num_entries c else Z.of_nat (length t))
        (if bool_decide (w = []) then window_data_ptr c else Some w)
        (if bool_decide (w = []) then window_data_words c else Z.of_nat (length w))).

Definition plain_uncompress (c : compressed_state) (lg_k num_coupons : Z)
    : result uncompressed_state :=
  Ok (mk_uncompressed (default [] (table_data_ptr c))
        (default [] (window_data_ptr c))).

(** A stand-in for the hash and the seed digest, and the flag positions the
    spec lists (bit 0 to bit 3). *)
Definition hash (value : list Z) (seed : Z) : Z * Z :=
  (u64 (le_decode value + seed), u64 (2 ^ 63 - le_decode value)).

#[export] Instance externals : Externals := {|
  MurmurHash3_x64_128 := hash;
  compute_seed_hash := fun seed => u16 (seed * 31 + 7);
  SERIAL_VERSION := 1;
  FAMILY := 16;
  IS_COMPRESSED := 0;
  HAS_HIP := 1;
  HAS_TABLE := 2;
  HAS_WINDOW := 3;
  compress := plain_compress;
  uncompress := plain_uncompress;
|}.

End Reference.

(** ** Sequences of public calls *)

(** One call of a public mutator: an [update] overload or
    [row_col_update]. *)
Inductive update_call :=
| call_string (value : list Z)
| call_u64 (value : Z)
| call_i64 (value : Z)
| call_u32 (value : Z)
| call_i32 (value : Z)
| call_u16 (value : Z)
| call_i16 (value : Z)
| call_u8 (value : Z)
| call_i8 (value : Z)
| call_double (value : double)
| call_float (value : Z)
| call_bytes (value : list Z)
| call_row_col (row_col : Z).

Section Calls.
Context {ext : Externals}.

Definition run_call (s : cpc_sketch) (c : update_call) : result cpc_sketch :=
  match c with
  | call_string v => update_string s v
  | call_u64 v => update_u64 s v
  | call_i64 v => update_i64 s v
  | call_u32 v => update_u32 s v
  | call_i32 v => update_i32 s v
  | call_u16 v => update_u16 s v
  | call_i16 v => update_i16 s v
  | call_u8 v => update_u8 s v
  | call_i8 v => update_i8 s v
  | call_double v => update_double s v
  | call_float v => update_float s v
  | call_bytes v => update_bytes s v
  | call_row_col rc => row_col_update s rc
  end.

(** The sketches a program can hold: built by the public constructor and
    then changed by calls that returned normally. *)
Inductive reachable : cpc_sketch -> Prop :=
| reachable_new (lg_k seed : Z) (s : cpc_sketch) :
    cpc_sketch_alloc lg_k seed = Ok s -> reachable s
| reachable_call (s s' : cpc_sketch) (c : update_call) :
    reachable s -> run_call s c = Ok s' -> reachable s'.

End Calls.

(** The relation between [window_offset], [num_coupons] and [k] that the
    update paths keep, with the facts needed to carry it through a call:
    the count stays below the point where [num_coupons << 5] wraps, and a
    sketch without a window is below the promotion threshold. *)
Definition offset_in_step (k w c : Z) : Prop :=
  (w = 0 /\ 8 * c < 27 * k)
  \/ (1 <= w /\ (19 + 8 * w) * k <= 8 * c < (27 + 8 * w) * k).

Definition offset_invariant (s : cpc_sketch) : Prop :=
  4 <= lg_k s <= 26
  /\ 0 <= num_coupons s <= 2 ^ 27
  /\ 0 <= window_offset s <= 56
  /\ offset_in_step (2 ^ lg_k s) (window_offset s) (num_coupons s)
  /\ (sliding_window s = [] -> window_offset s = 0 /\ 32 * num_coupons s < 3 * 2 ^ lg_k s).

(** ** Estimates *)

Section Estimators.

(** [compute_icon_estimate] (icon_estimator.hpp) and the confidence bounds
    (cpc_confidence.hpp) are not part of the sources; the query functions take
    them as they are. *)
Variable compute_icon_estimate : Z -> Z -> double.
Variables get_hip_confidence_lb get_hip_confidence_ub : cpc_sketch -> Z -> double.
Variables get_icon_confidence_lb get_icon_confidence_ub : cpc_sketch -> Z -> double.

(** [get_icon_estimate()] *)
Definition get_icon_estimate (s : cpc_sketch) : double :=
  compute_icon_estimate (lg_k s) (num_coupons s).

(** [get_estimate()] *)
Definition get_estimate (s : cpc_sketch) : double :=
  if negb (was_merged s) then get_hip_estimate s else get_icon_estimate s.

(** [get_lower_bound(unsigned kappa)] *)
Definition get_lower_bound (s : cpc_sketch) (kappa : Z) : result double :=
  if (kappa <? 1) || (kappa >? 3)
  then Throw (invalid_argument "kappa must be 1, 2 or 3")
  else if negb (was_merged s) then Ok (get_hip_confidence_lb s kappa)
  else Ok (get_icon_confidence_lb s kappa).

(** [get_upper_bound(unsigned kappa)] *)
Definition get_upper_bound (s : cpc_sketch) (kappa : Z) : result double :=
  if (kappa <? 1) || (kappa >? 3)
  then Throw (invalid_argument "kappa must be 1, 2 or 3")
  else if negb (was_merged s) then Ok (get_hip_confidence_ub s kappa)
  else Ok (get_icon_confidence_ub s kappa).

End Estimators.

(** ** Serialization to memory *)

Section HostedMemory.
Context {ext : Externals}.

(** [serialize(unsigned header_size_bytes)]: the bytes written behind the
    header (the header bytes themselves are allocated and left unwritten) and
    the size of the whole allocation.  The fields are copied in the order of
    the stream overload; copying past the allocation is undefined, and at the
    end the write position is compared with the size computed in advance. *)
Definition serialize_mem (s : cpc_sketch) (header_size_bytes : Z)
    : result (list Z * Z) :=
  compressed ← compress s empty_compressed;
  let has_hip := negb (was_merged s) in
  let has_table := bool_decide (table_data_ptr compressed ≠ None) in
  let has_window := bool_decide (window_data_ptr compressed ≠ None) in
  let preamble_ints := get_preamble_ints (num_coupons s) has_hip has_table has_window in
  let size :=
    u64 (header_size_bytes
         + u64 (u64 (u32 (u32 (preamble_ints + table_data_words compressed)
                          + window_data_words compressed))
                * 4)) in
  let flags_byte :=
    u8 (Z.lor (Z.lor (Z.lor (Z.shiftl 1 IS_COMPRESSED) (flag_bit HAS_HIP has_hip))
                 (flag_bit HAS_TABLE has_table))
          (flag_bit HAS_WINDOW has_window)) in
  let seed_hash := u16 (compute_seed_hash (seed s)) in
  let head :=
    le_bytes 1 preamble_ints ++ le_bytes 1 (u8 SERIAL_VERSION)
    ++ le_bytes 1 (u8 FAMILY) ++ le_bytes 1 (lg_k s)
    ++ le_bytes 1 (first_interesting_column s) ++ le_bytes 1 flags_byte
    ++ le_bytes 2 seed_hash in
  payload ←
    (if negb (is_empty s) then
       let both := has_table && has_window in
       window_bytes ←
         (if has_window
          then write_words (window_data_words compressed)
                 (default [] (window_data_ptr compressed))
          else Ok []);
       table_bytes ←
         (if has_table
          then write_words (table_data_words compressed)
                 (default [] (table_data_ptr compressed))
          else Ok []);
       Ok (head
           ++ le_bytes 4 (num_coupons s)
           ++ (if both then le_bytes 4 (table_num_entries compressed)
                            ++ (if has_hip then write_hip s else [])
               else [])
           ++ (if has_table then le_bytes 4 (table_data_words compressed) else [])
           ++ (if has_window then le_bytes 4 (window_data_words compressed) else [])
           ++ (if has_hip && negb both then write_hip s else [])
           ++ window_bytes ++ table_bytes)
     else Ok head);
  let written := header_size_bytes + Z.of_nat (length payload) in
  if written >? size then Undefined
  else if negb (written =? size)
  then Throw (logic_error "serialized size mismatch")
  else Ok (payload, size).

End HostedMemory.

(** ** Shapes of states and images *)

(** The window of a sketch is either absent, or has [k] bytes and belongs
    to a count at or above the promotion threshold. *)
Definition window_invariant (s : cpc_sketch) : Prop :=
  offset_invariant s
  /\ (sliding_window s <> [] ->
      length (sliding_window s) = Z.to_nat (2 ^ lg_k s)
      /\ 3 * 2 ^ lg_k s <= 32 * num_coupons s).

Section ImageShapes.
Context {ext : Externals}.

(** The flag positions of the class are four different bits of the byte. *)
Definition flags_distinct : Prop :=
  0 <= IS_COMPRESSED < 8 /\ 0 <= HAS_HIP < 8 /\ 0 <= HAS_TABLE < 8
  /\ 0 <= HAS_WINDOW < 8
  /\ IS_COMPRESSED <> HAS_HIP /\ IS_COMPRESSED <> HAS_TABLE
  /\ IS_COMPRESSED <> HAS_WINDOW /\ HAS_HIP <> HAS_TABLE
  /\ HAS_HIP <> HAS_WINDOW /\ HAS_TABLE <> HAS_WINDOW.

Definition flags_byte_of (has_hip has_table has_window : bool) : Z :=
  u8 (Z.lor (Z.lor (Z.lor (Z.shiftl 1 IS_COMPRESSED) (flag_bit HAS_HIP has_hip))
               (flag_bit HAS_TABLE has_table))
        (flag_bit HAS_WINDOW has_window)).

(** A buffer of the compressed state agrees with its word count. *)
Definition words_ok (ptr : option (list Z)) (n : Z) : Prop :=
  match ptr with
  | Some ws =>
      n = Z.of_nat (length ws) /\ n < 2 ^ 32
      /\ Forall (fun w => 0 <= w < 2 ^ 32) ws
  | None => True
  end.

Definition compressed_ok (c : compressed_state) : Prop :=
  words_ok (table_data_ptr c) (table_data_words c)
  /\ words_ok (window_data_ptr c) (window_data_words c)
  /\ 0 <= table_num_entries c < 2 ^ 32.

(** The compressed state as [deserialize] rebuilds it: counts of absent
    buffers are 0, and without a window the number of table entries is the
    number of coupons. *)
Definition reread_compressed (c : compressed_state) (num_coupons : Z)
    : compressed_state :=
  let has_table := bool_decide (table_data_ptr c ≠ None) in
  let has_window := bool_decide (window_data_ptr c ≠ None) in
  mk_compressed (table_data_ptr c)
    (if has_table then table_data_words c else 0)
    (if has_window then (if has_table then table_num_entries c else 0)
     else num_coupons)
    (window_data_ptr c)
    (if has_window then window_data_words c else 0).

(** The fields of a sketch fit their types. *)
Definition fields_in_range (s : cpc_sketch) : Prop :=
  0 <= lg_k s < 256 /\ 0 <= first_interesting_column s < 256
  /\ 0 <= num_coupons s < 2 ^ 32
  /\ 0 <= kxp s < 2 ^ 64 /\ 0 <= hip_est_accum s < 2 ^ 64.

Definition preamble_of (s : cpc_sketch) (c : compressed_state) : preamble :=
  let has_hip := negb (was_merged s) in
  let has_table := bool_decide (table_data_ptr c ≠ None) in
  let has_window := bool_decide (window_data_ptr c ≠ None) in
  mk_preamble
    (get_preamble_ints (num_coupons s) has_hip has_table has_window)
    (u8 SERIAL_VERSION) (u8 FAMILY) (lg_k s) (first_interesting_column s)
    (flags_byte_of has_hip has_table has_window)
    (u16 (compute_seed_hash (seed s)))
    (num_coupons s)
    (if has_hip then kxp s else pos_zero)
    (if has_hip then hip_est_accum s else pos_zero)
    (reread_compressed c (num_coupons s)).

(** The number of 32-bit data words behind the preamble of an image. *)
Definition data_words (s : cpc_sketch) (c : compressed_state) : Z :=
  if num_coupons s =? 0 then 0
  else (if bool_decide (window_data_ptr c ≠ None) then window_data_words c else 0)
       + (if bool_decide (table_data_ptr c ≠ None) then table_data_words c else 0).



End ImageShapes.

(** * Properties *)

(** ** The error monad *)

Lemma bind_Ok {A B} (m : result A) (f : A -> result B) (b : B) :
  m ≫= f = Ok b -> exists a, m = Ok a /\ f a = Ok b.
Proof. destruct m as [a | e |]; simpl; intros Hm; try discriminate. eauto. Qed.

Lemma Ok_inj {A} (a b : A) : Ok a = Ok b -> a = b.
Proof. intros Heq. by injection Heq. Qed.

Lemma fmap_Ok {A B} (g : A -> B) (m : result A) (b : B) :
  g <$> m = Ok b -> exists a, m = Ok a /\ b = g a.
Proof.
  destruct m as [a | e |]; simpl; intros Hm; try discriminate.
  injection Hm as <-. eauto.
Qed.

(** Splits a hypothesis [x ← m; k = Ok r] into [m = Ok x] and [k = Ok r]. *)
Ltac bind_inv_fresh H :=
  let a := fresh "a" in
  let Ha := fresh "Hbind" in
  apply bind_Ok in H; destruct H as (a & Ha & H).
Tactic Notation "bind_inv" hyp(H) := bind_inv_fresh H.
Tactic Notation "bind_inv" hyp(H) "as" simple_intropattern(a) ident(Ha) :=
  apply bind_Ok in H; destruct H as (a & Ha & H).

(** Reads the fields of a sketch built with the setters. *)
Ltac sketch_fields :=
  unfold set_hip, set_num_coupons, set_table, set_window, set_window_offset,
    set_first_interesting_column in *;
  cbn [lg_k seed was_merged num_coupons surprising_value_table sliding_window
       window_offset first_interesting_column kxp hip_est_accum] in *.

Lemma for_each_invariant {St X} (P : St -> Prop) (body : X -> St -> result St)
    (xs : list X) :
  (forall x a a', P a -> body x a = Ok a' -> P a') ->
  forall s s', P s -> for_each xs body s = Ok s' -> P s'.
Proof.
  intros Hbody. induction xs as [| x xs IH]; simpl; intros s s' Hs Hrun.
  - injection Hrun as <-. exact Hs.
  - bind_inv Hrun. eapply IH; [| exact Hrun]. eauto.
Qed.

Lemma for_loop_from_invariant {St} (P : St -> Prop) (body : Z -> St -> result St)
    (n : nat) :
  (forall i a a', P a -> body i a = Ok a' -> P a') ->
  forall i s s', P s -> for_loop_from i n body s = Ok s' -> P s'.
Proof.
  intros Hbody. induction n as [| n IH]; simpl; intros i s s' Hs Hrun.
  - injection Hrun as <-. exact Hs.
  - bind_inv Hrun. eapply IH; [| exact Hrun]. eauto.
Qed.

Lemma for_loop_invariant {St} (P : St -> Prop) (body : Z -> St -> result St)
    (n : Z) (s s' : St) :
  (forall i a a', P a -> body i a = Ok a' -> P a') ->
  P s -> for_loop n body s = Ok s' -> P s'.
Proof. intros Hbody Hs. unfold for_loop. by apply for_loop_from_invariant. Qed.

Lemma vec_set_length (v : list Z) (i x : Z) (v' : list Z) :
  vec_set v i x = Ok v' -> length v' = length v.
Proof.
  unfold vec_set. destruct (_ && _); intros Hset; [| discriminate].
  injection Hset as <-. apply length_insert.
Qed.

(** ** Fixed-width arithmetic *)

Lemma wrap_small (w x : Z) : 0 <= x < 2 ^ w -> wrap w x = x.
Proof. intros Hx. unfold wrap. by apply Z.mod_small. Qed.

Lemma u8_small (x : Z) : 0 <= x < 256 -> u8 x = x.
Proof. intros Hx. apply wrap_small. change (2 ^ 8) with 256. lia. Qed.

Lemma u32_small (x : Z) : 0 <= x < 2 ^ 32 -> u32 x = x.
Proof. apply wrap_small. Qed.

Lemma u64_small (x : Z) : 0 <= x < 2 ^ 64 -> u64 x = x.
Proof. apply wrap_small. Qed.

Lemma to_signed_small (w x : Z) :
  0 < w -> 0 <= x < 2 ^ (w - 1) -> to_signed w x = x.
Proof.
  intros Hw Hx. unfold to_signed.
  assert (2 ^ (w - 1) < 2 ^ w) by (apply Z.pow_lt_mono_r; lia).
  rewrite Z.mod_small by lia.
  destruct (Z.ltb_spec x (2 ^ (w - 1))); [done | lia].
Qed.

Lemma pow2_bounds (n m : Z) : 0 <= n <= m -> 0 < 2 ^ n <= 2 ^ m.
Proof.
  intros Hn. split; [apply Z.pow_pos_nonneg; lia |].
  apply Z.pow_le_mono_r; lia.
Qed.

Lemma shl_int_1 (n : Z) : 0 <= n <= 30 -> shl_int 1 n = Ok (2 ^ n).
Proof.
  intros Hn. unfold shl_int.
  pose proof (pow2_bounds n 30 Hn) as Hp.
  change (2 ^ 30) with 1073741824 in Hp.
  rewrite Z.mul_1_l.
  replace (0 <=? 1) with true by done.
  destruct (Z.leb_spec 0 n); [| lia].
  destruct (Z.ltb_spec n 32); [| lia].
  destruct (Z.ltb_spec (2 ^ n) (2 ^ 32)); [| change (2 ^ 32) with 4294967296 in *; lia].
  simpl. f_equal. apply to_signed_small; [lia |].
  change (2 ^ (32 - 1)) with 2147483648. lia.
Qed.

Lemma k_of_valid (lg_k : Z) : 0 <= lg_k <= 30 -> k_of lg_k = Ok (2 ^ lg_k).
Proof.
  intros Hn. unfold k_of. rewrite shl_int_1 by done. simpl. f_equal.
  pose proof (pow2_bounds lg_k 30 Hn) as Hp.
  change (2 ^ 30) with 1073741824 in Hp.
  apply u64_small. change (2 ^ 64) with 18446744073709551616. lia.
Qed.

Lemma lor_bound (a b n : Z) :
  0 <= n -> 0 <= a < 2 ^ n -> 0 <= b < 2 ^ n -> 0 <= Z.lor a b < 2 ^ n.
Proof.
  intros Hn Ha Hb. split; [apply Z.lor_nonneg; lia |].
  destruct (Z.eq_dec a 0) as [-> | Ha0]; [rewrite Z.lor_0_l; lia |].
  destruct (Z.eq_dec b 0) as [-> | Hb0]; [rewrite Z.lor_0_r; lia |].
  assert (0 <= Z.lor a b) by (apply Z.lor_nonneg; lia).
  destruct (Z.eq_dec (Z.lor a b) 0) as [-> | Hne]; [lia |].
  apply Z.log2_lt_pow2; [lia |].
  rewrite Z.log2_lor by lia.
  apply Z.max_lub_lt; apply Z.log2_lt_pow2; lia.
Qed.

Lemma lxor_bound (a b n : Z) :
  0 <= n -> 0 <= a < 2 ^ n -> 0 <= b < 2 ^ n -> 0 <= Z.lxor a b < 2 ^ n.
Proof.
  intros Hn Ha Hb.
  assert (0 <= Z.lxor a b) as Hnn by (apply Z.lxor_nonneg; lia).
  split; [done |].
  destruct (Z.eq_dec a 0) as [-> | Ha0]; [rewrite Z.lxor_0_l; lia |].
  destruct (Z.eq_dec b 0) as [-> | Hb0]; [rewrite Z.lxor_0_r; lia |].
  destruct (Z.eq_dec (Z.lxor a b) 0) as [-> | Hne]; [lia |].
  apply Z.log2_lt_pow2; [lia |].
  eapply Z.le_lt_trans; [apply Z.log2_lxor; lia |].
  apply Z.max_lub_lt; apply Z.log2_lt_pow2; lia.
Qed.

Lemma clz_range (x : Z) :
  0 <= x < 2 ^ 64 -> 0 <= count_leading_zeros_in_u64 x <= 64.
Proof.
  intros Hx. unfold count_leading_zeros_in_u64.
  destruct (Z.eqb_spec x 0); [lia |].
  assert (Z.log2 x < 64) by (apply Z.log2_lt_pow2; lia).
  pose proof (Z.log2_nonneg x). lia.
Qed.

(** ** Row/column derivation *)

(** C6.  For 64-bit hashes [h0], [h1] and [lg_k] in [4, 26],
    [row_col_from_two_hashes h0 h1 lg_k] returns [(row << 6) | col] with
    [col = min (clz64 h1) 63] and [row = h0 mod 2^lg_k], except that the value
    [0xFFFFFFFF] is returned with bit 6 toggled; the sentinel [0xFFFFFFFF] is
    never returned. *)
Theorem row_col_from_two_hashes_spec (h0 h1 lg_k : Z) :
  0 <= h0 < 2 ^ 64 -> 0 <= h1 < 2 ^ 64 -> 4 <= lg_k <= 26 ->
  let col := Z.min (count_leading_zeros_in_u64 h1) 63 in
  let row := h0 mod 2 ^ lg_k in
  let code := Z.lor (Z.shiftl row 6) col in
  exists row_col,
    row_col_from_two_hashes h0 h1 lg_k = Ok row_col
    /\ row_col = (if code =? 0xFFFFFFFF then Z.lxor code (Z.shiftl 1 6) else code)
    /\ row_col <> 0xFFFFFFFF.
Proof.
  intros Hh0 Hh1 Hlg col row code.
  unfold row_col_from_two_hashes.
  destruct (Z.gtb_spec lg_k 26) as [| _]; [lia |].
  rewrite k_of_valid by lia. simpl.
  pose proof (pow2_bounds lg_k 26 ltac:(lia)) as Hk.
  change (2 ^ 26) with 67108864 in Hk.
  pose proof (clz_range h1 Hh1) as Hclz.
  rewrite (u8_small (count_leading_zeros_in_u64 h1)) by lia.
  assert ((if count_leading_zeros_in_u64 h1 >? 63 then 63
           else count_leading_zeros_in_u64 h1) = col) as ->.
  { subst col. destruct (Z.gtb_spec (count_leading_zeros_in_u64 h1) 63); lia. }
  assert (0 <= col < 64) as Hcol by (subst col; lia).
  rewrite (u64_small (2 ^ lg_k - 1))
    by (change (2 ^ 64) with 18446744073709551616; lia).
  replace (2 ^ lg_k - 1) with (Z.ones lg_k) by (rewrite Z.ones_equiv; lia).
  rewrite Z.land_ones by lia. fold row.
  assert (0 <= row < 2 ^ lg_k) as Hrow by (subst row; apply Z.mod_pos_bound; lia).
  rewrite (u32_small row) by (change (2 ^ 32) with 4294967296; lia).
  assert (0 <= Z.shiftl row 6 < 2 ^ 32) as Hsh.
  { rewrite Z.shiftl_mul_pow2 by lia. change (2 ^ 6) with 64.
    change (2 ^ 32) with 4294967296. lia. }
  rewrite (u32_small (Z.shiftl row 6)) by done.
  assert (0 <= code < 2 ^ 32) as Hcode.
  { subst code. apply lor_bound; [lia | done |].
    change (2 ^ 32) with 4294967296. lia. }
  fold code. rewrite (u32_small code) by done.
  change UINT32_MAX with 4294967295.
  eexists. split; [reflexivity |].
  destruct (Z.eqb_spec code 4294967295) as [-> | Hne].
  - split; by vm_compute.
  - split; [reflexivity | done].
Qed.

Lemma row_col_from_two_hashes_spec_witness :
  exists row_col,
    row_col_from_two_hashes (2 ^ 26 - 1) 0 26 = Ok row_col
    /\ row_col = 0xFFFFFFBF /\ row_col <> 0xFFFFFFFF.
Proof.
  destruct (row_col_from_two_hashes_spec (2 ^ 26 - 1) 0 26)
    as (rc & Hrun & Hval & Hne); [by vm_compute; split .. |].
  exists rc. split; [exact Hrun |]. split; [| exact Hne].
  rewrite Hval. by vm_compute.
Defined.

(** For [lg_k <= 26] the coupon code is always computed. *)
Lemma row_col_from_two_hashes_Ok (h0 h1 lg_k : Z) :
  0 <= lg_k <= 26 -> exists row_col, row_col_from_two_hashes h0 h1 lg_k = Ok row_col.
Proof.
  intros Hlg. unfold row_col_from_two_hashes.
  destruct (Z.gtb_spec lg_k 26) as [| _]; [lia |].
  rewrite k_of_valid by lia. cbn [mbind result_bind bind]. eauto.
Qed.

(** ** Flavor *)

Lemma shiftl_u64 (c n : Z) :
  0 <= n -> 0 <= c -> c * 2 ^ n < 2 ^ 64 -> u64 (Z.shiftl c n) = c * 2 ^ n.
Proof.
  intros Hn Hc Hlt. rewrite Z.shiftl_mul_pow2 by done.
  apply u64_small. split; [| done].
  apply Z.mul_nonneg_nonneg; [done | apply Z.pow_nonneg; lia].
Qed.

(** C4.  For [lg_k] in [4, 26], [K = 2^lg_k] and a coupon count [C] (any
    count below [2^59], which covers every 32-bit count), [determine_flavor]
    returns EMPTY iff [C = 0], SPARSE iff [0 < C < 3K/32], HYBRID iff
    [3K/32 <= C < K/2], PINNED iff [K/2 <= C < 27K/8] and SLIDING iff
    [27K/8 <= C]; the bounds are the rational numbers the table writes. *)
Theorem determine_flavor_spec (lg_k C : Z) :
  4 <= lg_k <= 26 -> 0 <= C < 2 ^ 59 ->
  let K := inject_Z (2 ^ lg_k) in
  let c := inject_Z C in
  exists f,
    determine_flavor lg_k C = Ok f
    /\ (f = EMPTY <-> C = 0)
    /\ (f = SPARSE <-> (0 < c /\ c < 3 * K / 32)%Q)
    /\ (f = HYBRID <-> (3 * K / 32 <= c /\ c < K / 2)%Q)
    /\ (f = PINNED <-> (K / 2 <= c /\ c < 27 * K / 8)%Q)
    /\ (f = SLIDING <-> (27 * K / 8 <= c)%Q).
Proof.
  intros Hlg HC. unfold determine_flavor.
  rewrite k_of_valid by lia.
  pose proof (pow2_bounds lg_k 26 ltac:(lia)) as Hk.
  pose proof (pow2_bounds 4 lg_k ltac:(lia)) as Hk4.
  change (2 ^ 26) with 67108864 in Hk. change (2 ^ 4) with 16 in Hk4.
  change (2 ^ 59) with 576460752303423488 in HC.
  cbn [mbind result_bind bind].
  rewrite !shiftl_u64
    by (try change (2 ^ 64) with 18446744073709551616;
        try change (2 ^ 1) with 2; try change (2 ^ 3) with 8;
        try change (2 ^ 5) with 32; lia).
  change (2 ^ 1) with 2. change (2 ^ 3) with 8. change (2 ^ 5) with 32.
  rewrite !u64_small by (change (2 ^ 64) with 18446744073709551616; lia).
  generalize dependent (2 ^ lg_k). intros k Hk Hk4.
  set (K := inject_Z k). set (c := inject_Z C).
  assert ((0 < c)%Q <-> 0 < C) as H0
    by (subst c; unfold Qlt; simpl; lia).
  assert ((c < 3 * K / 32)%Q <-> C * 32 < 3 * k) as H1
    by (subst c K; unfold Qlt; simpl; lia).
  assert ((3 * K / 32 <= c)%Q <-> 3 * k <= C * 32) as H2
    by (subst c K; unfold Qle; simpl; lia).
  assert ((c < K / 2)%Q <-> C * 2 < k) as H3
    by (subst c K; unfold Qlt; simpl; lia).
  assert ((K / 2 <= c)%Q <-> k <= C * 2) as H4
    by (subst c K; unfold Qle; simpl; lia).
  assert ((c < 27 * K / 8)%Q <-> C * 8 < 27 * k) as H5
    by (subst c K; unfold Qlt; simpl; lia).
  assert ((27 * K / 8 <= c)%Q <-> 27 * k <= C * 8) as H6
    by (subst c K; unfold Qle; simpl; lia).
  destruct (Z.eqb_spec C 0);
    [| destruct (Z.ltb_spec (C * 32) (3 * k));
       [| destruct (Z.ltb_spec (C * 2) k);
          [| destruct (Z.ltb_spec (C * 8) (27 * k))]]];
    eexists; (split; [reflexivity |]);
    rewrite H0, H1, H2, H3, H4, H5, H6;
    repeat split; intros; try discriminate; try lia.
Qed.

Lemma determine_flavor_spec_witness :
  exists f,
    determine_flavor 4 54 = Ok f
    /\ (f = EMPTY <-> 54 = 0)
    /\ (f = SPARSE <-> (0 < inject_Z 54 /\ inject_Z 54 < 3 * inject_Z (2 ^ 4) / 32)%Q)
    /\ (f = HYBRID <->
        (3 * inject_Z (2 ^ 4) / 32 <= inject_Z 54 /\ inject_Z 54 < inject_Z (2 ^ 4) / 2)%Q)
    /\ (f = PINNED <->
        (inject_Z (2 ^ 4) / 2 <= inject_Z 54 /\ inject_Z 54 < 27 * inject_Z (2 ^ 4) / 8)%Q)
    /\ (f = SLIDING <-> (27 * inject_Z (2 ^ 4) / 8 <= inject_Z 54)%Q).
Proof. apply (determine_flavor_spec 4 54); by vm_compute. Defined.

(** ** Preamble size *)

(** C3 (as stated, refuted).  A windowed sketch that still holds surprising
    values is serialized with HAS_HIP, HAS_TABLE and HAS_WINDOW, and
    [get_preamble_ints] then answers 10, which is not one of 2, 3, 4, 5, 7, 8.
    The sketch below has [lg_k = 4] and eight coupons in column 9. *)
Lemma get_preamble_ints_ten :
  let updates := [9; 73; 137; 201; 265; 329; 393; 457] in
  exists s bytes,
    foldl (fun r row_col => r ≫= fun s => row_col_update s row_col)
      (cpc_sketch_alloc 4 0) updates = Ok s
    /\ serialize (ext := Reference.externals) s = Ok bytes
    /\ head bytes = Some (get_preamble_ints (num_coupons s) true true true)
    /\ ~ In (get_preamble_ints (num_coupons s) true true true) [2; 3; 4; 5; 7; 8].
Proof.
  eexists. eexists. split; [by vm_compute |]. split; [by vm_compute |].
  split; [by vm_compute |]. vm_compute. intuition discriminate.
Qed.

(** C3 (amended).  [get_preamble_ints] returns 2 when there are no coupons;
    otherwise it returns 3, plus 4 with HAS_HIP, plus 1 with HAS_TABLE and 1
    more when HAS_WINDOW is set as well, plus 1 with HAS_WINDOW.  The value is
    always one of 2, 3, 4, 6, 7, 8, 10. *)
Theorem get_preamble_ints_table (C : Z) (has_hip has_table has_window : bool) :
  get_preamble_ints C has_hip has_table has_window
  = (if C >? 0 then
       2 + 1 + (if has_hip then 4 else 0)
       + (if has_table then 1 + (if has_window then 1 else 0) else 0)
       + (if has_window then 1 else 0)
     else 2)
  /\ In (get_preamble_ints C has_hip has_table has_window) [2; 3; 4; 6; 7; 8; 10].
Proof.
  unfold get_preamble_ints.
  destruct (C >? 0), has_hip, has_table, has_window; vm_compute; intuition.
Qed.

(** ** Byte images of integers *)

Lemma le_decode_le_bytes (n : nat) (x : Z) :
  le_decode (le_bytes n x) = x mod 256 ^ Z.of_nat n.
Proof.
  revert x. induction n as [| n IH]; intros x.
  - simpl. by rewrite Z.mod_1_r.
  - cbn [le_bytes le_decode]. rewrite IH.
    rewrite Nat2Z.inj_succ, Z.pow_succ_r by lia.
    assert (0 < 256 ^ Z.of_nat n) by (apply Z.pow_pos_nonneg; lia).
    rewrite (Z.rem_mul_r x 256 (256 ^ Z.of_nat n)) by lia. lia.
Qed.

Lemma le_bytes_length (n : nat) (x : Z) : length (le_bytes n x) = n.
Proof. revert x. induction n as [| n IH]; intros x; simpl; [done | by rewrite IH]. Qed.

Lemma le_bytes_inj (n : nat) (x y : Z) :
  0 <= x < 256 ^ Z.of_nat n -> 0 <= y < 256 ^ Z.of_nat n ->
  le_bytes n x = le_bytes n y -> x = y.
Proof.
  intros Hx Hy Heq. apply (f_equal le_decode) in Heq.
  rewrite !le_decode_le_bytes, !Z.mod_small in Heq; done.
Qed.

(** ** The [update] overloads *)

Section Overloads.
Context {ext : Externals}.

(** C9.  Every fixed-width integer overload ends in [update(int64_t)] of the
    sign-extended value, that is, it hashes the eight bytes of
    [(int64_t)(intN_t)v]; a [uint32_t] value of [2^31] or more therefore
    feeds the hash other bytes than the same number passed as [uint64_t]. *)
Theorem integer_updates_sign_extend (s : cpc_sketch) (v : Z) :
  0 <= v < 2 ^ 32 ->
  update_u32 s v = update_i64 s (to_signed 32 v)
  /\ update_u32 s v = update_bytes s (le_bytes 8 (u64 (to_signed 32 v)))
  /\ update_i32 s (to_signed 32 v) = update_i64 s (to_signed 32 v)
  /\ update_u16 s (u16 v) = update_i64 s (to_signed 16 v)
  /\ update_i16 s (to_signed 16 v) = update_i64 s (to_signed 16 v)
  /\ update_u8 s (u8 v) = update_i64 s (to_signed 8 v)
  /\ update_i8 s (to_signed 8 v) = update_i64 s (to_signed 8 v)
  /\ (2 ^ 31 <= v ->
      to_signed 32 v = v - 2 ^ 32
      /\ le_bytes 8 (u64 (to_signed 32 v)) <> le_bytes 8 v
      /\ update_u64 s v = update_bytes s (le_bytes 8 v)).
Proof.
  intros Hv. change (2 ^ 32) with 4294967296 in Hv.
  assert (forall w x, to_signed w (wrap w x) = to_signed w x) as Hidem.
  { intros w x. unfold to_signed, wrap.
    destruct (Z.eq_dec (2 ^ w) 0) as [-> | Hw]; [by rewrite !Z.mod_0_r |].
    by rewrite Z.mod_mod. }
  repeat split; try reflexivity.
  - unfold update_u16. by rewrite (Hidem 16).
  - unfold update_u8. by rewrite (Hidem 8).
  - unfold to_signed. rewrite Z.mod_small by (change (2 ^ 32) with 4294967296; lia).
    change (2 ^ (32 - 1)) with 2147483648.
    change (2 ^ 31) with 2147483648 in *. destruct (Z.ltb_spec v 2147483648); lia.
  - intros Heq. change (2 ^ 31) with 2147483648 in *.
    assert (to_signed 32 v = v - 4294967296) as Hs.
    { unfold to_signed. rewrite Z.mod_small by (change (2 ^ 32) with 4294967296; lia).
      change (2 ^ (32 - 1)) with 2147483648. change (2 ^ 32) with 4294967296.
      destruct (Z.ltb_spec v 2147483648); lia. }
    rewrite Hs in Heq.
    assert (u64 (v - 4294967296) = v - 4294967296 + 18446744073709551616) as Hu.
    { unfold u64, wrap. change (2 ^ 64) with 18446744073709551616.
      symmetry. apply Z.mod_unique with (q := -1); lia. }
    rewrite Hu in Heq. apply le_bytes_inj in Heq;
      change (256 ^ Z.of_nat 8) with 18446744073709551616; lia.
Qed.

(** C10.  [update(double)] canonicalizes before hashing: [-0.0] is hashed as
    [0.0], every NaN as the bit pattern [0x7ff8000000000000], and
    [update(float x)] is [update(static_cast<double>(x))]. *)
Theorem update_double_canonical (s : cpc_sketch) (nan : double) (x : Z) :
  isnan nan = true ->
  update_double s neg_zero = update_double s pos_zero
  /\ update_double s pos_zero = update_u64 s 0
  /\ update_double s nan = update_u64 s 0x7ff8000000000000
  /\ update_double s nan = update_double s 0x7ff8000000000000
  /\ update_float s x = update_double s (double_of_float x).
Proof.
  intros Hnan. repeat split; try reflexivity.
  - unfold update_double, update_u64, isnan, double_eq_zero in *.
    destruct (b64_of_bits nan); try discriminate. reflexivity.
  - unfold update_double, update_u64, isnan, double_eq_zero in *.
    destruct (b64_of_bits nan); try discriminate. reflexivity.
Qed.

(** C8 (the two byte-buffer paths).  [update(const std::string&)] returns at
    once on the empty string; [update(const void*, int)] has no such test:
    with size 0 it hashes zero bytes and, on a new sketch, collects a coupon. *)
Theorem update_empty_buffer (lgk sd : Z) :
  4 <= lgk <= 26 ->
  exists s s',
    cpc_sketch_alloc lgk sd = Ok s
    /\ update_string s [] = Ok s
    /\ update_bytes s [] = Ok s'
    /\ num_coupons s = 0 /\ num_coupons s' = 1
    /\ surprising_value_table s = []
    /\ length (surprising_value_table s') = 1%nat.
Proof.
  intros Hlg.
  set (s0 := mk_sketch lgk sd false 0 [] [] 0 0 (double_of_Z (2 ^ lgk)) pos_zero).
  assert (cpc_sketch_alloc lgk sd = Ok s0) as Hnew.
  { unfold cpc_sketch_alloc. rewrite shl_int_1 by lia.
    cbn [mbind result_bind bind]. unfold CPC_MIN_LG_K, CPC_MAX_LG_K.
    destruct (Z.ltb_spec lgk 4); [lia |].
    destruct (Z.gtb_spec lgk 26); [lia |]. reflexivity. }
  pose proof (pow2_bounds lgk 26 ltac:(lia)) as Hk.
  pose proof (pow2_bounds 4 lgk ltac:(lia)) as Hk4.
  change (2 ^ 26) with 67108864 in Hk. change (2 ^ 4) with 16 in Hk4.
  assert (exists s', update_bytes s0 [] = Ok s' /\ num_coupons s' = 1
                     /\ length (surprising_value_table s') = 1%nat)
    as (s' & Hup & HC & Hlen).
  { unfold update_bytes, s0. cbn [seed lg_k].
    set (h0 := u64 _). set (h1 := u64 _).
    destruct (row_col_from_two_hashes_Ok h0 h1 lgk) as (rc & ->); [lia |].
    cbn [mbind result_bind bind].
    unfold row_col_update.
    cbn [first_interesting_column sliding_window length].
    assert (0 <= u8 (Z.land rc 63)) as Hcol by (apply Z.mod_pos_bound; lia).
    destruct (Z.ltb_spec (u8 (Z.land rc 63)) 0); [lia |].
    change (Z.of_nat 0 =? 0) with true. cbv iota.
    unfold update_sparse. cbn [lg_k num_coupons surprising_value_table].
    rewrite k_of_valid by lia. cbn [mbind result_bind bind].
    rewrite (u64_small (3 * 2 ^ lgk))
      by (change (2 ^ 64) with 18446744073709551616; lia).
    change (u32 (Z.shiftl 0 5)) with 0.
    destruct (Z.geb_spec 0 (3 * 2 ^ lgk)); [lia |].
    unfold maybe_insert. rewrite bool_decide_eq_false_2 by apply not_elem_of_nil.
    unfold update_hip, set_table, set_num_coupons, set_hip.
    cbn [app lg_k seed was_merged num_coupons surprising_value_table
         sliding_window window_offset first_interesting_column kxp hip_est_accum].
    rewrite k_of_valid by lia.
    cbn [mbind result_bind bind lg_k seed was_merged num_coupons
         surprising_value_table sliding_window window_offset
         first_interesting_column kxp hip_est_accum].
    change (u32 (0 + 1)) with 1. change (u32 (Z.shiftl 1 5)) with 32.
    destruct (Z.geb_spec 32 (3 * 2 ^ lgk)); [lia |].
    eexists. split; [reflexivity |]. done. }
  exists s0, s'. repeat split; done.
Qed.

End Overloads.

Import Reference.

Lemma integer_updates_sign_extend_witness :
  let s := mk_sketch 4 0 false 0 [] [] 0 0 (double_of_Z 16) pos_zero in
  let v := 0xFFFFFFFF in
  0 <= v < 2 ^ 32
  /\ update_u32 s v = update_i64 s (to_signed 32 v)
  /\ update_u32 s v = update_bytes s (le_bytes 8 (u64 (to_signed 32 v))).
Proof.
  intros s v.
  assert (0 <= v < 2 ^ 32) as Hv by (by vm_compute).
  split; [exact Hv |].
  split; [exact (proj1 (integer_updates_sign_extend s v Hv)) |].
  exact (proj1 (proj2 (integer_updates_sign_extend s v Hv))).
Defined.

Lemma update_double_canonical_witness :
  let s := mk_sketch 4 0 false 0 [] [] 0 0 (double_of_Z 16) pos_zero in
  let nan := 0xfff0000000000001 in
  let x := 0x7fc00000 in
  isnan nan = true
  /\ (update_double s neg_zero = update_double s pos_zero
      /\ update_double s pos_zero = update_u64 s 0
      /\ update_double s nan = update_u64 s 0x7ff8000000000000
      /\ update_double s nan = update_double s 0x7ff8000000000000
      /\ update_float s x = update_double s (double_of_float x)).
Proof.
  intros s nan x.
  assert (isnan nan = true) as Hnan by (by vm_compute).
  split; [exact Hnan |].
  exact (update_double_canonical s nan x Hnan).
Defined.

Lemma update_empty_buffer_witness :
  exists s s',
    cpc_sketch_alloc 4 9001 = Ok s
    /\ update_string s [] = Ok s
    /\ update_bytes s [] = Ok s'
    /\ num_coupons s = 0 /\ num_coupons s' = 1
    /\ surprising_value_table s = []
    /\ length (surprising_value_table s') = 1%nat.
Proof. apply (update_empty_buffer 4 9001). lia. Defined.
(** ** The window offset *)

Lemma sub_i64_ok (a b : Z) :
  - 2 ^ 63 <= a - b < 2 ^ 63 -> sub_i64 a b = Ok (a - b).
Proof.
  intros Hr. unfold sub_i64.
  destruct (Z.leb_spec (- 2 ^ 63) (a - b)); [| lia].
  destruct (Z.ltb_spec (a - b) (2 ^ 63)); [done | lia].
Qed.

Lemma sub_int_ok (a b : Z) :
  - 2 ^ 31 <= a - b < 2 ^ 31 -> sub_int a b = Ok (a - b).
Proof.
  intros Hr. unfold sub_int.
  destruct (Z.leb_spec (- 2 ^ 31) (a - b)); [| lia].
  destruct (Z.ltb_spec (a - b) (2 ^ 31)); [done | lia].
Qed.

Lemma determine_correct_offset_in_step (lgk w c : Z) :
  4 <= lgk <= 26 -> 0 <= c <= 2 ^ 27 -> 0 <= w <= 56 ->
  offset_in_step (2 ^ lgk) w c ->
  determine_correct_offset lgk c = Ok w.
Proof.
  intros Hlg Hc Hw Hstep. unfold determine_correct_offset.
  rewrite k_of_valid by lia. cbn [mbind result_bind bind].
  pose proof (pow2_bounds lgk 26 ltac:(lia)) as Hk.
  pose proof (pow2_bounds 4 lgk ltac:(lia)) as Hk4.
  change (2 ^ 26) with 67108864 in Hk. change (2 ^ 4) with 16 in Hk4.
  change (2 ^ 27) with 134217728 in Hc.
  rewrite shiftl_u64
    by (try change (2 ^ 64) with 18446744073709551616;
        try change (2 ^ 3) with 8; lia).
  change (2 ^ 3) with 8.
  rewrite (u64_small (19 * 2 ^ lgk))
    by (change (2 ^ 64) with 18446744073709551616; lia).
  rewrite !to_signed_small
    by (try change (2 ^ (64 - 1)) with 9223372036854775808; lia).
  rewrite sub_i64_ok by (change (2 ^ 63) with 9223372036854775808; lia).
  cbn [mbind result_bind bind].
  unfold offset_in_step in Hstep.
  destruct (Z.ltb_spec (c * 8 - 19 * 2 ^ lgk) 0) as [Hneg | Hpos].
  - f_equal. destruct Hstep as [[-> _] | [Hw1 Hrange]]; [done | nia].
  - destruct (Z.ltb_spec (lgk + 3) 64); [| lia].
    f_equal. rewrite Z.shiftr_div_pow2 by lia.
    rewrite Z.pow_add_r by lia. change (2 ^ 3) with 8.
    assert ((c * 8 - 19 * 2 ^ lgk) / (2 ^ lgk * 8) = w) as ->.
    { symmetry. apply Z.div_unique with (r := c * 8 - 19 * 2 ^ lgk - w * (2 ^ lgk * 8)).
      - left. destruct Hstep as [[-> ?] | [? ?]]; nia.
      - lia. }
    apply u8_small. lia.
Qed.

(** What the private helpers leave unchanged. *)

Lemma update_hip_frame (s s' : cpc_sketch) (row_col : Z) :
  update_hip s row_col = Ok s' -> exists x h, s' = set_hip s x h.
Proof.
  unfold update_hip. intros Hrun. bind_inv Hrun.
  injection Hrun as <-. eauto.
Qed.

Lemma refresh_kxp_frame (s s' : cpc_sketch) (bit_matrix : list Z) :
  refresh_kxp s bit_matrix = Ok s' -> exists x h, s' = set_hip s x h.
Proof.
  unfold refresh_kxp. intros Hrun. do 2 bind_inv Hrun.
  apply Ok_inj in Hrun. rewrite <- Hrun. eexists _, _. reflexivity.
Qed.

Lemma vec_resize_length (v : list Z) (n x : Z) :
  length (vec_resize v n x) = Z.to_nat n.
Proof.
  unfold vec_resize. rewrite length_app, length_take, length_replicate. lia.
Qed.

Lemma promote_sparse_to_windowed_frame (s s' : cpc_sketch) :
  0 <= lg_k s <= 30 ->
  promote_sparse_to_windowed s = Ok s' ->
  exists w t,
    s' = set_table (set_window s w) t /\ length w = Z.to_nat (2 ^ lg_k s).
Proof.
  intros Hlg. unfold promote_sparse_to_windowed.
  rewrite k_of_valid by done. cbn [mbind result_bind bind].
  intros Hrun.
  destruct (negb _); [discriminate |].
  destruct (negb _); [discriminate |].
  bind_inv Hrun. destruct a as [w t]. injection Hrun as <-.
  exists w, t. split; [done |].
  revert Hbind.
  apply (for_each_invariant
           (fun st : list Z * list Z => length st.1 = Z.to_nat (2 ^ lg_k s))).
  - intros rc [w0 t0] [w1 t1] Hlen Hbody. cbn [fst] in *.
    destruct (rc =? UINT32_MAX); [by injection Hbody as <- <- |].
    destruct (_ <? 8).
    + do 3 bind_inv Hbody. injection Hbody as <- <-.
      apply vec_set_length in Hbind1. lia.
    + destruct (maybe_insert t0 rc) as [t2 novel].
      destruct (negb novel); [discriminate |]. by injection Hbody as <- <-.
  - cbn [fst]. apply vec_resize_length.
Qed.

Lemma move_window_frame (s s' : cpc_sketch) :
  move_window s = Ok s' ->
  lg_k s' = lg_k s /\ num_coupons s' = num_coupons s
  /\ window_offset s' = u8 (window_offset s + 1)
  /\ window_offset s' <= 56
  /\ length (sliding_window s') = length (sliding_window s)
  /\ sliding_window s <> [].
Proof.
  unfold move_window. intros Hrun.
  destruct (Z.gtb_spec (u8 (window_offset s + 1)) 56) as [| Hle]; [discriminate |].
  bind_inv Hrun as correct Hcorrect. destruct (negb _); [discriminate |].
  destruct (Z.eqb_spec (Z.of_nat (length (sliding_window s))) 0) as [| Hlen];
    [discriminate |].
  bind_inv Hrun as k Hk. bind_inv Hrun as bit_matrix Hmatrix.
  bind_inv Hrun as s1 Hs1.
  assert (exists x h, s1 = set_hip s x h) as (x & h & ->).
  { destruct (_ =? 0); [by eapply refresh_kxp_frame |].
    apply Ok_inj in Hs1 as <-. exists (kxp s), (hip_est_accum s). by destruct s. }
  bind_inv Hrun as ff Hff. bind_inv Hrun as one Hone. bind_inv Hrun as ones Hones.
  bind_inv Hrun as [[w t] ored] Hloop. apply Ok_inj in Hrun as <-.
  cbn [lg_k num_coupons window_offset sliding_window set_hip
       set_first_interesting_column set_window_offset set_table set_window].
  repeat split; try done.
  - revert Hloop.
    apply (for_loop_invariant
             (fun st : list Z * list Z * Z =>
                length st.1.1 = length (sliding_window s))); [| done].
    intros i [[w0 t0] o0] [[w1 t1] o1] Hl Hbody. cbn [fst] in *.
    bind_inv Hbody as pattern Hpattern. bind_inv Hbody as w' Hset.
    bind_inv Hbody as t' Hins. apply Ok_inj in Hbody.
    injection Hbody as <- <- <-.
    apply vec_set_length in Hset. lia.
  - intros Hnil. rewrite Hnil in Hlen. done.
Qed.

Lemma cpc_sketch_alloc_invariant (lgk sd : Z) (s : cpc_sketch) :
  cpc_sketch_alloc lgk sd = Ok s -> offset_invariant s.
Proof.
  unfold cpc_sketch_alloc, CPC_MIN_LG_K, CPC_MAX_LG_K. intros Hrun.
  bind_inv Hrun.
  destruct (Z.ltb_spec lgk 4); [discriminate |].
  destruct (Z.gtb_spec lgk 26); [discriminate |].
  injection Hrun as <-. unfold offset_invariant, offset_in_step. cbn.
  pose proof (pow2_bounds 4 lgk ltac:(lia)) as Hk4. change (2 ^ 4) with 16 in Hk4.
  repeat split; lia.
Qed.

Lemma offset_invariant_intro (s : cpc_sketch) :
  4 <= lg_k s <= 26 ->
  0 <= num_coupons s <= 2 ^ 27 ->
  0 <= window_offset s <= 56 ->
  offset_in_step (2 ^ lg_k s) (window_offset s) (num_coupons s) ->
  (sliding_window s = [] ->
   window_offset s = 0 /\ 32 * num_coupons s < 3 * 2 ^ lg_k s) ->
  offset_invariant s.
Proof. unfold offset_invariant. tauto. Qed.

Lemma update_sparse_invariant (s s' : cpc_sketch) (row_col : Z) :
  offset_invariant s -> sliding_window s = [] ->
  update_sparse s row_col = Ok s' -> offset_invariant s'.
Proof.
  intros (Hlg & Hc & Hw & Hstep & Hsparse) Hnil.
  destruct (Hsparse Hnil) as [Hw0 Hc32].
  pose proof (pow2_bounds (lg_k s) 26 ltac:(lia)) as Hk.
  pose proof (pow2_bounds 4 (lg_k s) ltac:(lia)) as Hk4.
  change (2 ^ 26) with 67108864 in Hk. change (2 ^ 4) with 16 in Hk4.
  change (2 ^ 27) with 134217728 in Hc.
  unfold update_sparse. rewrite k_of_valid by lia.
  cbn [mbind result_bind bind].
  rewrite (u64_small (3 * 2 ^ lg_k s))
    by (change (2 ^ 64) with 18446744073709551616; lia).
  intros Hrun. destruct (_ >=? _); [discriminate |].
  destruct (maybe_insert _ _) as [t novel]. destruct novel.
  - bind_inv Hrun as s1 Hhip. apply update_hip_frame in Hhip as (x & h & ->).
    sketch_fields.
    rewrite (u32_small (num_coupons s + 1)) in Hrun
      by (change (2 ^ 32) with 4294967296; lia).
    rewrite Z.shiftl_mul_pow2 in Hrun by lia. change (2 ^ 5) with 32 in Hrun.
    rewrite u32_small in Hrun by (change (2 ^ 32) with 4294967296; lia).
    destruct (Z.geb_spec ((num_coupons s + 1) * 32) (3 * 2 ^ lg_k s)) as [Hge | Hlt].
    + apply promote_sparse_to_windowed_frame in Hrun as (w & t' & -> & Hlen);
        [| sketch_fields; lia].
      sketch_fields.
      assert (w <> []) as Hw_ne by (intros ->; cbn [length] in Hlen; lia).
      apply offset_invariant_intro; sketch_fields;
        [lia | change (2 ^ 27) with 134217728; lia | lia
         | left; lia | done].
    + apply Ok_inj in Hrun as <-.
      apply offset_invariant_intro; sketch_fields;
        [lia | change (2 ^ 27) with 134217728; lia | lia
         | left; lia | intros _; lia].
  - apply Ok_inj in Hrun as <-.
    apply offset_invariant_intro; sketch_fields;
      [lia | change (2 ^ 27) with 134217728; lia | lia | done | done].
Qed.

Lemma shl_int_small (a n : Z) (r : Z) :
  0 <= a -> 0 <= n -> a * 2 ^ n < 2 ^ 31 -> shl_int a n = Ok r -> r = a * 2 ^ n.
Proof.
  intros Ha Hn Hlt. unfold shl_int.
  destruct (_ && _); [| discriminate]. intros Heq. apply Ok_inj in Heq as <-.
  apply to_signed_small; [lia |]. change (32 - 1) with 31.
  split; [| done]. apply Z.mul_nonneg_nonneg; [done | apply Z.pow_nonneg; lia].
Qed.

Lemma update_windowed_invariant (s s' : cpc_sketch) (row_col : Z) :
  offset_invariant s -> sliding_window s <> [] ->
  update_windowed s row_col = Ok s' -> offset_invariant s'.
Proof.
  intros (Hlg & Hc & Hw & Hstep & Hsparse) Hwin.
  pose proof (pow2_bounds (lg_k s) 26 ltac:(lia)) as Hk.
  pose proof (pow2_bounds 4 (lg_k s) ltac:(lia)) as Hk4.
  change (2 ^ 26) with 67108864 in Hk. change (2 ^ 4) with 16 in Hk4.
  change (2 ^ 27) with 134217728 in Hc.
  unfold update_windowed. intros Hrun.
  destruct (window_offset s >? 56); [discriminate |].
  rewrite k_of_valid in Hrun by lia. cbn [mbind result_bind bind] in Hrun.
  rewrite (u64_small (3 * 2 ^ lg_k s)) in Hrun
    by (change (2 ^ 64) with 18446744073709551616; lia).
  destruct (Z.ltb_spec (u32 (Z.shiftl (num_coupons s) 5)) (3 * 2 ^ lg_k s))
    as [| Hc32]; [discriminate |].
  assert (num_coupons s < 134217728) as Hclt.
  { destruct (Z.eq_dec (num_coupons s) 134217728) as [Heq | ]; [| lia].
    rewrite Heq in Hc32.
    change (u32 (Z.shiftl 134217728 5)) with 0 in Hc32. lia. }
  bind_inv Hrun as w8pre Hw8.
  apply shl_int_small in Hw8;
    [| lia | lia | change (2 ^ 3) with 8; change (2 ^ 31) with 2147483648; lia].
  change (2 ^ 3) with 8 in Hw8. subst w8pre.
  rewrite (u64_small ((27 + window_offset s * 8) * 2 ^ lg_k s)) in Hrun
    by (change (2 ^ 64) with 18446744073709551616; nia).
  rewrite (Z.shiftl_mul_pow2 _ 3) in Hrun by lia. change (2 ^ 3) with 8 in Hrun.
  rewrite (u32_small (num_coupons s * 8)) in Hrun
    by (change (2 ^ 32) with 4294967296; lia).
  destruct (Z.geb_spec (num_coupons s * 8) ((27 + window_offset s * 8) * 2 ^ lg_k s))
    as [| Hc8]; [discriminate |].
  bind_inv Hrun as [s1 novel] Hzone.
  assert (lg_k s1 = lg_k s /\ num_coupons s1 = num_coupons s
          /\ window_offset s1 = window_offset s /\ sliding_window s1 <> [])
    as (Hlg1 & Hc1 & Hw1 & Hwin1).
  { destruct (_ <? window_offset s).
    - destruct (maybe_delete _ _) as [t n]. apply Ok_inj in Hzone.
      injection Hzone as <- <-. by sketch_fields.
    - destruct (_ <? window_offset s + 8).
      + bind_inv Hzone as old_bits Hold. bind_inv Hzone as bit Hbit.
        destruct (negb _).
        * bind_inv Hzone as window' Hset. apply Ok_inj in Hzone.
          injection Hzone as <- <-. sketch_fields.
          repeat split; try done. intros ->.
          apply vec_set_length in Hset. destruct (sliding_window s); done.
        * apply Ok_inj in Hzone. by injection Hzone as <- <-.
      + destruct (maybe_insert _ _) as [t n]. apply Ok_inj in Hzone.
        injection Hzone as <- <-. by sketch_fields. }
  destruct novel.
  2: { apply Ok_inj in Hrun as <-.
       apply offset_invariant_intro; rewrite ?Hlg1, ?Hc1, ?Hw1;
         [lia | change (2 ^ 27) with 134217728; lia | lia | done | done]. }
  bind_inv Hrun as s2 Hhip. apply update_hip_frame in Hhip as (x & h & ->).
  sketch_fields. rewrite Hc1 in Hrun.
  rewrite (u32_small (num_coupons s + 1)) in Hrun
    by (change (2 ^ 32) with 4294967296; lia).
  rewrite (Z.shiftl_mul_pow2 _ 3) in Hrun by lia. change (2 ^ 3) with 8 in Hrun.
  rewrite u32_small in Hrun by (change (2 ^ 32) with 4294967296; lia).
  destruct (Z.geb_spec ((num_coupons s + 1) * 8)
              ((27 + window_offset s * 8) * 2 ^ lg_k s)) as [Hge | Hlt].
  - bind_inv Hrun as s3 Hmove.
    apply move_window_frame in Hmove
      as (Hlg3 & Hc3 & Hw3 & Hw56 & Hlen3 & _).
    sketch_fields.
    rewrite Hw1 in Hw3. rewrite u8_small in Hw3 by lia.
    assert (offset_invariant s3) as Hinv.
    { apply offset_invariant_intro; rewrite ?Hlg3, ?Hc3, ?Hw3, ?Hlg1.
      - lia.
      - change (2 ^ 27) with 134217728. lia.
      - lia.
      - right. unfold offset_in_step in Hstep. nia.
      - intros Hnil. rewrite Hnil in Hlen3. destruct (sliding_window s1); done. }
    destruct (_ || _); [discriminate |]. bind_inv Hrun as w8post Hw8post.
    destruct (_ >=? _); [discriminate |]. by apply Ok_inj in Hrun as <-.
  - apply Ok_inj in Hrun as <-.
    apply offset_invariant_intro; sketch_fields; rewrite ?Hlg1, ?Hw1.
    + lia.
    + change (2 ^ 27) with 134217728. lia.
    + lia.
    + unfold offset_in_step in *.
      destruct Hstep as [[Hw0 ?] | [? ?]]; [left | right]; nia.
    + done.
Qed.

Lemma row_col_update_invariant (s s' : cpc_sketch) (row_col : Z) :
  offset_invariant s -> row_col_update s row_col = Ok s' -> offset_invariant s'.
Proof.
  intros Hinv. unfold row_col_update.
  destruct (_ <? first_interesting_column s); [by intros [= <-] |].
  destruct (Z.eqb_spec (Z.of_nat (length (sliding_window s))) 0) as [Hlen | Hlen].
  - apply update_sparse_invariant; [done |].
    destruct (sliding_window s); [done | simpl in Hlen; lia].
  - apply update_windowed_invariant; [done |].
    intros Hnil. by rewrite Hnil in Hlen.
Qed.

(** *** The offset as a function of the count *)

Lemma determine_correct_offset_value (lgk C : Z) :
  0 <= lgk <= 30 -> 0 <= C <= 64 * 2 ^ lgk ->
  determine_correct_offset lgk C
  = Ok (Z.max 0 ((8 * C - 19 * 2 ^ lgk) / (8 * 2 ^ lgk))).
Proof.
  intros Hlg HC.
  pose proof (pow2_bounds lgk 30 ltac:(lia)) as Hk.
  pose proof (pow2_bounds 0 lgk ltac:(lia)) as Hk4.
  change (2 ^ 30) with 1073741824 in Hk. change (2 ^ 0) with 1 in Hk4.
  set (k := 2 ^ lgk) in *.
  assert ((8 * C - 19 * k) / (8 * k) < 62)
    by (apply Z.div_lt_upper_bound; lia).
  unfold determine_correct_offset. rewrite k_of_valid by lia. fold k.
  cbn [mbind result_bind bind].
  rewrite shiftl_u64
    by (try change (2 ^ 64) with 18446744073709551616;
        try change (2 ^ 3) with 8; lia).
  change (2 ^ 3) with 8.
  rewrite (u64_small (19 * k))
    by (change (2 ^ 64) with 18446744073709551616; lia).
  rewrite !to_signed_small
    by (try change (2 ^ (64 - 1)) with 9223372036854775808; lia).
  rewrite sub_i64_ok by (change (2 ^ 63) with 9223372036854775808; lia).
  cbn [mbind result_bind bind].
  replace (C * 8 - 19 * k) with (8 * C - 19 * k) by lia.
  destruct (Z.ltb_spec (8 * C - 19 * k) 0) as [Hneg | Hpos].
  - f_equal.
    assert ((8 * C - 19 * k) / (8 * k) < 0)
      by (apply Z.div_lt_upper_bound; lia). lia.
  - destruct (Z.ltb_spec (lgk + 3) 64); [| lia]. f_equal.
    rewrite Z.shiftr_div_pow2 by lia. rewrite Z.pow_add_r by lia.
    change (2 ^ 3) with 8. fold k. rewrite (Z.mul_comm k 8).
    assert (0 <= (8 * C - 19 * k) / (8 * k)) by (apply Z.div_pos; lia).
    rewrite Z.max_r by lia. apply u8_small. lia.
Qed.

(** The offset computed for a count of at most [64 k] coupons is within the
    56 columns a window can start at exactly below [475 k / 8] coupons. *)
Lemma determine_correct_offset_le_56 (lgk C w : Z) :
  0 <= lgk <= 30 -> 0 <= C <= 64 * 2 ^ lgk ->
  determine_correct_offset lgk C = Ok w ->
  (w <= 56 <-> 8 * C < 475 * 2 ^ lgk).
Proof.
  intros Hlg HC. rewrite determine_correct_offset_value by done.
  intros Heq. apply Ok_inj in Heq as <-.
  pose proof (pow2_bounds 0 lgk ltac:(lia)) as Hk4.
  change (2 ^ 0) with 1 in Hk4. set (k := 2 ^ lgk) in *.
  split.
  - intros Hmax. destruct (Z.lt_ge_cases (8 * C) (475 * k)) as [| Hge]; [done |].
    assert (57 <= (8 * C - 19 * k) / (8 * k))
      by (apply Z.div_le_lower_bound; lia). lia.
  - intros Hlt. apply Z.max_lub; [lia |].
    assert ((8 * C - 19 * k) / (8 * k) < 57)
      by (apply Z.div_lt_upper_bound; lia). lia.
Qed.

(** *** How far the window moves *)

Lemma promote_sparse_to_windowed_offset (s s' : cpc_sketch) :
  promote_sparse_to_windowed s = Ok s' -> window_offset s' = window_offset s.
Proof.
  unfold promote_sparse_to_windowed. intros Hrun.
  bind_inv Hrun as k Hk.
  destruct (negb _); [discriminate |]. destruct (negb _); [discriminate |].
  bind_inv Hrun as [w t] Hloop. by apply Ok_inj in Hrun as <-.
Qed.

(** [move_window] evaluates [0xff << new_offset] on [int], which is defined
    up to [new_offset = 24] only. *)
Lemma move_window_offset_24 (s s' : cpc_sketch) :
  move_window s = Ok s' -> 0 <= window_offset s' <= 24.
Proof.
  unfold move_window. intros Hrun.
  destruct (u8 (window_offset s + 1) >? 56); [discriminate |].
  bind_inv Hrun as correct Hcorrect. destruct (negb _); [discriminate |].
  destruct (_ =? 0); [discriminate |].
  bind_inv Hrun as k Hk. bind_inv Hrun as bit_matrix Hmatrix.
  bind_inv Hrun as s1 Hs1. bind_inv Hrun as ff Hff.
  bind_inv Hrun as one Hone. bind_inv Hrun as ones Hones.
  bind_inv Hrun as [[w t] ored] Hloop.
  apply Ok_inj in Hrun as <-. sketch_fields.
  split; [apply Z.mod_pos_bound; lia |].
  unfold shl_int in Hff.
  destruct (Z.ltb_spec (255 * 2 ^ u8 (window_offset s + 1)) (2 ^ 32)) as [Hlt |];
    [| by rewrite andb_false_r in Hff].
  destruct (Z.le_gt_cases (u8 (window_offset s + 1)) 24) as [| Hgt]; [done |].
  assert (2 ^ 25 <= 2 ^ u8 (window_offset s + 1))
    by (apply Z.pow_le_mono_r; lia).
  change (2 ^ 25) with 33554432 in *. change (2 ^ 32) with 4294967296 in *. lia.
Qed.

Lemma update_sparse_offset (s s' : cpc_sketch) (row_col : Z) :
  update_sparse s row_col = Ok s' -> window_offset s' = window_offset s.
Proof.
  unfold update_sparse. intros Hrun. bind_inv Hrun as k Hk.
  destruct (_ >=? _); [discriminate |].
  destruct (maybe_insert _ _) as [t novel]. destruct novel.
  - bind_inv Hrun as s1 Hhip. apply update_hip_frame in Hhip as (x & h & ->).
    destruct (_ >=? _).
    + apply promote_sparse_to_windowed_offset in Hrun. by rewrite Hrun.
    + by apply Ok_inj in Hrun as <-.
  - by apply Ok_inj in Hrun as <-.
Qed.

Lemma update_windowed_offset_24 (s s' : cpc_sketch) (row_col : Z) :
  0 <= window_offset s <= 24 -> update_windowed s row_col = Ok s' ->
  0 <= window_offset s' <= 24.
Proof.
  intros Hw. unfold update_windowed. intros Hrun.
  destruct (window_offset s >? 56); [discriminate |].
  bind_inv Hrun as k Hk. destruct (_ <? _); [discriminate |].
  bind_inv Hrun as w8pre Hw8. destruct (_ >=? _); [discriminate |].
  bind_inv Hrun as [s1 novel] Hzone.
  assert (window_offset s1 = window_offset s) as Hw1.
  { destruct (_ <? window_offset s).
    - destruct (maybe_delete _ _) as [t n]. apply Ok_inj in Hzone.
      by injection Hzone as <- <-.
    - destruct (_ <? window_offset s + 8).
      + bind_inv Hzone as old_bits Hold. bind_inv Hzone as bit Hbit.
        destruct (negb _).
        * bind_inv Hzone as window' Hset. apply Ok_inj in Hzone.
          by injection Hzone as <- <-.
        * apply Ok_inj in Hzone. by injection Hzone as <- <-.
      + destruct (maybe_insert _ _) as [t n]. apply Ok_inj in Hzone.
        by injection Hzone as <- <-. }
  destruct novel; [| apply Ok_inj in Hrun as <-; lia].
  bind_inv Hrun as s2 Hhip. apply update_hip_frame in Hhip as (x & h & ->).
  destruct (_ >=? _).
  - bind_inv Hrun as s3 Hmove. apply move_window_offset_24 in Hmove.
    destruct (_ || _); [discriminate |]. bind_inv Hrun as w8post Hw8post.
    destruct (_ >=? _); [discriminate |]. by apply Ok_inj in Hrun as <-.
  - apply Ok_inj in Hrun as <-. sketch_fields. lia.
Qed.

Lemma row_col_update_offset_24 (s s' : cpc_sketch) (row_col : Z) :
  0 <= window_offset s <= 24 -> row_col_update s row_col = Ok s' ->
  0 <= window_offset s' <= 24.
Proof.
  intros Hw. unfold row_col_update.
  destruct (_ <? first_interesting_column s); [by intros [= <-] |].
  destruct (_ =? 0).
  - intros Hrun. apply update_sparse_offset in Hrun. lia.
  - by apply update_windowed_offset_24.
Qed.

Section Invariant.
Context {ext : Externals}.

Lemma update_bytes_invariant (s s' : cpc_sketch) (value : list Z) :
  offset_invariant s -> update_bytes s value = Ok s' -> offset_invariant s'.
Proof.
  intros Hinv. unfold update_bytes. intros Hrun. bind_inv Hrun.
  by eapply row_col_update_invariant.
Qed.

Lemma run_call_invariant (s s' : cpc_sketch) (c : update_call) :
  offset_invariant s -> run_call s c = Ok s' -> offset_invariant s'.
Proof.
  intros Hinv.
  destruct c; cbn [run_call];
    unfold update_string, update_u64, update_u32, update_i32, update_u16,
      update_i16, update_u8, update_i8, update_i64, update_float, update_double;
    try (by apply update_bytes_invariant);
    try (by apply row_col_update_invariant).
  destruct (bool_decide _); [by intros [= <-] |].
  destruct (_ <? _); [by apply update_bytes_invariant | discriminate].
Qed.

Lemma reachable_invariant (s : cpc_sketch) : reachable s -> offset_invariant s.
Proof.
  induction 1 as [lgk sd s Hnew | s s' c _ IH Hcall].
  - by eapply cpc_sketch_alloc_invariant.
  - by eapply run_call_invariant.
Qed.

Lemma check_and_build_offset (p : preamble) (sd : Z) (s : cpc_sketch) :
  check_and_build p sd = Ok s ->
  determine_correct_offset (lg_k s) (num_coupons s) = Ok (window_offset s).
Proof.
  unfold check_and_build, cpc_sketch_alloc_private. intros Hrun.
  repeat (destruct (negb _); [discriminate |]).
  do 2 bind_inv Hrun. by injection Hrun as <-.
Qed.

Lemma determine_correct_offset_u8 (lgk c w : Z) :
  determine_correct_offset lgk c = Ok w -> 0 <= w < 256.
Proof.
  unfold determine_correct_offset. intros Hrun. do 2 bind_inv Hrun.
  destruct (_ <? 0); [injection Hrun as <-; lia |].
  destruct (_ <? 64); [| discriminate]. injection Hrun as <-.
  apply Z.mod_pos_bound. lia.
Qed.

Lemma update_bytes_unfold (s s' : cpc_sketch) (value : list Z) :
  update_bytes s value = Ok s' ->
  exists row_col, row_col_update s row_col = Ok s'.
Proof. unfold update_bytes. intros Hrun. bind_inv Hrun as rc Hrc. eauto. Qed.

(** Every public call that changes the sketch does so through
    [row_col_update]. *)
Lemma run_call_unfold (s s' : cpc_sketch) (c : update_call) :
  run_call s c = Ok s' ->
  s' = s \/ exists row_col, row_col_update s row_col = Ok s'.
Proof.
  destruct c; cbn [run_call];
    unfold update_string, update_u64, update_u32, update_i32, update_u16,
      update_i16, update_u8, update_i8, update_i64, update_float, update_double;
    intros Hrun; try (right; by eapply update_bytes_unfold); try (right; by eauto).
  destruct (bool_decide _); [left; by apply Ok_inj in Hrun |].
  destruct (_ <? _); [right; by eapply update_bytes_unfold | discriminate].
Qed.

Lemma reachable_offset_24 (s : cpc_sketch) :
  reachable s -> 0 <= window_offset s <= 24.
Proof.
  induction 1 as [lgk sd s Hnew | s s' c _ IH Hcall].
  - unfold cpc_sketch_alloc in Hnew. bind_inv Hnew as k Hk.
    destruct (_ || _); [discriminate |]. apply Ok_inj in Hnew as <-.
    sketch_fields. lia.
  - apply run_call_unfold in Hcall as [-> | [rc Hrc]]; [done |].
    by eapply row_col_update_offset_24.
Qed.

(** A sketch that the stream overload builds has passed the four checks on
    fields that were read. *)
Lemma check_and_build_stream_Ok (f : stream_fields) (sd : Z) (s : cpc_sketch) :
  check_and_build_stream f sd = Ok s ->
  sf_seed_hash_read f = true /\ sf_arrays_read f = true
  /\ check_and_build (sf_preamble f) sd = Ok s.
Proof.
  unfold check_and_build_stream, check_and_build. intros Hrun.
  destruct (negb (preamble_ints_ok _)); [discriminate |].
  destruct (negb (serial_version_ok _)); [discriminate |].
  destruct (negb (family_ok _)); [discriminate |].
  destruct (sf_seed_hash_read f); [| discriminate]. cbn [negb] in Hrun.
  destruct (negb (seed_hash_ok _ _)); [discriminate |].
  destruct (sf_arrays_read f); [| discriminate]. done.
Qed.

(** C5 (amended).  In every sketch built by the public constructor and then
    changed by [update] or [row_col_update] calls that all returned (with
    the promotions and window moves they ran), [window_offset] is
    [determine_correct_offset(lg_k, num_coupons)] and lies in [0, 24], so
    within the [0, 56] of the claim: [move_window] evaluates
    [0xff << new_offset] on [int], which is undefined from 25 on.  A sketch
    returned by either [deserialize] has [window_offset] equal to
    [determine_correct_offset(lg_k, num_coupons)] as well, an 8-bit value;
    when its [lg_k] is at most 30 and its count is at most [64 k], that
    offset is at most 56 exactly when [8 * num_coupons < 475 k]. *)
Theorem window_offset_invariant :
  (forall s, reachable s ->
     0 <= window_offset s <= 24
     /\ determine_correct_offset (lg_k s) (num_coupons s) = Ok (window_offset s))
  /\ (forall input size sd s,
        deserialize input sd = Ok s \/ deserialize_mem input size sd = Ok s ->
        0 <= window_offset s < 256
        /\ determine_correct_offset (lg_k s) (num_coupons s) = Ok (window_offset s)
        /\ (0 <= lg_k s <= 30 -> 0 <= num_coupons s <= 64 * 2 ^ lg_k s ->
            (window_offset s <= 56 <-> 8 * num_coupons s < 475 * 2 ^ lg_k s))).
Proof.
  split.
  - intros s Hreach. split; [by apply reachable_offset_24 |].
    apply reachable_invariant in Hreach.
    destruct Hreach as (Hlg & Hc & Hw & Hstep & _).
    by apply determine_correct_offset_in_step.
  - intros input size sd s Hrun.
    assert (exists p, check_and_build p sd = Ok s) as [p Hbuild].
    { destruct Hrun as [Hrun | Hrun].
      - unfold deserialize in Hrun. bind_inv Hrun as f Hf.
        apply check_and_build_stream_Ok in Hrun as (_ & _ & Hrun). eauto.
      - unfold deserialize_mem in Hrun. bind_inv Hrun as [p rest] Hread.
        destruct (negb _); [discriminate | eauto]. }
    apply check_and_build_offset in Hbuild.
    split; [by eapply determine_correct_offset_u8 |]. split; [done |].
    intros Hlg HC. by apply determine_correct_offset_le_56.
Qed.

End Invariant.

(** C5 (as stated, refuted).  Nothing in [deserialize] bounds the stored
    [lg_k] and [num_coupons]: an image that announces [lg_k = 4] and 1000
    coupons with a window of sixteen bytes passes the four checks, and the
    sketch built from it has [window_offset = 60]. *)
Lemma deserialize_window_offset_60 :
  let input :=
    [4; 1; 16; 4; 0; 9] ++ le_bytes 2 (u16 (compute_seed_hash 0))
    ++ le_bytes 4 1000 ++ le_bytes 4 16
    ++ flat_map (le_bytes 4) (replicate 16 255) in
  exists s,
    deserialize input 0 = Ok s
    /\ lg_k s = 4 /\ num_coupons s = 1000
    /\ window_offset s = 60 /\ ~ (0 <= window_offset s <= 56).
Proof.
  eexists. split; [by vm_compute |]. cbn. repeat split; try done. lia.
Qed.

Lemma window_offset_invariant_witness :
  (exists s,
     foldl (fun r c => r ≫= fun s => run_call s c)
       (cpc_sketch_alloc 4 0) [call_row_col 3; call_row_col 73; call_u64 7] = Ok s
     /\ 0 <= window_offset s <= 24
     /\ determine_correct_offset (lg_k s) (num_coupons s) = Ok (window_offset s))
  /\ (let input :=
        [4; 1; 16; 4; 0; 9] ++ le_bytes 2 (u16 (compute_seed_hash 0))
        ++ le_bytes 4 100 ++ le_bytes 4 16
        ++ flat_map (le_bytes 4) (replicate 16 255) in
      exists s,
        deserialize input 0 = Ok s
        /\ determine_correct_offset (lg_k s) (num_coupons s) = Ok (window_offset s)
        /\ (window_offset s <= 56 <-> 8 * num_coupons s < 475 * 2 ^ lg_k s)).
Proof.
  split.
  - destruct (cpc_sketch_alloc 4 0) as [s0 | |] eqn:H0; try by vm_compute in H0.
    destruct (run_call s0 (call_row_col 3)) as [s1 | |] eqn:H1;
      try (injection H0 as <-; by vm_compute in H1).
    destruct (run_call s1 (call_row_col 73)) as [s2 | |] eqn:H2;
      try (injection H0 as <-; injection H1 as <-; by vm_compute in H2).
    destruct (run_call s2 (call_u64 7)) as [s3 | |] eqn:H3;
      try (injection H0 as <-; injection H1 as <-; injection H2 as <-;
           by vm_compute in H3).
    exists s3. split.
    + cbn [foldl]. cbn [mbind result_bind bind]. rewrite H1.
      cbn [mbind result_bind bind]. rewrite H2. cbn [mbind result_bind bind].
      exact H3.
    + apply (proj1 window_offset_invariant s3).
      eapply reachable_call; [| exact H3].
      eapply reachable_call; [| exact H2].
      eapply reachable_call; [| exact H1].
      eapply reachable_new. exact H0.
  - intros input.
    destruct (deserialize input 0) as [s | |] eqn:Hde; try by vm_compute in Hde.
    assert (lg_k s = 4 /\ num_coupons s = 100) as [Hlg Hc]
      by (vm_compute in Hde; by injection Hde as <-).
    destruct (proj2 window_offset_invariant input 0 0 s (or_introl Hde))
      as (_ & Hoff & Hiff).
    exists s. split; [reflexivity |]. split; [exact Hoff |].
    apply Hiff; rewrite Hlg, ?Hc; [lia | by vm_compute].
Defined.

(** ** Validation on deserialize *)

Section Validation.
Context {ext : Externals}.




(** *** The stream overload on any input *)






(** *** The stream overload on a complete image *)

Lemma read_le_fresh (n : nat) (input : list Z) (v : Z) (rest : list Z) :
  read_le n input = Ok (v, rest) ->
  read_fresh n (mk_istream input false) = (Some v, mk_istream rest false).
Proof.
  unfold read_le, read_fresh. cbn [is_fail is_bytes].
  destruct (n <=? length input)%nat; [| discriminate].
  intros Heq. apply Ok_inj in Heq. by injection Heq as <- <-.
Qed.

Lemma read_le_into (n : nat) (old : Z) (input : list Z) (v : Z) (rest : list Z) :
  read_le n input = Ok (v, rest) ->
  read_into n old (mk_istream input false) = (v, mk_istream rest false).
Proof.
  unfold read_le, read_into, is_read. cbn [is_fail is_bytes].
  destruct (n <=? length input)%nat; [| discriminate].
  intros Heq. apply Ok_inj in Heq. by injection Heq as <- <-.
Qed.

Lemma read_hip_hip_into (a b : Z) (input : list Z) (k h : Z) (rest : list Z) :
  read_hip input = Ok (k, h, rest) ->
  read_hip_into a b (mk_istream input false) = (k, h, mk_istream rest false).
Proof.
  unfold read_hip, read_hip_into. intros Hrun.
  bind_inv Hrun as [k' r1] Hk. bind_inv Hrun as [h' r2] Hh.
  apply Ok_inj in Hrun. injection Hrun as <- <- <-.
  rewrite (read_le_into _ _ _ _ _ Hk). by rewrite (read_le_into _ _ _ _ _ Hh).
Qed.

Lemma read_words_array (n : nat) (input ws rest : list Z) :
  read_words n input = Ok (ws, rest) ->
  read_array n (mk_istream input false) = (Some ws, mk_istream rest false).
Proof. unfold read_array. cbn [is_fail is_bytes]. by intros ->. Qed.

Ltac stream_run :=
  repeat
    (match goal with
     | H : read_le _ _ = Ok ?x |- _ =>
         is_var x; destruct x as [? ?]; rewrite (read_le_into _ _ _ _ _ H)
     | H : read_hip _ = Ok ?x |- _ =>
         is_var x; destruct x as [[? ?] ?];
         rewrite (read_hip_hip_into _ _ _ _ _ _ H)
     | H : read_words _ _ = Ok ?x |- _ =>
         is_var x; destruct x as [? ?]; rewrite (read_words_array _ _ _ _ H)
     | H : Ok _ = Ok _ |- _ => apply Ok_inj in H; simplify_eq
     | H : mbind _ _ = Ok _ |- _ =>
         destruct (bind_Ok _ _ _ H) as (? & ? & ?); clear H
     end;
     cbv beta iota in *; cbn [mbind result_bind bind] in *).

(** When all the fields the flags announce are there, the stream overload
    reads what the memory overload reads. *)
Lemma read_fields_stream_complete (input : list Z) (p : preamble) (rest : list Z) :
  read_fields input = Ok (p, rest) ->
  read_fields_stream input = Ok (mk_stream_fields p true true).
Proof.
  unfold read_fields, read_fields_stream. intros Hrun. cbv zeta.
  do 7 (let Hv := fresh "Hv" in
        bind_inv Hrun as [? ?] Hv; rewrite (read_le_fresh _ _ _ _ Hv);
        cbv beta iota).
  unfold read_body_stream.
  destruct (flag_set _ HAS_HIP), (flag_set _ HAS_TABLE), (flag_set _ HAS_WINDOW);
    cbn [orb andb negb] in *.
  all: cbn [mbind result_bind bind] in Hrun; stream_run; reflexivity.
Qed.

Lemma deserialize_complete (input : list Z) (p : preamble) (rest : list Z) (sd : Z) :
  read_fields input = Ok (p, rest) ->
  deserialize input sd = check_and_build p sd.
Proof.
  intros Hread. unfold deserialize.
  rewrite (read_fields_stream_complete _ _ _ Hread).
  reflexivity.
Qed.

(** *** The memory overload on a short buffer *)







End Validation.



(** ** Validation of the coupon count *)

(** C1 (the failing run).  A new sketch with [lg_k = 4] that receives the
    coupon (row 0, column 31) holds one coupon, but [build_bit_matrix] flips
    bits 31 to 63 of row 0 (the [int] value [1 << 31] is negative and is
    sign-extended), so [validate] counts 33 bits and returns false. *)
Lemma validate_false_at_column_31 :
  exists s0 s,
    cpc_sketch_alloc 4 0 = Ok s0
    /\ row_col_update s0 31 = Ok s
    /\ num_coupons s = 1
    /\ build_bit_matrix s = Ok (0xFFFFFFFF80000000 :: replicate 15 0)
    /\ validate s = Ok false.
Proof. do 2 eexists. repeat split; by vm_compute. Qed.

(** ** Round trip *)

(** C2 (the failing run).  The image of a new sketch is the eight preamble
    bytes; [deserialize] reads no HIP fields from it and builds a sketch whose
    [kxp] is [0.0], while the sketch that was serialized has [kxp = 16.0]. *)
Lemma empty_sketch_round_trip_kxp :
  exists s bytes s',
    cpc_sketch_alloc 4 0 = Ok s
    /\ serialize s = Ok bytes
    /\ length bytes = 8%nat
    /\ deserialize bytes 0 = Ok s'
    /\ num_coupons s' = num_coupons s
    /\ kxp s = double_of_Z 16
    /\ kxp s' = pos_zero
    /\ kxp s' <> kxp s.
Proof.
  do 3 eexists.
  do 4 (split; [by vm_compute |]).
  repeat split; by vm_compute.
Qed.

(** * Further properties of the code *)

(** ** The inner loop of [move_window] *)

Lemma ctz_pos_spec (p : positive) :
  0 <= ctz_pos p
  /\ Z.testbit (Zpos p) (ctz_pos p) = true
  /\ (forall j, 0 <= j < ctz_pos p -> Z.testbit (Zpos p) j = false).
Proof.
  induction p as [p _ | p (Hnn & Hset & Hlow) | ]; cbn [ctz_pos].
  - split; [lia |]. split; [done |]. intros j Hj. lia.
  - split; [lia |]. split.
    + replace (1 + ctz_pos p) with (Z.succ (ctz_pos p)) by lia.
      change (Zpos p~0) with (2 * Zpos p). by rewrite Z.testbit_even_succ.
    + intros j Hj. change (Zpos p~0) with (2 * Zpos p).
      destruct (Z.eq_dec j 0) as [-> | Hj0]; [apply Z.testbit_even_0 |].
      replace j with (Z.succ (j - 1)) by lia.
      rewrite Z.testbit_even_succ by lia. apply Hlow. lia.
  - split; [lia |]. split; [done |]. intros j Hj. lia.
Qed.

Lemma ctz_spec (x : Z) :
  0 < x ->
  0 <= count_trailing_zeros_in_u64 x
  /\ Z.testbit x (count_trailing_zeros_in_u64 x) = true
  /\ (forall j, 0 <= j < count_trailing_zeros_in_u64 x -> Z.testbit x j = false).
Proof. destruct x as [| p | p]; [lia | intros _; apply ctz_pos_spec | lia]. Qed.

Lemma ctz_lt_64 (x : Z) :
  0 < x < 2 ^ 64 -> 0 <= count_trailing_zeros_in_u64 x < 64.
Proof.
  intros Hx. destruct (ctz_spec x) as (Hnn & Hset & _); [lia |].
  split; [done |].
  destruct (Z.lt_ge_cases (count_trailing_zeros_in_u64 x) 64) as [| Hge]; [done |].
  rewrite Z.bits_above_log2 in Hset; [discriminate | lia |].
  assert (Z.log2 x < 64) by (apply Z.log2_lt_pow2; lia). lia.
Qed.

Lemma ctz_above (x c : Z) :
  0 < x -> (forall j, 0 <= j <= c -> Z.testbit x j = false) ->
  c < count_trailing_zeros_in_u64 x.
Proof.
  intros Hx Hlow. destruct (ctz_spec x Hx) as (Hnn & Hset & _).
  destruct (Z.lt_ge_cases c (count_trailing_zeros_in_u64 x)) as [| Hge]; [done |].
  rewrite Hlow in Hset by lia. discriminate.
Qed.

(** The mask [1 << col] of an [int] shift, seen as a 64-bit word: bit [col]
    is set and no bit below it. *)
Lemma shl_int_1_bits (col bit : Z) :
  0 <= col -> shl_int 1 col = Ok bit ->
  col <= 31 /\ 0 <= u64 bit < 2 ^ 64
  /\ Z.testbit (u64 bit) col = true
  /\ (forall j, 0 <= j < col -> Z.testbit (u64 bit) j = false).
Proof.
  intros Hcol Hshl.
  assert (col <= 31) as Hle.
  { unfold shl_int in Hshl. destruct (Z.ltb_spec col 32); [lia |].
    by rewrite !andb_false_r, ?andb_false_l in Hshl. }
  split; [done |]. split; [apply Z.mod_pos_bound; lia |].
  destruct (Z.eq_dec col 31) as [-> | Hne].
  - apply Ok_inj in Hshl as <-.
    change (u64 (to_signed 32 (1 * 2 ^ 31))) with (8589934591 * 2 ^ 31).
    split; [by rewrite Z.mul_pow2_bits |].
    intros j Hj. apply Z.mul_pow2_bits_low. lia.
  - rewrite shl_int_1 in Hshl by lia. apply Ok_inj in Hshl as <-.
    pose proof (pow2_bounds col 30 ltac:(lia)) as Hp.
    change (2 ^ 30) with 1073741824 in Hp.
    rewrite u64_small by (change (2 ^ 64) with 18446744073709551616; lia).
    split; [by apply Z.pow2_bits_true |].
    intros j Hj. rewrite Z.pow2_bits_eqb by lia.
    destruct (Z.eqb_spec col j); [lia | done].
Qed.

Lemma insert_surprises_S (fuel : nat) (pattern i : Z) (table : list Z) :
  insert_surprises (S fuel) pattern i table
  = if pattern =? 0 then Some (Ok table)
    else
      match shl_int 1 (u8 (count_trailing_zeros_in_u64 pattern)) with
      | Ok bit =>
          let '(table', is_novel) :=
            maybe_insert table
              (u32 (Z.lor (u64 (Z.shiftl i 6))
                      (u8 (count_trailing_zeros_in_u64 pattern)))) in
          if negb is_novel then Some (Throw (logic_error "is_novel != true"))
          else insert_surprises fuel (Z.lxor pattern (u64 bit)) i table'
      | Throw e => Some (Throw e)
      | Undefined => Some Undefined
      end.
Proof. reflexivity. Qed.

(** A loop that has ended keeps its outcome when it is given more rounds. *)
Lemma insert_surprises_more (fuel : nat) (pattern i : Z) (table : list Z)
    (r : result (list Z)) :
  insert_surprises fuel pattern i table = Some r ->
  forall n, insert_surprises (fuel + n) pattern i table = Some r.
Proof.
  revert pattern table.
  induction fuel as [| fuel IH]; intros pattern table Hrun n.
  - cbn [insert_surprises] in Hrun.
    destruct (pattern =? 0) eqn:Hz; [| discriminate].
    destruct n as [| n]; cbn [Nat.add insert_surprises]; by rewrite Hz.
  - replace (S fuel + n)%nat with (S (fuel + n)) by lia.
    rewrite insert_surprises_S in *.
    destruct (pattern =? 0); [done |].
    destruct (shl_int 1 _) as [bit | e |]; [| done | done].
    destruct (maybe_insert table _) as [table' novel].
    destruct (negb novel); [done |]. by apply IH.
Qed.

(** Each round that goes on erases the lowest set bit, so a pattern whose
    lowest set bit is at column [c] takes at most [33 - c] rounds: the shift
    [1 << col] is undefined from column 32 on. *)
Lemma insert_surprises_ends (fuel : nat) (pattern i : Z) (table : list Z) :
  0 <= pattern < 2 ^ 64 ->
  (pattern <> 0 ->
   33 <= Z.of_nat fuel + count_trailing_zeros_in_u64 pattern /\ (1 <= fuel)%nat) ->
  exists r, insert_surprises fuel pattern i table = Some r.
Proof.
  revert pattern table.
  induction fuel as [| fuel IH]; intros pattern table Hrange Hfuel.
  - cbn [insert_surprises].
    destruct (Z.eqb_spec pattern 0) as [| Hne]; [by eauto |].
    destruct (Hfuel Hne). lia.
  - rewrite insert_surprises_S.
    destruct (Z.eqb_spec pattern 0) as [| Hne]; [by eauto |].
    pose proof (ctz_lt_64 pattern ltac:(lia)) as Hctz.
    destruct (ctz_spec pattern ltac:(lia)) as (_ & Hset & Hlow).
    rewrite u8_small by lia.
    destruct (shl_int 1 (count_trailing_zeros_in_u64 pattern)) as [bit | e |]
      eqn:Hshl; [| by eauto | by eauto].
    destruct (shl_int_1_bits _ _ (proj1 Hctz) Hshl) as (Hle & Hbit & Hbset & Hblow).
    destruct (maybe_insert table _) as [table' novel].
    destruct (negb novel); [by eauto |].
    apply IH.
    + by apply lxor_bound.
    + intros Hne'.
      assert (count_trailing_zeros_in_u64 pattern
              < count_trailing_zeros_in_u64 (Z.lxor pattern (u64 bit))) as Hup.
      { apply ctz_above.
        - pose proof (lxor_bound pattern (u64 bit) 64 ltac:(lia) Hrange Hbit). lia.
        - intros j Hj. rewrite Z.lxor_spec.
          destruct (Z.eq_dec j (count_trailing_zeros_in_u64 pattern)) as [-> | Hjne].
          + by rewrite Hset, Hbset.
          + by rewrite Hlow, Hblow by lia. }
      destruct (Hfuel Hne) as [Hsum Hpos]. lia.
Qed.

(** X1.  The [while (pattern != 0)] loop of [move_window] ends: run on a
    64-bit pattern (with any row and table) it is over within 64 rounds (it
    has returned the table, thrown the [logic_error] for a repeated code or
    met the undefined shift [1 << col]), and further rounds do not change
    its outcome. *)
Theorem insert_surprises_fuel (pattern i : Z) (table : list Z) :
  0 <= pattern < 2 ^ 64 ->
  exists r,
    insert_surprises 64 pattern i table = Some r
    /\ (forall n, insert_surprises (64 + n) pattern i table = Some r).
Proof.
  intros Hrange.
  destruct (insert_surprises_ends 64 pattern i table Hrange) as [r Hr].
  { intros Hne. pose proof (ctz_lt_64 pattern ltac:(lia)). lia. }
  exists r. split; [done |]. by apply insert_surprises_more.
Qed.

Lemma insert_surprises_fuel_witness :
  exists r,
    insert_surprises 64 0x40000005 3 [] = Some r
    /\ (forall n, insert_surprises (64 + n) 0x40000005 3 [] = Some r).
Proof.
  apply (insert_surprises_fuel 0x40000005 3 []). by vm_compute.
Defined.

(** The run of the loop in [move_window] is never cut short. *)
Lemma insert_surprises_u64_ends (pattern i : Z) (table : list Z) :
  exists r,
    insert_surprises 64 (u64 pattern) i table = Some r
    /\ insert_surprises_u64 pattern i table = r.
Proof.
  destruct (insert_surprises_ends 64 (u64 pattern) i table) as [r Hr].
  - apply Z.mod_pos_bound. lia.
  - intros Hne.
    pose proof (ctz_lt_64 (u64 pattern)
                  ltac:(pose proof (Z.mod_pos_bound pattern (2 ^ 64)); unfold u64, wrap in *; lia)).
    lia.
  - exists r. split; [done |]. unfold insert_surprises_u64. by rewrite Hr.
Qed.

(** ** What a call changes *)

Lemma promote_sparse_to_windowed_shape (s s' : cpc_sketch) :
  promote_sparse_to_windowed s = Ok s' ->
  exists k w t,
    k_of (lg_k s) = Ok k
    /\ s' = set_table (set_window s w) t
    /\ length w = Z.to_nat k
    /\ window_offset s = 0.
Proof.
  unfold promote_sparse_to_windowed. intros Hrun.
  bind_inv Hrun as k Hk.
  destruct (negb _); [discriminate |].
  destruct (Z.eqb_spec (window_offset s) 0) as [Hw0 |]; [| discriminate].
  cbn [negb] in Hrun.
  bind_inv Hrun as [w t] Hloop. apply Ok_inj in Hrun as <-.
  exists k, w, t. repeat split; try done.
  revert Hloop.
  apply (for_each_invariant
           (fun st : list Z * list Z => length st.1 = Z.to_nat k)).
  - intros rc [w0 t0] [w1 t1] Hlen Hbody. cbn [fst] in *.
    destruct (rc =? UINT32_MAX);
      [apply Ok_inj in Hbody; by injection Hbody as <- <- |].
    destruct (_ <? 8).
    + bind_inv Hbody as bit Hbit. bind_inv Hbody as old Hold.
      bind_inv Hbody as w' Hset. apply Ok_inj in Hbody.
      injection Hbody as <- <-. apply vec_set_length in Hset. lia.
    + destruct (maybe_insert t0 rc) as [t2 novel].
      destruct (negb novel); [discriminate |].
      apply Ok_inj in Hbody. by injection Hbody as <- <-.
  - cbn [fst]. apply vec_resize_length.
Qed.

Lemma move_window_shape (s s' : cpc_sketch) :
  move_window s = Ok s' ->
  lg_k s' = lg_k s /\ seed s' = seed s /\ was_merged s' = was_merged s
  /\ num_coupons s' = num_coupons s
  /\ window_offset s' = u8 (window_offset s + 1)
  /\ window_offset s' <= 56
  /\ 0 <= first_interesting_column s' <= window_offset s'
  /\ length (sliding_window s') = length (sliding_window s)
  /\ sliding_window s <> [].
Proof.
  intros Hrun.
  destruct (move_window_frame s s' Hrun) as (Hlg & Hc & Hw & Hw56 & Hlen & Hne).
  repeat split; try done.
  all: unfold move_window in Hrun.
  all: destruct (u8 (window_offset s + 1) >? 56); [discriminate |].
  all: bind_inv Hrun as correct Hcorrect; destruct (negb _); [discriminate |].
  all: destruct (_ =? 0); [discriminate |].
  all: bind_inv Hrun as k Hk; bind_inv Hrun as bit_matrix Hmatrix.
  all: bind_inv Hrun as s1 Hs1.
  all: assert (exists x h, s1 = set_hip s x h) as (x & h & ->)
         by (destruct (_ =? 0); [by eapply refresh_kxp_frame |];
             apply Ok_inj in Hs1 as <-;
             exists (kxp s), (hip_est_accum s); by destruct s).
  all: bind_inv Hrun as ff Hff; bind_inv Hrun as one Hone.
  all: bind_inv Hrun as ones Hones; bind_inv Hrun as [[w t] ored] Hloop.
  all: apply Ok_inj in Hrun as <-; sketch_fields; try done.
  - assert (0 <= u8 (count_trailing_zeros_in_u64 ored))
      by (apply Z.mod_pos_bound; lia).
    assert (0 <= u8 (window_offset s + 1)) by (apply Z.mod_pos_bound; lia).
    destruct (Z.gtb_spec (u8 (count_trailing_zeros_in_u64 ored))
                (u8 (window_offset s + 1))); lia.
  - destruct (Z.gtb_spec (u8 (count_trailing_zeros_in_u64 ored))
                (u8 (window_offset s + 1))); lia.
Qed.

(** Everything a call of [row_col_update] that returns can have changed. *)
Lemma row_col_update_shape (s s' : cpc_sketch) (row_col : Z) :
  row_col_update s row_col = Ok s' ->
  lg_k s' = lg_k s /\ seed s' = seed s /\ was_merged s' = was_merged s
  /\ (num_coupons s' = num_coupons s \/ num_coupons s' = u32 (num_coupons s + 1))
  /\ (sliding_window s <> [] ->
      length (sliding_window s') = length (sliding_window s))
  /\ (sliding_window s = [] ->
      sliding_window s' = []
      \/ exists k, k_of (lg_k s) = Ok k
                   /\ length (sliding_window s') = Z.to_nat k
                   /\ u64 (3 * k) <= u32 (Z.shiftl (num_coupons s') 5))
  /\ (window_offset s' = window_offset s
      /\ first_interesting_column s' = first_interesting_column s
      \/ window_offset s' = u8 (window_offset s + 1)
         /\ window_offset s' <= 56
         /\ 0 <= first_interesting_column s' <= window_offset s').
Proof.
  unfold row_col_update. intros Hrun.
  destruct (_ <? first_interesting_column s).
  { apply Ok_inj in Hrun as <-. repeat split; tauto. }
  destruct (Z.eqb_spec (Z.of_nat (length (sliding_window s))) 0) as [Hlen | Hlen].
  - assert (sliding_window s = []) as Hnil
      by (destruct (sliding_window s); [done | simpl in Hlen; lia]).
    unfold update_sparse in Hrun. bind_inv Hrun as k Hk.
    destruct (_ >=? _); [discriminate |].
    destruct (maybe_insert _ _) as [t novel]. destruct novel.
    + bind_inv Hrun as s1 Hhip. apply update_hip_frame in Hhip as (x & h & ->).
      destruct (Z.geb_spec
                  (u32 (Z.shiftl (num_coupons
                     (set_hip (set_num_coupons (set_table s t)
                        (u32 (num_coupons (set_table s t) + 1))) x h)) 5))
                  (u64 (3 * k))) as [Hge | Hlt].
      * apply promote_sparse_to_windowed_shape in Hrun
          as (k' & w & t' & Hk' & -> & Hlenw & Hw0).
        sketch_fields. rewrite Hk in Hk'. apply Ok_inj in Hk' as <-.
        repeat split; try done; try tauto.
        intros _. right. exists k. repeat split; try done; try lia.
      * apply Ok_inj in Hrun as <-. sketch_fields.
        repeat split; try done; tauto.
    + apply Ok_inj in Hrun as <-. sketch_fields. repeat split; try done; tauto.
  - assert (sliding_window s <> []) as Hne
      by (intros Hnil; by rewrite Hnil in Hlen).
    unfold update_windowed in Hrun.
    destruct (window_offset s >? 56); [discriminate |].
    bind_inv Hrun as k Hk. destruct (_ <? _); [discriminate |].
    bind_inv Hrun as w8pre Hw8. destruct (_ >=? _); [discriminate |].
    bind_inv Hrun as [s1 novel] Hzone.
    assert (lg_k s1 = lg_k s /\ seed s1 = seed s /\ was_merged s1 = was_merged s
            /\ num_coupons s1 = num_coupons s
            /\ window_offset s1 = window_offset s
            /\ first_interesting_column s1 = first_interesting_column s
            /\ length (sliding_window s1) = length (sliding_window s))
      as (Hlg1 & Hsd1 & Hm1 & Hc1 & Hw1 & Hf1 & Hlen1).
    { destruct (_ <? window_offset s).
      - destruct (maybe_delete _ _) as [t n]. apply Ok_inj in Hzone.
        injection Hzone as <- <-. by sketch_fields.
      - destruct (_ <? window_offset s + 8).
        + bind_inv Hzone as old_bits Hold. bind_inv Hzone as bit Hbit.
          destruct (negb _).
          * bind_inv Hzone as window' Hset. apply Ok_inj in Hzone.
            injection Hzone as <- <-. sketch_fields.
            apply vec_set_length in Hset. by repeat split.
          * apply Ok_inj in Hzone. by injection Hzone as <- <-.
        + destruct (maybe_insert _ _) as [t n]. apply Ok_inj in Hzone.
          injection Hzone as <- <-. by sketch_fields. }
    destruct novel.
    2: { apply Ok_inj in Hrun as <-. repeat split; try done; tauto. }
    bind_inv Hrun as s2 Hhip. apply update_hip_frame in Hhip as (x & h & ->).
    destruct (_ >=? _).
    + bind_inv Hrun as s3 Hmove.
      apply move_window_shape in Hmove
        as (Hlg3 & Hsd3 & Hm3 & Hc3 & Hw3 & Hw56 & Hfic3 & Hlen3 & _).
      sketch_fields.
      destruct (_ || _); [discriminate |]. bind_inv Hrun as w8post Hw8post.
      destruct (_ >=? _); [discriminate |]. apply Ok_inj in Hrun as <-.
      rewrite Hlg3, Hsd3, Hm3, Hc3, Hw3, Hlen3, Hlg1, Hsd1, Hm1, Hc1, Hw1, Hlen1.
      repeat split; try done; try tauto.
      right. rewrite <- Hw1, <- Hw3. done.
    + apply Ok_inj in Hrun as <-. sketch_fields.
      rewrite Hlg1, Hsd1, Hm1, Hc1, Hw1, Hlen1, Hf1.
      repeat split; try done; tauto.
Qed.

Section CallShape.
Context {ext : Externals}.

(** X2.  No update changes [lg_k], the seed or the merged flag of a
    sketch. *)
Theorem run_call_identity (s s' : cpc_sketch) (c : update_call) :
  run_call s c = Ok s' ->
  lg_k s' = lg_k s /\ seed s' = seed s /\ was_merged s' = was_merged s.
Proof.
  intros Hrun. apply run_call_unfold in Hrun as [-> | [rc Hrc]]; [done |].
  apply row_col_update_shape in Hrc. tauto.
Qed.

(** X3.  A call that returns leaves [num_coupons] as it was or adds one to
    it (as long as the 32-bit counter is not at its maximum). *)
Theorem run_call_num_coupons (s s' : cpc_sketch) (c : update_call) :
  0 <= num_coupons s < 2 ^ 32 - 1 ->
  run_call s c = Ok s' ->
  num_coupons s <= num_coupons s' <= num_coupons s + 1.
Proof.
  intros Hc Hrun. apply run_call_unfold in Hrun as [-> | [rc Hrc]]; [lia |].
  apply row_col_update_shape in Hrc as (_ & _ & _ & [-> | ->] & _); [lia |].
  rewrite u32_small; lia.
Qed.

(** X4.  In every sketch built by the constructor and updates,
    [0 <= first_interesting_column <= window_offset]. *)
Theorem reachable_first_interesting_column (s : cpc_sketch) :
  reachable s -> 0 <= first_interesting_column s <= window_offset s.
Proof.
  induction 1 as [lgk sd s Hnew | s s' c _ IH Hcall].
  - unfold cpc_sketch_alloc in Hnew. bind_inv Hnew as k Hk.
    destruct (_ || _); [discriminate |]. apply Ok_inj in Hnew as <-.
    sketch_fields. lia.
  - apply run_call_unfold in Hcall as [-> | [rc Hrc]]; [done |].
    apply row_col_update_shape in Hrc
      as (_ & _ & _ & _ & _ & _ & [[-> ->] | (_ & _ & Hfic)]); done.
Qed.

Lemma reachable_not_merged (s : cpc_sketch) : reachable s -> was_merged s = false.
Proof.
  induction 1 as [lgk sd s Hnew | s s' c _ IH Hcall].
  - unfold cpc_sketch_alloc in Hnew. bind_inv Hnew as k Hk.
    destruct (_ || _); [discriminate |]. by apply Ok_inj in Hnew as <-.
  - apply run_call_unfold in Hcall as [-> | [rc Hrc]]; [done |].
    apply row_col_update_shape in Hrc as (_ & _ & -> & _). exact IH.
Qed.

(** X5.  A sketch built by the constructor and updates is never marked
    merged: [get_estimate] answers with the HIP accumulator, and
    [get_lower_bound] / [get_upper_bound] answer with the HIP bounds for
    [kappa] 1, 2 or 3 and throw [invalid_argument] for any other [kappa]. *)
Theorem reachable_estimate_is_hip
    (icon : Z -> Z -> double) (hip_lb hip_ub icon_lb icon_ub : cpc_sketch -> Z -> double)
    (s : cpc_sketch) (kappa : Z) :
  reachable s ->
  get_estimate icon s = hip_est_accum s
  /\ (1 <= kappa <= 3 ->
      get_lower_bound hip_lb icon_lb s kappa = Ok (hip_lb s kappa)
      /\ get_upper_bound hip_ub icon_ub s kappa = Ok (hip_ub s kappa))
  /\ (~ 1 <= kappa <= 3 ->
      get_lower_bound hip_lb icon_lb s kappa
        = Throw (invalid_argument "kappa must be 1, 2 or 3")
      /\ get_upper_bound hip_ub icon_ub s kappa
        = Throw (invalid_argument "kappa must be 1, 2 or 3")).
Proof.
  intros Hreach. apply reachable_not_merged in Hreach.
  unfold get_estimate, get_lower_bound, get_upper_bound, get_hip_estimate.
  rewrite Hreach. cbn [negb].
  split; [done |].
  destruct (Z.ltb_spec kappa 1), (Z.gtb_spec kappa 3); cbn [orb];
    split; intros Hk; try lia; done.
Qed.

End CallShape.

Lemma run_call_identity_witness :
  exists s0 s1,
    cpc_sketch_alloc 4 0 = Ok s0 /\ run_call s0 (call_u64 7) = Ok s1
    /\ lg_k s1 = lg_k s0 /\ seed s1 = seed s0 /\ was_merged s1 = was_merged s0.
Proof.
  destruct (cpc_sketch_alloc 4 0) as [s0 | |] eqn:H0; try by vm_compute in H0.
  destruct (run_call s0 (call_u64 7)) as [s1 | |] eqn:H1;
    try (injection H0 as <-; by vm_compute in H1).
  exists s0, s1. split; [reflexivity |]. split; [exact H1 |].
  exact (run_call_identity s0 s1 (call_u64 7) H1).
Defined.

Lemma run_call_num_coupons_witness :
  exists s0 s1,
    cpc_sketch_alloc 4 0 = Ok s0 /\ run_call s0 (call_string [97; 98; 99]) = Ok s1
    /\ num_coupons s0 <= num_coupons s1 <= num_coupons s0 + 1.
Proof.
  destruct (cpc_sketch_alloc 4 0) as [s0 | |] eqn:H0; try by vm_compute in H0.
  destruct (run_call s0 (call_string [97; 98; 99])) as [s1 | |] eqn:H1;
    try (injection H0 as <-; by vm_compute in H1).
  assert (0 <= num_coupons s0 < 2 ^ 32 - 1) as Hc
    by (vm_compute in H0; injection H0 as <-; by vm_compute).
  exists s0, s1. split; [reflexivity |]. split; [exact H1 |].
  exact (run_call_num_coupons s0 s1 (call_string [97; 98; 99]) Hc H1).
Defined.

Lemma reachable_first_interesting_column_witness :
  exists s,
    foldl (fun r c => r ≫= fun s => run_call s c)
      (cpc_sketch_alloc 4 0) [call_row_col 3; call_i32 (-5)] = Ok s
    /\ 0 <= first_interesting_column s <= window_offset s.
Proof.
  destruct (cpc_sketch_alloc 4 0) as [s0 | |] eqn:H0; try by vm_compute in H0.
  destruct (run_call s0 (call_row_col 3)) as [s1 | |] eqn:H1;
    try (injection H0 as <-; by vm_compute in H1).
  destruct (run_call s1 (call_i32 (-5))) as [s2 | |] eqn:H2;
    try (injection H0 as <-; injection H1 as <-; by vm_compute in H2).
  exists s2. split.
  - cbn [foldl]. cbn [mbind result_bind bind]. rewrite H1.
    cbn [mbind result_bind bind]. exact H2.
  - apply (reachable_first_interesting_column s2).
    eapply reachable_call; [| exact H2].
    eapply reachable_call; [| exact H1].
    eapply reachable_new. exact H0.
Defined.

Lemma reachable_estimate_is_hip_witness :
  exists s0 s,
    cpc_sketch_alloc 4 0 = Ok s0 /\ run_call s0 (call_row_col 3) = Ok s
    /\ get_estimate (fun _ _ => 0) s = hip_est_accum s
    /\ get_lower_bound (fun _ _ => 1) (fun _ _ => 2) s 2 = Ok 1
    /\ get_upper_bound (fun _ _ => 3) (fun _ _ => 4) s 2 = Ok 3
    /\ get_lower_bound (fun _ _ => 1) (fun _ _ => 2) s 7
       = Throw (invalid_argument "kappa must be 1, 2 or 3").
Proof.
  destruct (cpc_sketch_alloc 4 0) as [s0 | |] eqn:H0; try by vm_compute in H0.
  destruct (run_call s0 (call_row_col 3)) as [s | |] eqn:H1;
    try (injection H0 as <-; by vm_compute in H1).
  assert (reachable s) as Hreach
    by (eapply reachable_call; [| exact H1]; eapply reachable_new; exact H0).
  exists s0, s. split; [reflexivity |]. split; [exact H1 |].
  destruct (reachable_estimate_is_hip (fun _ _ => 0) (fun _ _ => 1)
              (fun _ _ => 3) (fun _ _ => 2) (fun _ _ => 4) s 2 Hreach)
    as (Hest & Hin & _).
  destruct (reachable_estimate_is_hip (fun _ _ => 0) (fun _ _ => 1)
              (fun _ _ => 3) (fun _ _ => 2) (fun _ _ => 4) s 7 Hreach)
    as (_ & _ & Hout).
  destruct (Hin ltac:(lia)) as [Hlb Hub]. destruct (Hout ltac:(lia)) as [Hlb' _].
  repeat split; assumption.
Defined.

(** ** Flavor, window and offset *)

Lemma determine_flavor_cases (lgk C : Z) :
  4 <= lgk <= 26 -> 0 <= C < 2 ^ 59 ->
  determine_flavor lgk C
  = Ok (if C =? 0 then EMPTY
        else if 32 * C <? 3 * 2 ^ lgk then SPARSE
        else if 2 * C <? 2 ^ lgk then HYBRID
        else if 8 * C <? 27 * 2 ^ lgk then PINNED
        else SLIDING).
Proof.
  intros Hlg HC. unfold determine_flavor. rewrite k_of_valid by lia.
  pose proof (pow2_bounds lgk 26 ltac:(lia)) as Hk.
  change (2 ^ 26) with 67108864 in Hk.
  change (2 ^ 59) with 576460752303423488 in HC.
  cbn [mbind result_bind bind].
  rewrite !shiftl_u64
    by (try change (2 ^ 64) with 18446744073709551616;
        try change (2 ^ 1) with 2; try change (2 ^ 3) with 8;
        try change (2 ^ 5) with 32; lia).
  change (2 ^ 1) with 2. change (2 ^ 3) with 8. change (2 ^ 5) with 32.
  rewrite !u64_small by (change (2 ^ 64) with 18446744073709551616; lia).
  rewrite (Z.mul_comm C 32), (Z.mul_comm C 2), (Z.mul_comm C 8).
  by repeat destruct (_ <? _); destruct (C =? 0).
Qed.

Lemma row_col_update_window_invariant (s s' : cpc_sketch) (row_col : Z) :
  window_invariant s -> row_col_update s row_col = Ok s' -> window_invariant s'.
Proof.
  intros [Hinv Hwin] Hrun.
  pose proof (row_col_update_invariant s s' row_col Hinv Hrun) as Hinv'.
  split; [done |]. intros Hne'.
  destruct Hinv as (Hlg & Hc & _). destruct Hinv' as (_ & Hc' & _).
  apply row_col_update_shape in Hrun
    as (Hlg' & _ & _ & HC & Hkeep & Hnew & _).
  pose proof (pow2_bounds (lg_k s) 26 ltac:(lia)) as Hk.
  change (2 ^ 26) with 67108864 in Hk.
  change (2 ^ 27) with 134217728 in Hc, Hc'.
  rewrite Hlg'.
  destruct (decide (sliding_window s = [])) as [Hnil | Hne].
  - destruct (Hnew Hnil) as [Hnil' | (k & Hk_of & Hlen & Hthr)]; [done |].
    rewrite k_of_valid in Hk_of by lia. apply Ok_inj in Hk_of as <-.
    split; [done |].
    rewrite u64_small in Hthr by (change (2 ^ 64) with 18446744073709551616; lia).
    destruct (Z.eq_dec (num_coupons s') 134217728) as [Heq | Hneq].
    + rewrite Heq in Hthr. change (u32 (Z.shiftl 134217728 5)) with 0 in Hthr. lia.
    + rewrite Z.shiftl_mul_pow2 in Hthr by lia. change (2 ^ 5) with 32 in Hthr.
      rewrite u32_small in Hthr by (change (2 ^ 32) with 4294967296; lia). lia.
  - destruct (Hwin Hne) as [Hlen Hthr]. rewrite (Hkeep Hne).
    split; [done |].
    destruct HC as [-> | ->]; [done |].
    rewrite u32_small by (change (2 ^ 32) with 4294967296; lia). lia.
Qed.

Section WindowShape.
Context {ext : Externals}.

Lemma reachable_window_invariant (s : cpc_sketch) :
  reachable s -> window_invariant s.
Proof.
  induction 1 as [lgk sd s Hnew | s s' c _ IH Hcall].
  - split; [by eapply cpc_sketch_alloc_invariant |].
    unfold cpc_sketch_alloc in Hnew. bind_inv Hnew as k Hk.
    destruct (_ || _); [discriminate |]. by apply Ok_inj in Hnew as <-.
  - apply run_call_unfold in Hcall as [-> | [rc Hrc]]; [done |].
    by eapply row_col_update_window_invariant.
Qed.

(** X6.  In every sketch built by the constructor and updates the sliding
    window is absent exactly in the flavors EMPTY and SPARSE and has
    [k = 2^lg_k] bytes in the flavors HYBRID, PINNED and SLIDING. *)
Theorem reachable_window_length (s : cpc_sketch) :
  reachable s ->
  exists f,
    determine_flavor (lg_k s) (num_coupons s) = Ok f
    /\ length (sliding_window s)
       = match f with
         | EMPTY | SPARSE => 0%nat
         | HYBRID | PINNED | SLIDING => Z.to_nat (2 ^ lg_k s)
         end.
Proof.
  intros Hreach. apply reachable_window_invariant in Hreach.
  destruct Hreach as [(Hlg & Hc & _ & _ & Hsparse) Hwin].
  pose proof (pow2_bounds 4 (lg_k s) ltac:(lia)) as Hk4.
  change (2 ^ 4) with 16 in Hk4. change (2 ^ 27) with 134217728 in Hc.
  rewrite determine_flavor_cases
    by (try change (2 ^ 59) with 576460752303423488; lia).
  eexists. split; [reflexivity |].
  destruct (decide (sliding_window s = [])) as [Hnil | Hne].
  - destruct (Hsparse Hnil) as [_ Hlt]. rewrite Hnil.
    destruct (Z.ltb_spec (32 * num_coupons s) (3 * 2 ^ lg_k s)); [| lia].
    by destruct (_ =? 0).
  - destruct (Hwin Hne) as [Hlen Hthr]. rewrite Hlen.
    destruct (Z.eqb_spec (num_coupons s) 0); [lia |].
    destruct (Z.ltb_spec (32 * num_coupons s) (3 * 2 ^ lg_k s)); [lia |].
    by repeat destruct (_ <? _).
Qed.

End WindowShape.

Lemma reachable_window_length_witness :
  exists s f,
    foldl (fun r c => r ≫= fun s => run_call s c)
      (cpc_sketch_alloc 4 0) [call_row_col 3; call_row_col 73] = Ok s
    /\ determine_flavor (lg_k s) (num_coupons s) = Ok f
    /\ length (sliding_window s)
       = match f with
         | EMPTY | SPARSE => 0%nat
         | HYBRID | PINNED | SLIDING => Z.to_nat (2 ^ lg_k s)
         end.
Proof.
  destruct (cpc_sketch_alloc 4 0) as [s0 | |] eqn:H0; try by vm_compute in H0.
  destruct (run_call s0 (call_row_col 3)) as [s1 | |] eqn:H1;
    try (injection H0 as <-; by vm_compute in H1).
  destruct (run_call s1 (call_row_col 73)) as [s2 | |] eqn:H2;
    try (injection H0 as <-; injection H1 as <-; by vm_compute in H2).
  assert (reachable s2) as Hreach
    by (eapply reachable_call; [| exact H2]; eapply reachable_call; [| exact H1];
        eapply reachable_new; exact H0).
  destruct (reachable_window_length s2 Hreach) as (f & Hf & Hlen).
  exists s2, f. split; [| by split].
  cbn [foldl]. cbn [mbind result_bind bind]. rewrite H1.
  cbn [mbind result_bind bind]. exact H2.
Defined.

(** X7.  For [lg_k] in [4, 26] and a count of at most [64 k] coupons,
    [determine_correct_offset] is [(8C - 19k) / 8k] rounded down and never
    below 0; it is 0 exactly when the flavor is not SLIDING, and at most 56
    exactly when [8C < 475 k]. *)
Theorem determine_correct_offset_closed_form (lgk C : Z) :
  4 <= lgk <= 26 -> 0 <= C <= 64 * 2 ^ lgk ->
  let k := 2 ^ lgk in
  let w := Z.max 0 ((8 * C - 19 * k) / (8 * k)) in
  determine_correct_offset lgk C = Ok w
  /\ (w = 0 <-> determine_flavor lgk C <> Ok SLIDING)
  /\ (w <= 56 <-> 8 * C < 475 * k).
Proof.
  intros Hlg HC k w.
  pose proof (pow2_bounds lgk 26 ltac:(lia)) as Hk.
  pose proof (pow2_bounds 4 lgk ltac:(lia)) as Hk4.
  change (2 ^ 26) with 67108864 in Hk. change (2 ^ 4) with 16 in Hk4.
  fold k in Hk, Hk4, HC.
  assert (0 <= w <= 61) as Hw.
  { subst w. split; [lia |]. apply Z.max_lub; [lia |].
    assert ((8 * C - 19 * k) / (8 * k) < 62)
      by (apply Z.div_lt_upper_bound; lia). lia. }
  assert (w = 0 <-> 8 * C < 27 * k) as Hw0.
  { subst w. split.
    - intros Hmax. destruct (Z.lt_ge_cases (8 * C) (27 * k)) as [| Hge]; [done |].
      assert (1 <= (8 * C - 19 * k) / (8 * k))
        by (apply Z.div_le_lower_bound; lia). lia.
    - intros Hlt. destruct (Z.lt_ge_cases (8 * C - 19 * k) 0) as [Hneg | Hpos].
      + assert ((8 * C - 19 * k) / (8 * k) < 0)
          by (apply Z.div_lt_upper_bound; lia). lia.
      + rewrite Z.div_small by lia. lia. }
  assert (w <= 56 <-> 8 * C < 475 * k) as Hw56.
  { subst w. split.
    - intros Hmax. destruct (Z.lt_ge_cases (8 * C) (475 * k)) as [| Hge]; [done |].
      assert (57 <= (8 * C - 19 * k) / (8 * k))
        by (apply Z.div_le_lower_bound; lia). lia.
    - intros Hlt. apply Z.max_lub; [lia |].
      assert ((8 * C - 19 * k) / (8 * k) < 57)
        by (apply Z.div_lt_upper_bound; lia). lia. }
  split; [| split; [| done]].
  - unfold determine_correct_offset. rewrite k_of_valid by lia. fold k.
    cbn [mbind result_bind bind].
    rewrite shiftl_u64
      by (try change (2 ^ 64) with 18446744073709551616;
          try change (2 ^ 3) with 8; lia).
    change (2 ^ 3) with 8.
    rewrite (u64_small (19 * k))
      by (change (2 ^ 64) with 18446744073709551616; lia).
    rewrite !to_signed_small
      by (try change (2 ^ (64 - 1)) with 9223372036854775808; lia).
    rewrite sub_i64_ok by (change (2 ^ 63) with 9223372036854775808; lia).
    cbn [mbind result_bind bind].
    replace (C * 8 - 19 * k) with (8 * C - 19 * k) by lia.
    destruct (Z.ltb_spec (8 * C - 19 * k) 0) as [Hneg | Hpos].
    + f_equal. subst w.
      assert ((8 * C - 19 * k) / (8 * k) < 0)
        by (apply Z.div_lt_upper_bound; lia). lia.
    + destruct (Z.ltb_spec (lgk + 3) 64); [| lia]. f_equal.
      rewrite Z.shiftr_div_pow2 by lia. rewrite Z.pow_add_r by lia.
      change (2 ^ 3) with 8. fold k. rewrite (Z.mul_comm k 8).
      assert (0 <= (8 * C - 19 * k) / (8 * k)) by (apply Z.div_pos; lia).
      subst w. rewrite Z.max_r in * by lia. apply u8_small. lia.
  - rewrite Hw0. rewrite determine_flavor_cases
      by (try change (2 ^ 59) with 576460752303423488; lia).
    fold k. split.
    + intros Hlt Heq. apply Ok_inj in Heq.
      destruct (Z.ltb_spec (8 * C) (27 * k)); [| lia].
      by repeat destruct (_ <? _); destruct (C =? 0).
    + intros Hne. destruct (Z.lt_ge_cases (8 * C) (27 * k)) as [| Hge]; [done |].
      exfalso. apply Hne. f_equal.
      destruct (Z.eqb_spec C 0); [lia |].
      destruct (Z.ltb_spec (32 * C) (3 * k)); [lia |].
      destruct (Z.ltb_spec (2 * C) k); [lia |].
      destruct (Z.ltb_spec (8 * C) (27 * k)); [lia | done].
Qed.

Lemma determine_correct_offset_closed_form_witness :
  let k := 2 ^ 4 in
  let w := Z.max 0 ((8 * 100 - 19 * k) / (8 * k)) in
  determine_correct_offset 4 100 = Ok w
  /\ (w = 0 <-> determine_flavor 4 100 <> Ok SLIDING)
  /\ (w <= 56 <-> 8 * 100 < 475 * k).
Proof.
  apply (determine_correct_offset_closed_form 4 100); [lia | by vm_compute].
Defined.

(** ** Reading back what was written *)

Lemma read_le_le_bytes (n : nat) (x : Z) (rest : list Z) :
  0 <= x < 256 ^ Z.of_nat n ->
  read_le n (le_bytes n x ++ rest) = Ok (x, rest).
Proof.
  intros Hx. unfold read_le.
  rewrite length_app, le_bytes_length.
  destruct (Nat.leb_spec n (n + length rest)); [| lia].
  rewrite take_app_length' by (by rewrite le_bytes_length).
  rewrite drop_app_length' by (by rewrite le_bytes_length).
  by rewrite le_decode_le_bytes, Z.mod_small.
Qed.

Lemma read_words_flat_map (ws rest : list Z) :
  Forall (fun w => 0 <= w < 2 ^ 32) ws ->
  read_words (length ws) (flat_map (le_bytes 4) ws ++ rest) = Ok (ws, rest).
Proof.
  induction 1 as [| w ws Hw _ IH]; [done |].
  cbn [length read_words flat_map]. rewrite <- app_assoc.
  rewrite read_le_le_bytes by (change (256 ^ Z.of_nat 4) with (2 ^ 32); done).
  cbn [mbind result_bind bind]. rewrite IH. done.
Qed.

Lemma write_words_all (data : list Z) :
  write_words (Z.of_nat (length data)) data = Ok (flat_map (le_bytes 4) data).
Proof.
  unfold write_words.
  destruct (Z.leb_spec 0 (Z.of_nat (length data))); [| lia].
  destruct (Z.leb_spec (Z.of_nat (length data)) (Z.of_nat (length data))); [| lia].
  cbn [andb]. by rewrite Nat2Z.id, firstn_all.
Qed.

Lemma flat_map_le_bytes_length (n : nat) (ws : list Z) :
  length (flat_map (le_bytes n) ws) = (n * length ws)%nat.
Proof.
  induction ws as [| w ws IH]; cbn [flat_map length]; [lia |].
  rewrite length_app, le_bytes_length, IH. lia.
Qed.

Lemma land_pow2 (x n : Z) :
  0 <= n -> Z.land x (2 ^ n) = if Z.testbit x n then 2 ^ n else 0.
Proof.
  intros Hn. apply Z.bits_inj'. intros j Hj.
  rewrite Z.land_spec, Z.pow2_bits_eqb by done.
  destruct (Z.eqb_spec n j) as [-> | Hne].
  - destruct (Z.testbit x j); [by rewrite Z.pow2_bits_true | by rewrite Z.bits_0].
  - rewrite andb_false_r.
    destruct (Z.testbit x n); [| by rewrite Z.bits_0].
    rewrite Z.pow2_bits_eqb by done. by destruct (Z.eqb_spec n j).
Qed.

Lemma flag_set_testbit (flags pos : Z) :
  0 <= pos -> flag_set flags pos = Z.testbit flags pos.
Proof.
  intros Hpos. unfold flag_set. rewrite Z.shiftl_1_l, land_pow2 by done.
  destruct (Z.testbit flags pos); [| done].
  assert (0 < 2 ^ pos) by (apply Z.pow_pos_nonneg; lia).
  destruct (Z.eqb_spec (2 ^ pos) 0); [lia | done].
Qed.

Lemma flag_bit_testbit (pos : Z) (on : bool) (j : Z) :
  0 <= pos -> 0 <= j -> Z.testbit (flag_bit pos on) j = on && (pos =? j).
Proof.
  intros Hpos Hj. unfold flag_bit. destruct on; [| by rewrite Z.bits_0].
  by rewrite Z.shiftl_1_l, Z.pow2_bits_eqb.
Qed.

Section Flags.
Context {ext : Externals}.

Lemma flags_byte_testbit (hh ht hw : bool) (j : Z) :
  flags_distinct -> 0 <= j < 8 ->
  Z.testbit (flags_byte_of hh ht hw) j
  = (IS_COMPRESSED =? j) || (hh && (HAS_HIP =? j)) || (ht && (HAS_TABLE =? j))
    || (hw && (HAS_WINDOW =? j)).
Proof.
  intros (Hc & Hh & Ht & Hw & _) Hj. unfold flags_byte_of, u8, wrap.
  rewrite Z.mod_pow2_bits_low by lia.
  rewrite !Z.lor_spec, !flag_bit_testbit by lia.
  by rewrite Z.shiftl_1_l, Z.pow2_bits_eqb by lia.
Qed.

Lemma flags_byte_read (hh ht hw : bool) :
  flags_distinct ->
  flag_set (flags_byte_of hh ht hw) HAS_HIP = hh
  /\ flag_set (flags_byte_of hh ht hw) HAS_TABLE = ht
  /\ flag_set (flags_byte_of hh ht hw) HAS_WINDOW = hw.
Proof.
  intros Hd. pose proof Hd as (Hc & Hh & Ht & Hw & H1 & H2 & H3 & H4 & H5 & H6).
  rewrite !flag_set_testbit, !flags_byte_testbit by (done || lia).
  rewrite !Z.eqb_refl.
  destruct (Z.eqb_spec IS_COMPRESSED HAS_HIP); [done |].
  destruct (Z.eqb_spec IS_COMPRESSED HAS_TABLE); [done |].
  destruct (Z.eqb_spec IS_COMPRESSED HAS_WINDOW); [done |].
  destruct (Z.eqb_spec HAS_HIP HAS_TABLE); [done |].
  destruct (Z.eqb_spec HAS_HIP HAS_WINDOW); [done |].
  destruct (Z.eqb_spec HAS_TABLE HAS_WINDOW); [done |].
  destruct (Z.eqb_spec HAS_TABLE HAS_HIP); [done |].
  destruct (Z.eqb_spec HAS_WINDOW HAS_HIP); [done |].
  destruct (Z.eqb_spec HAS_WINDOW HAS_TABLE); [done |].
  by destruct hh, ht, hw.
Qed.

End Flags.

Section RoundTrip.
Context {ext : Externals}.

Lemma get_preamble_ints_range (C : Z) (hh ht hw : bool) :
  0 <= get_preamble_ints C hh ht hw < 256 ^ Z.of_nat 1.
Proof. unfold get_preamble_ints. by destruct (C >? 0), hh, ht, hw. Qed.

Lemma u8_range (x : Z) : 0 <= u8 x < 256 ^ Z.of_nat 1.
Proof. apply Z.mod_pos_bound. lia. Qed.

Lemma u16_range (x : Z) : 0 <= u16 x < 256 ^ Z.of_nat 2.
Proof. apply Z.mod_pos_bound. lia. Qed.

Lemma read_words_flat_map_nil (ws : list Z) :
  Forall (fun w => 0 <= w < 2 ^ 32) ws ->
  read_words (length ws) (flat_map (le_bytes 4) ws) = Ok (ws, []).
Proof.
  intros Hall. rewrite <- (app_nil_r (flat_map _ _)). by apply read_words_flat_map.
Qed.

Lemma serialize_read_fields (s : cpc_sketch) (c : compressed_state) :
  flags_distinct -> fields_in_range s -> 0 < num_coupons s ->
  compress s empty_compressed = Ok c -> compressed_ok c ->
  table_data_ptr c <> None \/ window_data_ptr c <> None ->
  exists bytes,
    serialize s = Ok bytes /\ read_fields bytes = Ok (preamble_of s c, []).
Proof.
  intros Hflags (Hlg & Hfic & HC & Hkxp & Hhip) Hpos Hcomp (Htab & Hwin & Htne) Hdata.
  unfold serialize. rewrite Hcomp. cbn [mbind result_bind bind].
  unfold is_empty. destruct (Z.eqb_spec (num_coupons s) 0); [lia |]. cbn [negb].
  fold (flags_byte_of (negb (was_merged s))
          (bool_decide (table_data_ptr c ≠ None))
          (bool_decide (window_data_ptr c ≠ None))).
  unfold preamble_of, reread_compressed.
  destruct (flags_byte_read (negb (was_merged s))
              (bool_decide (table_data_ptr c ≠ None))
              (bool_decide (window_data_ptr c ≠ None)) Hflags)
    as (Hfh & Hft & Hfw).
  set (flags := flags_byte_of _ _ _) in *.
  set (pints := get_preamble_ints _ _ _ _).
  assert (0 <= pints < 256 ^ Z.of_nat 1) as Hpints by apply get_preamble_ints_range.
  assert (0 <= flags < 256 ^ Z.of_nat 1) as Hflagsr by apply u8_range.
  pose proof (u8_range SERIAL_VERSION) as Hsv. pose proof (u8_range FAMILY) as Hfam.
  pose proof (u16_range (compute_seed_hash (seed s))) as Hsh.
  unfold write_hip.
  destruct c as [tptr tdw tne wptr wdw]. cbn [table_data_ptr table_data_words
    table_num_entries window_data_ptr window_data_words] in *.
  destruct tptr as [td |], wptr as [wd |]; cbn [words_ok] in Htab, Hwin;
    try (destruct Hdata; done);
    repeat match goal with
           | H : _ = Z.of_nat _ /\ _ /\ _ |- _ =>
               let Hlen := fresh "Hlen" in
               let Hlt := fresh "Hlt" in
               let Hall := fresh "Hall" in
               destruct H as (Hlen & Hlt & Hall); subst
           end;
    change (256 ^ Z.of_nat 1) with 256 in *;
    change (256 ^ Z.of_nat 2) with 65536 in *;
    change (2 ^ 64) with 18446744073709551616 in *;
    rewrite ?bool_decide_eq_true_2 by done;
    rewrite ?bool_decide_eq_false_2 by (intros Hn; by apply Hn);
    cbn [default andb negb]; unfold id; rewrite ?write_words_all;
    cbn [mbind result_bind bind];
    (eexists; split; [reflexivity |]);
    unfold read_fields, read_hip; rewrite <- !app_assoc;
    destruct (was_merged s); cbn [negb andb app] in *;
    rewrite <- ?app_assoc;
    repeat (first
              [ rewrite read_le_le_bytes
                  by (try change (256 ^ Z.of_nat 1) with 256;
                      try change (256 ^ Z.of_nat 2) with 65536;
                      try change (256 ^ Z.of_nat 4) with (2 ^ 32);
                      try change (256 ^ Z.of_nat 8) with 18446744073709551616;
                      lia)
              | rewrite Nat2Z.id
              | rewrite read_words_flat_map by done
              | rewrite read_words_flat_map_nil by done
              | rewrite Hfh | rewrite Hft | rewrite Hfw
              | rewrite bool_decide_eq_true_2 by done
              | rewrite bool_decide_eq_false_2 by (intros Hn; by apply Hn) ];
            cbn [orb andb negb mbind result_bind bind app]);
    reflexivity.
Qed.

End RoundTrip.

Section RoundTripTheorems.
Context {ext : Externals}.

Lemma check_and_build_preamble_of (s : cpc_sketch) (c : compressed_state) :
  flags_distinct -> was_merged s = false ->
  uncompress (reread_compressed c (num_coupons s)) (lg_k s) (num_coupons s)
    = Ok (mk_uncompressed (surprising_value_table s) (sliding_window s)) ->
  determine_correct_offset (lg_k s) (num_coupons s) = Ok (window_offset s) ->
  check_and_build (preamble_of s c) (seed s) = Ok s.
Proof.
  intros Hflags Hmerged Hunc Hoff.
  unfold check_and_build, preamble_ints_ok, serial_version_ok, family_ok,
    seed_hash_ok, p_has_hip, p_has_table, p_has_window.
  unfold preamble_of.
  cbn [p_preamble_ints p_serial_version p_family_id p_lg_k p_flags_byte
       p_seed_hash p_num_coupons p_kxp p_hip_est_accum p_compressed
       p_first_interesting_column].
  destruct (flags_byte_read (negb (was_merged s))
              (bool_decide (table_data_ptr c ≠ None))
              (bool_decide (window_data_ptr c ≠ None)) Hflags)
    as (-> & -> & ->).
  rewrite !Z.eqb_refl. cbn [negb].
  rewrite Hunc. cbn [mbind result_bind bind table window].
  unfold cpc_sketch_alloc_private. rewrite Hoff. cbn [mbind result_bind bind].
  rewrite Hmerged. cbn [negb]. destruct s. cbn in *. by subst.
Qed.

(** X8.  Round trip of a sketch that holds coupons and was never merged:
    when the compressor's buffers agree with their word counts, at least one
    buffer is present, [uncompress] gives back the table and the window from
    the state [deserialize] rebuilds, and [window_offset] is the correct
    offset, then both [deserialize] overloads return the very sketch that
    [serialize] wrote. *)
Theorem serialize_deserialize (s : cpc_sketch) (c : compressed_state) :
  flags_distinct -> fields_in_range s ->
  0 < num_coupons s -> was_merged s = false ->
  compress s empty_compressed = Ok c -> compressed_ok c ->
  table_data_ptr c <> None \/ window_data_ptr c <> None ->
  uncompress (reread_compressed c (num_coupons s)) (lg_k s) (num_coupons s)
    = Ok (mk_uncompressed (surprising_value_table s) (sliding_window s)) ->
  determine_correct_offset (lg_k s) (num_coupons s) = Ok (window_offset s) ->
  exists bytes,
    serialize s = Ok bytes
    /\ deserialize bytes (seed s) = Ok s
    /\ deserialize_mem bytes (Z.of_nat (length bytes)) (seed s) = Ok s.
Proof.
  intros Hflags Hrange Hpos Hmerged Hcomp Hok Hdata Hunc Hoff.
  destruct (serialize_read_fields s c Hflags Hrange Hpos Hcomp Hok Hdata)
    as (bytes & Hser & Hread).
  exists bytes. split; [done |].
  rewrite (deserialize_complete _ _ _ _ Hread).
  unfold deserialize_mem. rewrite Hread.
  cbn [mbind result_bind bind length].
  rewrite check_and_build_preamble_of by done.
  split; [done |].
  replace (Z.of_nat (length bytes) - Z.of_nat 0 =? Z.of_nat (length bytes))
    with true by (symmetry; apply Z.eqb_eq; lia).
  done.
Qed.

Lemma get_preamble_ints_le_10 (C : Z) (hh ht hw : bool) :
  0 <= get_preamble_ints C hh ht hw <= 10.
Proof. unfold get_preamble_ints. by destruct (C >? 0), hh, ht, hw. Qed.

Lemma write_words_length (n : Z) (data bytes : list Z) :
  write_words n data = Ok bytes -> Z.of_nat (length bytes) = 4 * n.
Proof.
  unfold write_words.
  destruct (Z.leb_spec 0 n); [| discriminate].
  destruct (Z.leb_spec n (Z.of_nat (length data))); [| discriminate].
  cbn [andb]. intros Hw. apply Ok_inj in Hw as <-.
  rewrite flat_map_le_bytes_length, length_take. lia.
Qed.

(** The length of an image. *)
Lemma serialize_size (s : cpc_sketch) (c : compressed_state) (bytes : list Z) :
  0 <= num_coupons s ->
  compress s empty_compressed = Ok c ->
  serialize s = Ok bytes ->
  Z.of_nat (length bytes)
  = 4 * (get_preamble_ints (num_coupons s) (negb (was_merged s))
           (bool_decide (table_data_ptr c ≠ None))
           (bool_decide (window_data_ptr c ≠ None)) + data_words s c).
Proof.
  intros HC Hcomp. unfold serialize, data_words. rewrite Hcomp.
  cbn [mbind result_bind bind]. unfold is_empty, get_preamble_ints, write_hip.
  destruct (Z.eqb_spec (num_coupons s) 0) as [H0 | Hne]; cbn [negb].
  - intros Hser. apply Ok_inj in Hser as <-.
    destruct (Z.gtb_spec (num_coupons s) 0); [lia |]. done.
  - set (ht := bool_decide (table_data_ptr c ≠ None)).
    set (hw := bool_decide (window_data_ptr c ≠ None)).
    intros Hser. bind_inv Hser as wbytes Hwb. bind_inv Hser as tbytes Htb.
    apply Ok_inj in Hser as <-.
    destruct (Z.gtb_spec (num_coupons s) 0); [| lia].
    assert (Z.of_nat (length wbytes)
            = 4 * (if hw then window_data_words c else 0)) as Hwl.
    { destruct hw; [by eapply write_words_length |].
      by apply Ok_inj in Hwb as <-. }
    assert (Z.of_nat (length tbytes)
            = 4 * (if ht then table_data_words c else 0)) as Htl.
    { destruct ht; [by eapply write_words_length |].
      by apply Ok_inj in Htb as <-. }
    rewrite !length_app, !Nat2Z.inj_add, Hwl, Htl.
    destruct (was_merged s), ht, hw;
      cbn [negb andb length app le_bytes]; vm_compute u8; lia.
Qed.

(** X9.  [preamble_ints] is the size of the preamble: the image written by
    [serialize] has [4 * (preamble_ints + data words)] bytes, where
    [preamble_ints] is the first byte of the image. *)
Theorem serialize_length (s : cpc_sketch) (c : compressed_state) (bytes : list Z) :
  0 <= num_coupons s ->
  compress s empty_compressed = Ok c ->
  serialize s = Ok bytes ->
  let preamble_ints :=
    get_preamble_ints (num_coupons s) (negb (was_merged s))
      (bool_decide (table_data_ptr c ≠ None))
      (bool_decide (window_data_ptr c ≠ None)) in
  head bytes = Some (preamble_ints mod 256)
  /\ Z.of_nat (length bytes) = 4 * (preamble_ints + data_words s c).
Proof.
  intros HC Hcomp Hser preamble_ints.
  split; [| by apply serialize_size].
  unfold serialize in Hser. rewrite Hcomp in Hser.
  cbn [mbind result_bind bind] in Hser.
  destruct (negb (is_empty s)).
  - bind_inv Hser as wbytes Hwb. bind_inv Hser as tbytes Htb.
    by apply Ok_inj in Hser as <-.
  - by apply Ok_inj in Hser as <-.
Qed.

(** X10.  The two [serialize] overloads write the same image: when absent
    buffers have word count 0 and the sizes fit 32 bits,
    [serialize(header_size_bytes)] copies behind the header exactly the bytes
    the stream overload writes, and its size check does not fire. *)
Theorem serialize_mem_agrees (s : cpc_sketch) (c : compressed_state)
    (bytes : list Z) (header : Z) :
  0 <= header < 2 ^ 32 -> 0 <= num_coupons s ->
  compress s empty_compressed = Ok c ->
  (table_data_ptr c = None -> table_data_words c = 0) ->
  (window_data_ptr c = None -> window_data_words c = 0) ->
  (num_coupons s = 0 -> table_data_words c = 0 /\ window_data_words c = 0) ->
  0 <= table_data_words c -> 0 <= window_data_words c ->
  table_data_words c + window_data_words c < 2 ^ 32 - 10 ->
  serialize s = Ok bytes ->
  serialize_mem s header = Ok (bytes, header + Z.of_nat (length bytes)).
Proof.
  intros Hh HC Hcomp Htab0 Hwin0 Hempty Htnn Hwnn Hfit Hser.
  pose proof (serialize_size s c bytes HC Hcomp Hser) as Hlen.
  unfold data_words in Hlen.
  unfold serialize_mem. unfold serialize in Hser. rewrite Hcomp in *.
  cbn [mbind result_bind bind] in *. rewrite Hser.
  cbn [mbind result_bind bind].
  set (pints := get_preamble_ints _ _ _ _) in *.
  assert (0 <= pints <= 10) as Hp by apply get_preamble_ints_le_10.
  assert ((if bool_decide (window_data_ptr c ≠ None) then window_data_words c else 0)
          = window_data_words c) as Hw.
  { destruct (window_data_ptr c); [done |]. symmetry. by apply Hwin0. }
  assert ((if bool_decide (table_data_ptr c ≠ None) then table_data_words c else 0)
          = table_data_words c) as Ht.
  { destruct (table_data_ptr c); [done |]. symmetry. by apply Htab0. }
  rewrite Hw, Ht in Hlen.
  assert (Z.of_nat (length bytes)
          = 4 * (pints + table_data_words c + window_data_words c)) as Hlen'.
  { destruct (Z.eqb_spec (num_coupons s) 0) as [H0 |]; [| lia].
    destruct (Hempty H0). lia. }
  change (2 ^ 32) with 4294967296 in *.
  rewrite (u32_small (pints + table_data_words c))
    by (change (2 ^ 32) with 4294967296; lia).
  rewrite (u32_small (pints + table_data_words c + window_data_words c))
    by (change (2 ^ 32) with 4294967296; lia).
  rewrite (u64_small (pints + table_data_words c + window_data_words c))
    by (change (2 ^ 64) with 18446744073709551616; lia).
  rewrite (u64_small ((pints + table_data_words c + window_data_words c) * 4))
    by (change (2 ^ 64) with 18446744073709551616; lia).
  rewrite u64_small by (change (2 ^ 64) with 18446744073709551616; lia).
  replace ((pints + table_data_words c + window_data_words c) * 4)
    with (Z.of_nat (length bytes)) by lia.
  destruct (Z.gtb_spec (header + Z.of_nat (length bytes))
              (header + Z.of_nat (length bytes))); [lia |].
  by rewrite Z.eqb_refl.
Qed.

End RoundTripTheorems.

Lemma serialize_deserialize_witness :
  exists s0 s bytes,
    cpc_sketch_alloc 4 0 = Ok s0 /\ row_col_update s0 323 = Ok s
    /\ serialize s = Ok bytes
    /\ deserialize bytes (seed s) = Ok s
    /\ deserialize_mem bytes (Z.of_nat (length bytes)) (seed s) = Ok s.
Proof.
  destruct (cpc_sketch_alloc 4 0) as [s0 | |] eqn:H0; try by vm_compute in H0.
  destruct (row_col_update s0 323) as [s | |] eqn:H1;
    try (injection H0 as <-; by vm_compute in H1).
  assert (exists c,
    compress s empty_compressed = Ok c
    /\ fields_in_range s /\ 0 < num_coupons s /\ was_merged s = false
    /\ compressed_ok c
    /\ (table_data_ptr c <> None \/ window_data_ptr c <> None)
    /\ uncompress (reread_compressed c (num_coupons s)) (lg_k s) (num_coupons s)
       = Ok (mk_uncompressed (surprising_value_table s) (sliding_window s))
    /\ determine_correct_offset (lg_k s) (num_coupons s) = Ok (window_offset s))
    as (c & Hcomp & Hrange & Hpos & Hmerged & Hok & Hdata & Hunc & Hoff).
  { injection H0 as <-. vm_compute in H1. injection H1 as <-.
    eexists. split; [by vm_compute |].
    unfold fields_in_range, compressed_ok, words_ok.
    cbn [lg_k first_interesting_column num_coupons kxp hip_est_accum was_merged
         table_data_ptr table_data_words window_data_ptr window_data_words
         table_num_entries surprising_value_table sliding_window window_offset].
    split. { repeat split; by vm_compute. }
    split; [by vm_compute |]. split; [reflexivity |].
    split.
    { split; [split; [reflexivity | split; [by vm_compute |]] |].
      - apply Forall_cons. split; [by vm_compute | apply Forall_nil_2].
      - split; [exact I | by vm_compute]. }
    split; [by left |]. split; by vm_compute. }
  assert (flags_distinct) as Hflags by (repeat split; by vm_compute).
  destruct (serialize_deserialize s c Hflags Hrange Hpos Hmerged Hcomp Hok Hdata
              Hunc Hoff) as (bytes & Hser & Hde & Hmem).
  exists s0, s, bytes. repeat split; assumption.
Defined.

Lemma serialize_length_witness :
  exists s0 s c bytes,
    cpc_sketch_alloc 4 0 = Ok s0 /\ row_col_update s0 323 = Ok s
    /\ compress s empty_compressed = Ok c /\ serialize s = Ok bytes
    /\ head bytes
       = Some (get_preamble_ints (num_coupons s) (negb (was_merged s))
                 (bool_decide (table_data_ptr c ≠ None))
                 (bool_decide (window_data_ptr c ≠ None)) mod 256)
    /\ Z.of_nat (length bytes)
       = 4 * (get_preamble_ints (num_coupons s) (negb (was_merged s))
                (bool_decide (table_data_ptr c ≠ None))
                (bool_decide (window_data_ptr c ≠ None)) + data_words s c).
Proof.
  destruct (cpc_sketch_alloc 4 0) as [s0 | |] eqn:H0; try by vm_compute in H0.
  destruct (row_col_update s0 323) as [s | |] eqn:H1;
    try (injection H0 as <-; by vm_compute in H1).
  destruct (compress s empty_compressed) as [c | |] eqn:Hcomp; try done.
  destruct (serialize s) as [bytes | |] eqn:Hser;
    try (injection H0 as <-; vm_compute in H1; injection H1 as <-;
         by vm_compute in Hser).
  assert (0 <= num_coupons s) as Hc
    by (injection H0 as <-; vm_compute in H1; injection H1 as <-; by vm_compute).
  destruct (serialize_length s c bytes Hc Hcomp Hser) as [Hhead Hlen].
  exists s0, s, c, bytes. repeat split; assumption.
Defined.

Lemma serialize_mem_agrees_witness :
  exists s0 s bytes,
    cpc_sketch_alloc 4 0 = Ok s0 /\ row_col_update s0 323 = Ok s
    /\ serialize s = Ok bytes
    /\ serialize_mem s 16 = Ok (bytes, 16 + Z.of_nat (length bytes)).
Proof.
  destruct (cpc_sketch_alloc 4 0) as [s0 | |] eqn:H0; try by vm_compute in H0.
  destruct (row_col_update s0 323) as [s | |] eqn:H1;
    try (injection H0 as <-; by vm_compute in H1).
  destruct (compress s empty_compressed) as [c | |] eqn:Hcomp; try done.
  destruct (serialize s) as [bytes | |] eqn:Hser;
    try (injection H0 as <-; vm_compute in H1; injection H1 as <-;
         by vm_compute in Hser).
  assert (0 <= num_coupons s
          /\ (table_data_ptr c = None -> table_data_words c = 0)
          /\ (window_data_ptr c = None -> window_data_words c = 0)
          /\ (num_coupons s = 0 -> table_data_words c = 0 /\ window_data_words c = 0)
          /\ 0 <= table_data_words c /\ 0 <= window_data_words c
          /\ table_data_words c + window_data_words c < 2 ^ 32 - 10)
    as (Hc & Htab0 & Hwin0 & Hempty & Htnn & Hwnn & Hfit).
  { injection H0 as <-. vm_compute in H1. injection H1 as <-.
    vm_compute in Hcomp. injection Hcomp as <-.
    cbn [num_coupons table_data_ptr table_data_words window_data_ptr
         window_data_words].
    split; [by vm_compute |]. split; [done |]. split; [done |].
    split; [intros Hz; by vm_compute in Hz |].
    split; [by vm_compute |]. split; by vm_compute. }
  exists s0, s, bytes. split; [reflexivity |]. split; [exact H1 |].
  split; [exact Hser |].
  apply (serialize_mem_agrees s c bytes 16); try assumption.
  by vm_compute.
Defined.

(** ** Duplicates *)

Lemma set_table_same (s : cpc_sketch) : set_table s (surprising_value_table s) = s.
Proof. by destruct s. Qed.

Lemma maybe_insert_spec (t : list Z) (item : Z) :
  ((item ∈ t) /\ maybe_insert t item = (t, false))
  \/ ((item ∉ t) /\ maybe_insert t item = (t ++ [item], true)).
Proof.
  unfold maybe_insert. destruct (decide (item ∈ t)) as [Hin | Hout].
  - left. by rewrite bool_decide_eq_true_2.
  - right. by rewrite bool_decide_eq_false_2.
Qed.

Lemma maybe_delete_spec (t : list Z) (item : Z) :
  ((item ∈ t) /\ maybe_delete t item = (filter (fun x => x ≠ item) t, true))
  \/ ((item ∉ t) /\ maybe_delete t item = (t, false)).
Proof.
  unfold maybe_delete. destruct (decide (item ∈ t)) as [Hin | Hout].
  - left. by rewrite bool_decide_eq_true_2.
  - right. by rewrite bool_decide_eq_false_2.
Qed.

Lemma u8_lor_idem (old bit : Z) :
  u8 (Z.lor (u8 (Z.lor old bit)) bit) = u8 (Z.lor old bit).
Proof.
  unfold u8, wrap. rewrite <- !Z.land_ones by lia.
  apply Z.bits_inj'. intros j Hj.
  rewrite !Z.land_spec, !Z.lor_spec, !Z.land_spec, !Z.lor_spec.
  by destruct (Z.testbit old j), (Z.testbit bit j), (Z.testbit (Z.ones 8) j).
Qed.

Lemma update_sparse_duplicate (s s' : cpc_sketch) (row_col : Z) :
  offset_invariant s -> sliding_window s = [] ->
  update_sparse s row_col = Ok s' -> sliding_window s' = [] ->
  update_sparse s' row_col = Ok s'.
Proof.
  intros (Hlg & Hc & Hw & Hstep & Hsparse) Hnil Hrun Hnil'.
  destruct (Hsparse Hnil) as [Hw0 Hc32].
  pose proof (pow2_bounds (lg_k s) 26 ltac:(lia)) as Hk.
  pose proof (pow2_bounds 4 (lg_k s) ltac:(lia)) as Hk4.
  change (2 ^ 26) with 67108864 in Hk. change (2 ^ 4) with 16 in Hk4.
  change (2 ^ 27) with 134217728 in Hc.
  unfold update_sparse in Hrun. rewrite k_of_valid in Hrun by lia.
  cbn [mbind result_bind bind] in Hrun.
  rewrite (u64_small (3 * 2 ^ lg_k s)) in Hrun
    by (change (2 ^ 64) with 18446744073709551616; lia).
  destruct (_ >=? _); [discriminate |].
  destruct (maybe_insert_spec (surprising_value_table s) row_col)
    as [[Hin Hins] | [Hout Hins]]; rewrite Hins in Hrun.
  - apply Ok_inj in Hrun as <-. rewrite set_table_same.
    unfold update_sparse. rewrite k_of_valid by lia.
    cbn [mbind result_bind bind].
    rewrite (u64_small (3 * 2 ^ lg_k s))
      by (change (2 ^ 64) with 18446744073709551616; lia).
    rewrite Z.shiftl_mul_pow2 by lia. change (2 ^ 5) with 32.
    rewrite u32_small by (change (2 ^ 32) with 4294967296; lia).
    destruct (Z.geb_spec (num_coupons s * 32) (3 * 2 ^ lg_k s)); [lia |].
    rewrite Hins. by rewrite set_table_same.
  - bind_inv Hrun as s1 Hhip. apply update_hip_frame in Hhip as (x & h & ->).
    sketch_fields.
    rewrite (u32_small (num_coupons s + 1)) in Hrun
      by (change (2 ^ 32) with 4294967296; lia).
    rewrite Z.shiftl_mul_pow2 in Hrun by lia. change (2 ^ 5) with 32 in Hrun.
    rewrite u32_small in Hrun by (change (2 ^ 32) with 4294967296; lia).
    destruct (Z.geb_spec ((num_coupons s + 1) * 32) (3 * 2 ^ lg_k s)) as [Hge | Hlt].
    + apply promote_sparse_to_windowed_shape in Hrun
        as (k & w & t' & Hk' & -> & Hlen & _).
      sketch_fields. rewrite k_of_valid in Hk' by lia. apply Ok_inj in Hk' as <-.
      subst w. simpl in Hlen. lia.
    + apply Ok_inj in Hrun as <-.
      unfold update_sparse. sketch_fields. rewrite k_of_valid by lia.
      cbn [mbind result_bind bind].
      rewrite (u64_small (3 * 2 ^ lg_k s))
        by (change (2 ^ 64) with 18446744073709551616; lia).
      rewrite Z.shiftl_mul_pow2 by lia. change (2 ^ 5) with 32.
      rewrite u32_small by (change (2 ^ 32) with 4294967296; lia).
      destruct (Z.geb_spec ((num_coupons s + 1) * 32) (3 * 2 ^ lg_k s)); [lia |].
      destruct (maybe_insert_spec (surprising_value_table s ++ [row_col]) row_col)
        as [[_ ->] | [Hout' _]]; [done |].
      exfalso. apply Hout'. apply elem_of_app. right. by apply list_elem_of_singleton.
Qed.

Lemma vec_get_vec_set (v v' : list Z) (i x : Z) :
  vec_set v i x = Ok v' -> vec_get v' i = Ok x.
Proof.
  unfold vec_set, vec_get. destruct (_ && _) eqn:Hin; [| discriminate].
  intros Hset. apply Ok_inj in Hset as <-.
  rewrite length_insert, Hin.
  rewrite list_lookup_insert_eq; [done |].
  apply andb_true_iff in Hin as [Hlo Hhi]. lia.
Qed.

Lemma update_windowed_duplicate (s s' : cpc_sketch) (row_col : Z) :
  offset_invariant s ->
  update_windowed s row_col = Ok s' ->
  window_offset s' = window_offset s -> num_coupons s' < 2 ^ 27 ->
  update_windowed s' row_col = Ok s'.
Proof.
  intros (Hlg & Hc & Hw & Hstep & Hsparse) Hrun Hsame Hc'.
  pose proof Hrun as Hrun0.
  pose proof (pow2_bounds (lg_k s) 26 ltac:(lia)) as Hk.
  pose proof (pow2_bounds 4 (lg_k s) ltac:(lia)) as Hk4.
  change (2 ^ 26) with 67108864 in Hk. change (2 ^ 4) with 16 in Hk4.
  change (2 ^ 27) with 134217728 in Hc, Hc'.
  unfold update_windowed in Hrun.
  destruct (Z.gtb_spec (window_offset s) 56) as [| Hw56]; [discriminate |].
  rewrite k_of_valid in Hrun by lia. cbn [mbind result_bind bind] in Hrun.
  rewrite (u64_small (3 * 2 ^ lg_k s)) in Hrun
    by (change (2 ^ 64) with 18446744073709551616; lia).
  rewrite !Z.shiftl_mul_pow2 in Hrun by lia.
  change (2 ^ 5) with 32 in Hrun. change (2 ^ 3) with 8 in Hrun.
  destruct (Z.ltb_spec (u32 (num_coupons s * 32)) (3 * 2 ^ lg_k s)) as [| H32];
    [discriminate |].
  assert (num_coupons s < 134217728) as Hclt.
  { destruct (Z.eq_dec (num_coupons s) 134217728) as [Heq |]; [| lia].
    rewrite Heq in H32. change (u32 (134217728 * 32)) with 0 in H32. lia. }
  rewrite u32_small in H32 by (change (2 ^ 32) with 4294967296; lia).
  rewrite (u32_small (num_coupons s * 8)) in Hrun
    by (change (2 ^ 32) with 4294967296; lia).
  bind_inv Hrun as w8 Hw8.
  pose proof (shl_int_small (window_offset s) 3 w8 ltac:(lia) ltac:(lia)
                ltac:(change (2 ^ 3) with 8; change (2 ^ 31) with 2147483648; lia)
                Hw8) as Hw8v.
  change (2 ^ 3) with 8 in Hw8v.
  rewrite (u64_small ((27 + w8) * 2 ^ lg_k s)) in Hrun
    by (change (2 ^ 64) with 18446744073709551616; nia).
  destruct (Z.geb_spec (num_coupons s * 8) ((27 + w8) * 2 ^ lg_k s)) as [| H8];
    [discriminate |].
  assert (forall s1 : cpc_sketch,
    lg_k s1 = lg_k s -> window_offset s1 = window_offset s ->
    num_coupons s1 = num_coupons s + 1 ->
    num_coupons s1 * 8 < (27 + w8) * 2 ^ lg_k s ->
    num_coupons s1 < 134217728 ->
    (window_offset s1 >? 56) = false
    /\ k_of (lg_k s1) = Ok (2 ^ lg_k s)
    /\ (u32 (Z.shiftl (num_coupons s1) 5) <? u64 (3 * 2 ^ lg_k s)) = false
    /\ shl_int (window_offset s1) 3 = Ok w8
    /\ (u32 (Z.shiftl (num_coupons s1) 3) >=? u64 ((27 + w8) * 2 ^ lg_k s))
       = false) as Hchecks.
  { intros s1 Hlg1 Hw1 Hc1 Hc8 Hc27.
    rewrite Hlg1, Hw1, !Z.shiftl_mul_pow2 by lia.
    change (2 ^ 5) with 32. change (2 ^ 3) with 8.
    rewrite !u32_small by (change (2 ^ 32) with 4294967296; lia).
    rewrite !u64_small by (change (2 ^ 64) with 18446744073709551616; nia).
    repeat split.
    - destruct (Z.gtb_spec (window_offset s) 56); [lia | done].
    - apply k_of_valid. lia.
    - destruct (Z.ltb_spec (num_coupons s1 * 32) (3 * 2 ^ lg_k s)); [lia | done].
    - done.
    - destruct (Z.geb_spec (num_coupons s1 * 8) ((27 + w8) * 2 ^ lg_k s));
        [lia | done]. }
  assert (forall s0 s1 : cpc_sketch,
    (s2 ← update_hip (set_num_coupons s0 (u32 (num_coupons s0 + 1))) row_col;
     if u32 (Z.shiftl (num_coupons s2) 3) >=? (27 + w8) * 2 ^ lg_k s
     then s3 ← move_window s2;
          (if (window_offset s3 <? 1) || (window_offset s3 >? 56)
           then Throw (logic_error "wrong window offset")
           else w8post ← shl_int (window_offset s3) 3;
                if u32 (Z.shiftl (num_coupons s2) 3) >=? u64 ((27 + w8post) * 2 ^ lg_k s)
                then Throw (logic_error "c8pre is wrong")
                else Ok s3)
     else Ok s2) = Ok s1 ->
    lg_k s0 = lg_k s -> window_offset s0 = window_offset s ->
    num_coupons s0 = num_coupons s ->
    window_offset s1 = window_offset s -> num_coupons s1 < 134217728 ->
    (exists x h, s1 = set_hip (set_num_coupons s0 (num_coupons s + 1)) x h)
    /\ lg_k s1 = lg_k s
    /\ num_coupons s1 = num_coupons s + 1
    /\ num_coupons s1 * 8 < (27 + w8) * 2 ^ lg_k s) as Hnovel.
  { intros s0 s1 Hr Hlg0 Hw0 Hc0 Hsame1 Hc1.
    bind_inv Hr as s2 Hhip. apply update_hip_frame in Hhip as (x & h & ->).
    sketch_fields. rewrite Hc0 in *.
    rewrite (u32_small (num_coupons s + 1)) in *
      by (change (2 ^ 32) with 4294967296; lia).
    rewrite !Z.shiftl_mul_pow2 in Hr by lia. change (2 ^ 3) with 8 in Hr.
    rewrite (u32_small ((num_coupons s + 1) * 8)) in Hr
      by (change (2 ^ 32) with 4294967296; lia).
    destruct (Z.geb_spec ((num_coupons s + 1) * 8) ((27 + w8) * 2 ^ lg_k s)).
    - bind_inv Hr as s3 Hmv.
      apply move_window_shape in Hmv as (_ & _ & _ & _ & Hw3 & Hw3' & _).
      sketch_fields. rewrite Hw0 in Hw3.
      rewrite u8_small in Hw3 by lia.
      destruct (_ || _); [discriminate |].
      bind_inv Hr as w8post Hw8post.
      destruct (_ >=? _); [discriminate |].
      apply Ok_inj in Hr as <-. lia.
    - apply Ok_inj in Hr as <-. sketch_fields.
      split; [by eauto | repeat split; first [done | lia]]. }
  assert (forall s1 : cpc_sketch,
    lg_k s1 = lg_k s -> window_offset s1 = window_offset s ->
    num_coupons s1 = num_coupons s + 1 ->
    num_coupons s1 * 8 < (27 + w8) * 2 ^ lg_k s ->
    num_coupons s1 < 134217728 ->
    forall rest : cpc_sketch -> Z -> Z -> result cpc_sketch,
      rest s1 (2 ^ lg_k s) w8 = Ok s1 ->
      (if window_offset s1 >? 56 then Throw (logic_error "wrong window offset")
       else
         k ← k_of (lg_k s1);
         if u32 (Z.shiftl (num_coupons s1) 5) <? u64 (3 * k)
         then Throw (logic_error "c32pre < 3 * k")
         else
           w8pre ← shl_int (window_offset s1) 3;
           if u32 (Z.shiftl (num_coupons s1) 3) >=? u64 ((27 + w8pre) * k)
           then Throw (logic_error "c8pre is wrong")
           else rest s1 k w8pre) = Ok s1) as Hrerun.
  { intros s1 Hlg1 Hw1 Hc1 Hc8 Hc27 rest Hrest.
    destruct (Hchecks s1 Hlg1 Hw1 Hc1 Hc8 Hc27) as (E1 & E2 & E3 & E4 & E5).
    rewrite E1, E2. cbn [mbind result_bind bind].
    rewrite E3, E4. cbn [mbind result_bind bind]. by rewrite E5. }
  clear Hchecks.
  destruct (Z.ltb_spec (u8 (Z.land row_col 63)) (window_offset s)) as [Hearly | Hnot].
  - destruct (maybe_delete_spec (surprising_value_table s) row_col)
      as [[Hin Hdel] | [Hout Hdel]]; rewrite Hdel in Hrun;
      cbn [mbind result_bind bind] in Hrun.
    + destruct (Hnovel _ _ Hrun eq_refl eq_refl eq_refl Hsame Hc')
        as ((x & h & Hs') & Hlg1 & Hc1 & Hc8).
      unfold update_windowed.
      apply (Hrerun s' Hlg1 Hsame Hc1 Hc8 Hc' (fun s1 k w8pre => _)).
      rewrite Hs'. sketch_fields.
      destruct (Z.ltb_spec (u8 (Z.land row_col 63)) (window_offset s)); [| lia].
      destruct (maybe_delete_spec
                  (filter (fun x => x ≠ row_col) (surprising_value_table s)) row_col)
        as [[Hin' _] | [_ ->]].
      * apply list_elem_of_filter in Hin' as [Hne _]. by destruct Hne.
      * cbn [mbind result_bind bind]. by destruct s.
    + apply Ok_inj in Hrun as <-. by rewrite set_table_same in *.
  - destruct (Z.ltb_spec (u8 (Z.land row_col 63)) (window_offset s + 8)) as [Hin8 | Hlate].
    + bind_inv Hrun as [s1 novel] Hzone.
      bind_inv Hzone as old Hold. bind_inv Hzone as bit Hbit.
      destruct (Z.eqb_spec (u8 (Z.lor old bit)) old) as [Heq | Hne];
        cbn [negb] in Hzone.
      * apply Ok_inj in Hzone. injection Hzone as <- <-.
        by apply Ok_inj in Hrun as <-.
      * bind_inv Hzone as w' Hset. apply Ok_inj in Hzone.
        injection Hzone as <- <-.
          destruct (Hnovel _ _ Hrun eq_refl eq_refl eq_refl Hsame Hc')
          as ((x & h & Hs') & Hlg1 & Hc1 & Hc8).
        unfold update_windowed.
        apply (Hrerun s' Hlg1 Hsame Hc1 Hc8 Hc' (fun s1 k w8pre => _)).
        rewrite Hs'. sketch_fields.
        destruct (Z.ltb_spec (u8 (Z.land row_col 63)) (window_offset s)); [lia |].
        destruct (Z.ltb_spec (u8 (Z.land row_col 63)) (window_offset s + 8)); [| lia].
        rewrite (vec_get_vec_set _ _ _ _ Hset). cbn [mbind result_bind bind].
        rewrite Hbit. cbn [mbind result_bind bind].
        rewrite u8_lor_idem, Z.eqb_refl. done.
    + destruct (maybe_insert_spec (surprising_value_table s) row_col)
        as [[Hin Hins] | [Hout Hins]]; rewrite Hins in Hrun;
        cbn [mbind result_bind bind] in Hrun.
      * apply Ok_inj in Hrun as <-. by rewrite set_table_same in *.
      * destruct (Hnovel _ _ Hrun eq_refl eq_refl eq_refl Hsame Hc')
          as ((x & h & Hs') & Hlg1 & Hc1 & Hc8).
        unfold update_windowed.
        apply (Hrerun s' Hlg1 Hsame Hc1 Hc8 Hc' (fun s1 k w8pre => _)).
        rewrite Hs'. sketch_fields.
        destruct (Z.ltb_spec (u8 (Z.land row_col 63)) (window_offset s)); [lia |].
        destruct (Z.ltb_spec (u8 (Z.land row_col 63)) (window_offset s + 8)); [lia |].
        destruct (maybe_insert_spec (surprising_value_table s ++ [row_col]) row_col)
          as [[_ ->] | [Hout' _]].
        -- cbn [mbind result_bind bind]. by destruct s.
        -- exfalso. apply Hout'. apply elem_of_app. right.
           by apply list_elem_of_singleton.
Qed.

(** ** Duplicate coupons *)

(** X11.  Duplicates are ignored: once a coupon has been taken in by a call
    of [row_col_update] that neither promoted the sketch nor moved its
    window, and the count is below 2^27, offering the same coupon again
    returns the sketch unchanged. *)
Theorem row_col_update_duplicate (s s' : cpc_sketch) (row_col : Z) :
  offset_invariant s ->
  row_col_update s row_col = Ok s' ->
  window_offset s' = window_offset s ->
  (sliding_window s = [] -> sliding_window s' = []) ->
  num_coupons s' < 2 ^ 27 ->
  row_col_update s' row_col = Ok s'.
Proof.
  intros Hinv Hrun Hsame Hnil Hc'.
  destruct (row_col_update_shape s s' row_col Hrun)
    as (_ & _ & _ & _ & Hlen & _ & Hfic).
  assert (first_interesting_column s' = first_interesting_column s) as Hf.
  { destruct Hfic as [[_ Hf] | (Hw' & _)]; [done |].
    destruct Hinv as (_ & _ & Hw & _). rewrite u8_small in Hw' by lia. lia. }
  unfold row_col_update in *. rewrite Hf.
  destruct (_ <? first_interesting_column s); [done |].
  destruct (Z.eqb_spec (Z.of_nat (length (sliding_window s))) 0) as [Hl | Hl].
  - assert (sliding_window s = []) as Hn
      by (destruct (sliding_window s); [done | simpl in Hl; lia]).
    rewrite (Hnil Hn). cbn [length Z.of_nat Z.eqb].
    by apply update_sparse_duplicate with s; auto.
  - assert (sliding_window s <> []) as Hn by (intros Hn; by rewrite Hn in Hl).
    rewrite (Hlen Hn).
    destruct (Z.eqb_spec (Z.of_nat (length (sliding_window s))) 0); [lia |].
    by apply update_windowed_duplicate with s.
Qed.

Lemma row_col_update_duplicate_witness :
  exists s0 s,
    cpc_sketch_alloc 4 0 = Ok s0
    /\ row_col_update s0 323 = Ok s
    /\ num_coupons s = 1
    /\ row_col_update s 323 = Ok s.
Proof.
  destruct (cpc_sketch_alloc 4 0) as [s0 | |] eqn:H0; try by vm_compute in H0.
  destruct (row_col_update s0 323) as [s | |] eqn:H1;
    try (injection H0 as <-; by vm_compute in H1).
  assert (num_coupons s = 1 /\ window_offset s = window_offset s0
          /\ sliding_window s = []) as (Hc & Hw & Hnil)
    by (injection H0 as <-; vm_compute in H1; by injection H1 as <-).
  exists s0, s. repeat split; try done.
  apply (row_col_update_duplicate s0 s 323); try done.
  - eapply cpc_sketch_alloc_invariant. exact H0.
  - rewrite Hc. done.
Defined.

(** ** The bit matrix of a sparse sketch *)

Lemma popcount_nonneg (x : Z) : 0 <= popcount x.
Proof.
  destruct x as [| p |]; simpl; try lia.
  induction p; simpl; lia.
Qed.

Lemma popcount_double (y : Z) (b : bool) :
  0 <= y -> popcount (2 * y + Z.b2z b) = popcount y + Z.b2z b.
Proof.
  intros Hy. destruct y as [| p |], b; simpl; rewrite ?Pos.mul_1_l; lia.
Qed.

Lemma lxor_double (a b : Z) (bo : bool) :
  Z.lxor (2 * a + Z.b2z bo) (2 * b) = 2 * Z.lxor a b + Z.b2z bo.
Proof.
  apply Z.bits_inj'. intros j Hj.
  rewrite Z.lxor_spec.
  destruct (Z.eq_dec j 0) as [-> | Hnz].
  - rewrite !Z.testbit_0_r.
    replace (2 * b) with (2 * b + Z.b2z false) by (simpl; lia).
    rewrite Z.testbit_0_r. by destruct bo.
  - replace j with (Z.succ (j - 1)) by lia.
    rewrite !Z.testbit_succ_r by lia.
    replace (2 * b) with (2 * b + Z.b2z false) by (simpl; lia).
    rewrite Z.testbit_succ_r by lia. by rewrite Z.lxor_spec.
Qed.

Lemma popcount_flip (c : Z) :
  0 <= c -> forall x, 0 <= x -> Z.testbit x c = false ->
  0 <= Z.lxor x (2 ^ c) /\ popcount (Z.lxor x (2 ^ c)) = popcount x + 1.
Proof.
  intros Hc. pattern c. apply natlike_ind; [| | done].
  - intros x Hx Hbit.
    assert (exists y b, 0 <= y /\ x = 2 * y + Z.b2z b) as (y & b & Hy & ->)
      by (exists (Z.div2 x), (Z.odd x);
          split; [by apply Z.div2_nonneg | apply Z.div2_odd]).
    rewrite Z.testbit_0_r in Hbit. subst b.
    change (2 ^ 0) with (2 * 0 + Z.b2z true).
    rewrite Z.lxor_comm.
    replace (2 * y + Z.b2z false) with (2 * y) by (simpl; lia).
    rewrite lxor_double, Z.lxor_0_l.
    rewrite popcount_double by done.
    replace (2 * y) with (2 * y + Z.b2z false) at 2 by (simpl; lia).
    rewrite popcount_double by done. simpl. lia.
  - intros n Hn IH x Hx Hbit.
    assert (exists y b, 0 <= y /\ x = 2 * y + Z.b2z b) as (y & b & Hy & ->)
      by (exists (Z.div2 x), (Z.odd x);
          split; [by apply Z.div2_nonneg | apply Z.div2_odd]).
    rewrite Z.testbit_succ_r in Hbit by done.
    rewrite Z.pow_succ_r by done.
    rewrite lxor_double.
    destruct (IH y Hy Hbit) as [Hnn Hpc].
    rewrite !popcount_double by done.
    destruct b; simpl; lia.
Qed.

Lemma count_bits_replicate_zero (n : nat) (len : Z) :
  count_bits_set_in_matrix (replicate n 0) len = 0.
Proof.
  unfold count_bits_set_in_matrix. rewrite take_replicate.
  induction (Nat.min (Z.to_nat len) n) as [| m IH]; [done |].
  simpl. by rewrite IH.
Qed.

Lemma count_bits_insert (m : list Z) (i : nat) (old new : Z) :
  m !! i = Some old ->
  foldr (fun w acc => popcount w + acc) 0 (<[i := new]> m)
  = foldr (fun w acc => popcount w + acc) 0 m - popcount old + popcount new.
Proof.
  revert i. induction m as [| x m IH]; intros [| i] Hlook; try done.
  - simpl in *. injection Hlook as ->. lia.
  - simpl in *. rewrite (IH i Hlook). lia.
Qed.

Lemma row_col_split (rc : Z) :
  0 <= rc -> rc = 64 * Z.shiftr rc 6 + Z.land rc 63 /\ 0 <= Z.shiftr rc 6
             /\ 0 <= Z.land rc 63 < 64.
Proof.
  intros Hrc. rewrite Z.shiftr_div_pow2 by lia.
  change 63 with (Z.ones 6). rewrite Z.land_ones by lia. change (2 ^ 6) with 64.
  pose proof (Z.div_mod rc 64 ltac:(lia)).
  pose proof (Z.mod_pos_bound rc 64 ltac:(lia)).
  assert (0 <= rc / 64) by (apply Z.div_pos; lia). lia.
Qed.

Lemma build_bit_matrix_table (k : Z) (table : list Z) :
  0 < k <= 2 ^ 26 ->
  forall matrix : list Z,
    NoDup table ->
    (forall rc, rc ∈ table ->
       0 <= rc /\ Z.shiftr rc 6 < k /\ Z.land rc 63 <= 30) ->
    length matrix = Z.to_nat k ->
    Forall (fun x => 0 <= x) matrix ->
    (forall rc old, rc ∈ table ->
       matrix !! Z.to_nat (Z.shiftr rc 6) = Some old ->
       Z.testbit old (Z.land rc 63) = false) ->
    exists matrix',
      for_each table (fun row_col matrix =>
        if row_col =? UINT32_MAX then Ok matrix
        else
          bit ← shl_int 1 (u8 (Z.land row_col 63));
          old ← vec_get matrix (Z.shiftr row_col 6);
          vec_set matrix (Z.shiftr row_col 6) (Z.lxor old (u64 bit)))
        matrix = Ok matrix'
      /\ length matrix' = Z.to_nat k
      /\ foldr (fun w acc => popcount w + acc) 0 matrix'
         = foldr (fun w acc => popcount w + acc) 0 matrix
           + Z.of_nat (length table).
Proof.
  intros Hk. change (2 ^ 26) with 67108864 in Hk.
  induction table as [| rc table IH]; intros matrix Hnodup Hcodes Hlen Hpos Hclear.
  { exists matrix. simpl. repeat split; try done. lia. }
  apply NoDup_cons in Hnodup as [Hfresh Hnodup].
  destruct (Hcodes rc ltac:(left)) as (Hrc & Hrow & Hcol).
  destruct (row_col_split rc Hrc) as (Hsplit & Hrow0 & Hcol0).
  cbn [for_each].
  destruct (Z.eqb_spec rc UINT32_MAX) as [Hmax |].
  { unfold UINT32_MAX in Hmax. change (2 ^ 32 - 1) with 4294967295 in Hmax. lia. }
  rewrite u8_small by lia. rewrite shl_int_1 by lia.
  cbn [mbind result_bind bind].
  destruct (lookup_lt_is_Some_2 matrix (Z.to_nat (Z.shiftr rc 6)) ltac:(lia))
    as [old Hold].
  assert (vec_get matrix (Z.shiftr rc 6) = Ok old) as ->.
  { unfold vec_get. rewrite Hold.
    destruct (Z.leb_spec 0 (Z.shiftr rc 6)); [| lia].
    destruct (Z.ltb_spec (Z.shiftr rc 6) (Z.of_nat (length matrix))); [done | lia]. }
  cbn [mbind result_bind bind].
  pose proof (pow2_bounds (Z.land rc 63) 30 ltac:(lia)) as Hp.
  change (2 ^ 30) with 1073741824 in Hp.
  rewrite u64_small by (change (2 ^ 64) with 18446744073709551616; lia).
  assert (0 <= old) as Hold0
    by (eapply (proj1 (Forall_forall _ _) Hpos), list_elem_of_lookup_2, Hold).
  destruct (popcount_flip (Z.land rc 63) ltac:(lia) old Hold0
              (Hclear rc old ltac:(left) Hold)) as [Hnew0 Hcount].
  unfold vec_set.
  destruct (Z.leb_spec 0 (Z.shiftr rc 6)); [| lia].
  destruct (Z.ltb_spec (Z.shiftr rc 6) (Z.of_nat (length matrix))); [| lia].
  cbn [andb mbind result_bind bind].
  destruct (IH (<[Z.to_nat (Z.shiftr rc 6) := Z.lxor old (2 ^ Z.land rc 63)]> matrix))
    as (matrix' & Hrun & Hlen' & Hsum).
  - done.
  - intros rc' Hin. apply Hcodes. by right.
  - by rewrite length_insert.
  - apply Forall_insert; done.
  - intros rc' old' Hin Hlook.
    destruct (Hcodes rc' ltac:(by right)) as (Hrc' & _ & _).
    destruct (row_col_split rc' Hrc') as (Hsplit' & Hrow0' & Hcol0').
    destruct (Z.eq_dec (Z.shiftr rc' 6) (Z.shiftr rc 6)) as [Hsame | Hdiff].
    + rewrite Hsame in Hlook.
      rewrite list_lookup_insert_eq in Hlook by lia. injection Hlook as <-.
      rewrite Z.lxor_spec, (Hclear rc' old ltac:(by right)) by (by rewrite Hsame).
      rewrite Z.pow2_bits_eqb by lia.
      destruct (Z.eqb_spec (Z.land rc 63) (Z.land rc' 63)) as [Hcols |]; [| done].
      exfalso. apply Hfresh. replace rc with rc' by lia. done.
    + rewrite list_lookup_insert_ne in Hlook by lia.
      by apply (Hclear rc' old'); [right |].
  - exists matrix'. split; [done |]. split; [done |].
    rewrite Hsum, (count_bits_insert _ _ old) by done.
    cbn [length]. lia.
Qed.

(** ** Validation of sparse sketches *)

(** X12.  [validate] accepts every sketch without a window whose table holds
    [num_coupons] distinct codes with row below [k] and column at most 30:
    [build_bit_matrix] sets one bit per code, and the bit count is
    [num_coupons]. *)
Theorem validate_sparse (s : cpc_sketch) :
  4 <= lg_k s <= 26 ->
  sliding_window s = [] -> window_offset s = 0 ->
  NoDup (surprising_value_table s) ->
  num_coupons s = Z.of_nat (length (surprising_value_table s)) ->
  (forall rc, rc ∈ surprising_value_table s ->
     0 <= rc /\ Z.shiftr rc 6 < 2 ^ lg_k s /\ Z.land rc 63 <= 30) ->
  validate s = Ok true.
Proof.
  intros Hlg Hnil Hw0 Hnodup Hc Hcodes.
  pose proof (pow2_bounds (lg_k s) 26 ltac:(lia)) as Hk.
  unfold validate, build_bit_matrix.
  rewrite k_of_valid by lia. cbn [mbind result_bind bind].
  rewrite Hw0, Hnil. change (Z.of_nat (length []) >? 0) with false.
  change (0 >? 56) with false.
  change (shl_int 1 0) with (Ok 1 : result Z). cbn [mbind result_bind bind].
  change (sub_int 1 1) with (Ok 0 : result Z). cbn [mbind result_bind bind].
  change (u64 0) with 0. rewrite shl_int_1 by lia.
  destruct (Z.eqb_spec (num_coupons s) 0) as [Hzero | Hnz].
  - cbn [mbind result_bind bind]. rewrite count_bits_replicate_zero.
    rewrite Hzero. done.
  - cbn [mbind result_bind bind]. unfold get_slots.
    destruct (build_bit_matrix_table (2 ^ lg_k s) (surprising_value_table s) Hk
                (replicate (Z.to_nat (2 ^ lg_k s)) 0) Hnodup Hcodes)
      as (matrix' & -> & Hlen & Hsum).
    + apply length_replicate.
    + apply Forall_replicate. lia.
    + intros rc old _ Hlook. apply lookup_replicate in Hlook as [-> _].
      apply Z.testbit_0_l.
    + cbn [mbind result_bind bind]. unfold count_bits_set_in_matrix.
      rewrite take_ge by lia. rewrite Hsum.
      pose proof (count_bits_replicate_zero (Z.to_nat (2 ^ lg_k s)) (2 ^ lg_k s))
        as Hzero.
      unfold count_bits_set_in_matrix in Hzero.
      rewrite take_ge in Hzero by (rewrite length_replicate; lia).
      rewrite Hzero, Hc, Z.add_0_l, Z.eqb_refl. done.
Qed.

Lemma validate_sparse_witness :
  exists s0 s,
    cpc_sketch_alloc 4 0 = Ok s0
    /\ row_col_update s0 323 = Ok s
    /\ validate s = Ok true.
Proof.
  destruct (cpc_sketch_alloc 4 0) as [s0 | |] eqn:H0; try by vm_compute in H0.
  destruct (row_col_update s0 323) as [s | |] eqn:H1;
    try (injection H0 as <-; by vm_compute in H1).
  assert (lg_k s = 4 /\ sliding_window s = [] /\ window_offset s = 0
          /\ surprising_value_table s = [323] /\ num_coupons s = 1)
    as (Hlg & Hnil & Hw & Ht & Hc)
    by (injection H0 as <-; vm_compute in H1; by injection H1 as <-).
  exists s0, s. repeat split; try done.
  apply (validate_sparse s); try done.
  - lia.
  - rewrite Ht. apply NoDup_singleton.
  - by rewrite Ht, Hc.
  - intros rc Hin. rewrite Ht in Hin. apply list_elem_of_singleton in Hin as ->.
    rewrite Hlg. by vm_compute.
Defined.

(** ** The constructor *)

(** X13.  The public constructor.  For [lg_k] in [4, 26] it returns an empty
    sketch (no coupons, no window, an empty table, offset 0, [kxp = k], HIP
    accumulator 0) of flavor EMPTY that [validate] accepts; for [lg_k] below
    4 or in [27, 31] it throws [invalid_argument]; for [lg_k >= 32] the member
    initialiser [kxp(1 << lg_k)] shifts an [int] by 32 or more before the
    range check is reached. *)
Theorem cpc_sketch_alloc_spec (lgk sd : Z) :
  0 <= lgk < 256 ->
  (4 <= lgk <= 26 ->
   exists s, cpc_sketch_alloc lgk sd = Ok s
             /\ lg_k s = lgk /\ seed s = sd /\ is_empty s = true
             /\ sliding_window s = [] /\ surprising_value_table s = []
             /\ window_offset s = 0 /\ first_interesting_column s = 0
             /\ was_merged s = false
             /\ kxp s = double_of_Z (2 ^ lgk) /\ hip_est_accum s = pos_zero
             /\ determine_flavor lgk (num_coupons s) = Ok EMPTY
             /\ validate s = Ok true)
  /\ (lgk < 4 \/ 26 < lgk < 32 ->
      cpc_sketch_alloc lgk sd
      = Throw (invalid_argument "lg_k must be >= 4 and <= 26"))
  /\ (32 <= lgk -> cpc_sketch_alloc lgk sd = Undefined).
Proof.
  intros Hrange. unfold cpc_sketch_alloc, CPC_MIN_LG_K, CPC_MAX_LG_K.
  split; [| split].
  - intros Hlg. rewrite shl_int_1 by lia. cbn [mbind result_bind bind].
    destruct (Z.ltb_spec lgk 4); [lia |]. destruct (Z.gtb_spec lgk 26); [lia |].
    cbn [orb]. eexists. split; [reflexivity |].
    cbn [lg_k seed num_coupons sliding_window surprising_value_table
         window_offset first_interesting_column was_merged kxp hip_est_accum].
    repeat split.
    + unfold determine_flavor. rewrite k_of_valid by lia. done.
    + unfold validate, build_bit_matrix.
      cbn [lg_k num_coupons window_offset]. rewrite k_of_valid by lia.
      cbn [mbind result_bind bind]. change (0 >? 56) with false.
      change (shl_int 1 0) with (Ok 1 : result Z). cbn [mbind result_bind bind].
      change (sub_int 1 1) with (Ok 0 : result Z). cbn [mbind result_bind bind].
      change (u64 0) with 0. change (0 =? 0) with true.
      cbn [mbind result_bind bind]. rewrite shl_int_1 by lia.
      cbn [mbind result_bind bind]. by rewrite count_bits_replicate_zero.
  - intros Hlg. unfold shl_int.
    destruct (Z.leb_spec 0 lgk); [| lia]. destruct (Z.ltb_spec lgk 32); [| lia].
    pose proof (pow2_bounds lgk 31 ltac:(lia)) as Hp.
    change (2 ^ 31) with 2147483648 in Hp.
    destruct (Z.ltb_spec (1 * 2 ^ lgk) (2 ^ 32));
      [| change (2 ^ 32) with 4294967296 in *; lia].
    cbn [andb Z.leb Z.compare mbind result_bind bind].
    destruct (Z.ltb_spec lgk 4); [done |]. destruct (Z.gtb_spec lgk 26); [done | lia].
  - intros Hlg. unfold shl_int.
    destruct (Z.ltb_spec lgk 32); [lia |]. by rewrite andb_false_r.
Qed.

Lemma cpc_sketch_alloc_spec_witness :
  (exists s, cpc_sketch_alloc 12 9001 = Ok s /\ validate s = Ok true)
  /\ cpc_sketch_alloc 27 9001
     = Throw (invalid_argument "lg_k must be >= 4 and <= 26")
  /\ cpc_sketch_alloc 40 9001 = Undefined.
Proof.
  split; [| split].
  - destruct (proj1 (cpc_sketch_alloc_spec 12 9001 ltac:(lia)) ltac:(lia))
      as (s & Hs & Hrest).
    exists s. split; [exact Hs |]. apply Hrest.
  - apply (proj1 (proj2 (cpc_sketch_alloc_spec 27 9001 ltac:(lia)))). lia.
  - apply (proj2 (proj2 (cpc_sketch_alloc_spec 40 9001 ltac:(lia)))). lia.
Defined.

(** ** The table of a sparse sketch *)

Lemma update_sparse_table (s s' : cpc_sketch) (row_col : Z) :
  offset_invariant s -> sliding_window s = [] ->
  update_sparse s row_col = Ok s' -> sliding_window s' = [] ->
  NoDup (surprising_value_table s) ->
  num_coupons s = Z.of_nat (length (surprising_value_table s)) ->
  NoDup (surprising_value_table s')
  /\ num_coupons s' = Z.of_nat (length (surprising_value_table s'))
  /\ row_col ∈ surprising_value_table s'
  /\ (forall x, x ∈ surprising_value_table s' ->
        x ∈ surprising_value_table s \/ x = row_col).
Proof.
  intros (Hlg & Hc & Hw & Hstep & Hsparse) Hnil Hrun Hnil' Hnodup Hcount.
  destruct (Hsparse Hnil) as [Hw0 Hc32].
  pose proof (pow2_bounds (lg_k s) 26 ltac:(lia)) as Hk.
  change (2 ^ 26) with 67108864 in Hk.
  unfold update_sparse in Hrun. rewrite k_of_valid in Hrun by lia.
  cbn [mbind result_bind bind] in Hrun.
  destruct (_ >=? _); [discriminate |].
  destruct (maybe_insert_spec (surprising_value_table s) row_col)
    as [[Hin Hins] | [Hout Hins]]; rewrite Hins in Hrun.
  - apply Ok_inj in Hrun as <-. rewrite set_table_same. auto.
  - bind_inv Hrun as s1 Hhip. apply update_hip_frame in Hhip as (x & h & ->).
    sketch_fields.
    rewrite (u32_small (num_coupons s + 1)) in Hrun
      by (change (2 ^ 32) with 4294967296; lia).
    destruct (_ >=? _).
    + apply promote_sparse_to_windowed_shape in Hrun
        as (k & w & t' & Hk' & -> & Hlen & _).
      sketch_fields. rewrite k_of_valid in Hk' by lia. apply Ok_inj in Hk' as <-.
      subst w. simpl in Hlen. lia.
    + apply Ok_inj in Hrun as <-. sketch_fields. repeat split.
      * apply NoDup_app. repeat split; [done | | apply NoDup_singleton].
        intros y Hy Hy'. apply list_elem_of_singleton in Hy' as ->. done.
      * rewrite length_app. simpl. lia.
      * apply elem_of_app. right. by apply list_elem_of_singleton.
      * intros y Hy. apply elem_of_app in Hy as [Hy | Hy]; [by left |].
        right. by apply list_elem_of_singleton in Hy.
Qed.

Lemma row_col_update_sparse_table (s s' : cpc_sketch) (row_col : Z) :
  offset_invariant s ->
  (sliding_window s = [] ->
   NoDup (surprising_value_table s)
   /\ num_coupons s = Z.of_nat (length (surprising_value_table s))) ->
  row_col_update s row_col = Ok s' ->
  sliding_window s' = [] ->
  NoDup (surprising_value_table s')
  /\ num_coupons s' = Z.of_nat (length (surprising_value_table s')).
Proof.
  intros Hinv Htable Hrun Hnil'.
  pose proof (row_col_update_shape s s' row_col Hrun)
    as (_ & _ & _ & _ & Hlen & _).
  assert (sliding_window s = []) as Hnil.
  { destruct (decide (sliding_window s = [])) as [| Hne]; [done |].
    specialize (Hlen Hne). rewrite Hnil' in Hlen.
    destruct (sliding_window s); [done | simpl in Hlen; lia]. }
  destruct (Htable Hnil) as [Hnodup Hcount].
  unfold row_col_update in Hrun. rewrite Hnil in Hrun.
  destruct (_ <? _); [by apply Ok_inj in Hrun as <- |].
  cbn [length Z.of_nat Z.eqb] in Hrun.
  destruct (update_sparse_table s s' row_col Hinv Hnil Hrun Hnil' Hnodup Hcount)
    as (? & ? & _); done.
Qed.

Section SparseTable.
Context {ext : Externals}.

(** X14.  In a sketch built by the constructor and updates that has no
    window (flavors EMPTY and SPARSE), the table holds exactly [num_coupons]
    distinct codes. *)
Theorem reachable_sparse_table (s : cpc_sketch) :
  reachable s -> sliding_window s = [] ->
  NoDup (surprising_value_table s)
  /\ num_coupons s = Z.of_nat (length (surprising_value_table s)).
Proof.
  induction 1 as [lgk sd s Hnew | s s' c Hreach IH Hcall].
  - intros _. unfold cpc_sketch_alloc in Hnew. bind_inv Hnew as k Hk.
    destruct (_ || _); [discriminate |]. apply Ok_inj in Hnew as <-.
    sketch_fields. split; [apply NoDup_nil_2 | done].
  - apply run_call_unfold in Hcall as [-> | [rc Hrc]]; [done |].
    apply (row_col_update_sparse_table s s' rc); try done.
    by apply reachable_invariant.
Qed.

End SparseTable.

Lemma reachable_sparse_table_witness :
  exists s,
    foldl (fun r c => r ≫= fun s => run_call s c)
      (cpc_sketch_alloc 4 0) [call_row_col 323; call_row_col 323] = Ok s
    /\ NoDup (surprising_value_table s)
    /\ num_coupons s = Z.of_nat (length (surprising_value_table s)).
Proof.
  destruct (cpc_sketch_alloc 4 0) as [s0 | |] eqn:H0; try by vm_compute in H0.
  destruct (run_call s0 (call_row_col 323)) as [s1 | |] eqn:H1;
    try (injection H0 as <-; by vm_compute in H1).
  destruct (run_call s1 (call_row_col 323)) as [s2 | |] eqn:H2;
    try (injection H0 as <-; injection H1 as <-; by vm_compute in H2).
  assert (sliding_window s2 = []) as Hnil
    by (injection H0 as <-; injection H1 as <-; vm_compute in H2;
        by injection H2 as <-).
  exists s2. split.
  - cbn [foldl]. cbn [mbind result_bind bind]. rewrite H1.
    cbn [mbind result_bind bind]. exact H2.
  - apply (reachable_sparse_table s2); [| exact Hnil].
    eapply reachable_call; [| exact H2].
    eapply reachable_call; [| exact H1].
    eapply reachable_new. exact H0.
Defined.

(** ** The 32-bit coupon count *)

(** X15.  [num_coupons << 5] is a 32-bit shift.  In a windowed sketch whose
    count is 2^27 or a little above ([32 (C - 2^27) < 3k]) the shifted count
    wraps below [3k], and every call of [row_col_update] that gets past the
    [first_interesting_column] test throws [logic_error]. *)
Theorem row_col_update_count_wraps (s : cpc_sketch) (row_col : Z) :
  4 <= lg_k s <= 26 ->
  sliding_window s <> [] -> window_offset s <= 56 ->
  first_interesting_column s <= u8 (Z.land row_col 63) ->
  2 ^ 27 <= num_coupons s ->
  32 * (num_coupons s - 2 ^ 27) < 3 * 2 ^ lg_k s ->
  row_col_update s row_col = Throw (logic_error "c32pre < 3 * k").
Proof.
  intros Hlg Hwin Hw Hcol Hc Hwrap.
  pose proof (pow2_bounds (lg_k s) 26 ltac:(lia)) as Hk.
  change (2 ^ 26) with 67108864 in Hk. change (2 ^ 27) with 134217728 in *.
  unfold row_col_update.
  destruct (Z.ltb_spec (u8 (Z.land row_col 63)) (first_interesting_column s));
    [lia |].
  destruct (Z.eqb_spec (Z.of_nat (length (sliding_window s))) 0) as [Hlen |].
  { destruct (sliding_window s); [done | simpl in Hlen; lia]. }
  unfold update_windowed.
  destruct (Z.gtb_spec (window_offset s) 56); [lia |].
  rewrite k_of_valid by lia. cbn [mbind result_bind bind].
  rewrite Z.shiftl_mul_pow2 by lia. change (2 ^ 5) with 32.
  rewrite u64_small by (change (2 ^ 64) with 18446744073709551616; lia).
  assert (u32 (num_coupons s * 32) = 32 * (num_coupons s - 134217728)) as ->.
  { unfold u32, wrap. change (2 ^ 32) with 4294967296.
    replace (num_coupons s * 32)
      with (32 * (num_coupons s - 134217728) + 1 * 4294967296) by lia.
    rewrite Z.mod_add by lia. apply Z.mod_small. lia. }
  destruct (Z.ltb_spec (32 * (num_coupons s - 134217728)) (3 * 2 ^ lg_k s));
    [done | lia].
Qed.

Lemma row_col_update_count_wraps_witness :
  row_col_update
    (mk_sketch 26 0 false (2 ^ 27) [] [0] 0 0
       pos_zero pos_zero) 323
  = Throw (logic_error "c32pre < 3 * k").
Proof.
  apply row_col_update_count_wraps; cbn [lg_k sliding_window window_offset
    first_interesting_column num_coupons]; try done; try lia.
Defined.

Section CountBound.
Context {ext : Externals}.

(** X16.  In every sketch built by the constructor and updates the count is
    at most 2^27, below the promotion threshold [3k/32] as long as there is
    no window, and below [(27/8 + window_offset) k]. *)
Theorem reachable_num_coupons (s : cpc_sketch) :
  reachable s ->
  0 <= num_coupons s <= 2 ^ 27
  /\ (sliding_window s = [] -> 32 * num_coupons s < 3 * 2 ^ lg_k s)
  /\ 8 * num_coupons s < (27 + 8 * window_offset s) * 2 ^ lg_k s.
Proof.
  intros Hreach. apply reachable_invariant in Hreach.
  destruct Hreach as (Hlg & Hc & Hw & Hstep & Hsparse).
  split; [done |]. split; [intros Hnil; by apply Hsparse |].
  destruct Hstep as [[-> H8] | [_ H8]]; lia.
Qed.

End CountBound.

Lemma reachable_num_coupons_witness :
  exists s,
    foldl (fun r c => r ≫= fun s => run_call s c)
      (cpc_sketch_alloc 4 0) [call_row_col 3; call_row_col 73] = Ok s
    /\ 0 <= num_coupons s <= 2 ^ 27
    /\ (sliding_window s = [] -> 32 * num_coupons s < 3 * 2 ^ lg_k s)
    /\ 8 * num_coupons s < (27 + 8 * window_offset s) * 2 ^ lg_k s.
Proof.
  destruct (cpc_sketch_alloc 4 0) as [s0 | |] eqn:H0; try by vm_compute in H0.
  destruct (run_call s0 (call_row_col 3)) as [s1 | |] eqn:H1;
    try (injection H0 as <-; by vm_compute in H1).
  destruct (run_call s1 (call_row_col 73)) as [s2 | |] eqn:H2;
    try (injection H0 as <-; injection H1 as <-; by vm_compute in H2).
  exists s2. split.
  - cbn [foldl]. cbn [mbind result_bind bind]. rewrite H1.
    cbn [mbind result_bind bind]. exact H2.
  - apply (reachable_num_coupons s2).
    eapply reachable_call; [| exact H2].
    eapply reachable_call; [| exact H1].
    eapply reachable_new. exact H0.
Defined.
